(** * PublishItemCards: a shallow embedding of the SDG publishing script

    The script walks the SDG indicator taxonomy (goal, target, indicator,
    series), builds an item card for every series and reconciles it with a
    hosted content catalog.  Python values are embedded as follows:

    - [str] is [string]; one [ascii] stands for one character, and the case
      conversions below act on the ASCII letters only;
    - dynamically typed call arguments are [PyVal];
    - the remote catalog, the open-data group, the console and the module
      level list [failed_series] form the record [World], which every
      effectful function threads explicitly;
    - a raised exception is the [Raise] outcome of the [M] monad. *)

From Stdlib Require Import String Ascii List ZArith Lia Bool Arith.
Import ListNotations.
Local Open Scope string_scope.
Local Open Scope list_scope.

Set Implicit Arguments.

(** ** Python string primitives *)

Module PyStr.

(** [s[:n]] *)
Fixpoint take (n : nat) (s : string) : string :=
  match n, s with
  | O, _ => EmptyString
  | S _, EmptyString => EmptyString
  | S n', String c s' => String c (take n' s')
  end.

(** [s.replace(c, r)] for a one-character pattern [c]. *)
Fixpoint replace (c : ascii) (r : string) (s : string) : string :=
  match s with
  | EmptyString => EmptyString
  | String d s' =>
      if Ascii.eqb d c then r ++ replace c r s'
      else String d (replace c r s')
  end.

Definition is_upper (c : ascii) : bool :=
  let n := nat_of_ascii c in (65 <=? n)%nat && (n <=? 90)%nat.

Definition is_lower (c : ascii) : bool :=
  let n := nat_of_ascii c in (97 <=? n)%nat && (n <=? 122)%nat.

Definition is_cased (c : ascii) : bool := is_upper c || is_lower c.

Definition upper_char (c : ascii) : ascii :=
  if is_lower c then ascii_of_nat (nat_of_ascii c - 32) else c.

Definition lower_char (c : ascii) : ascii :=
  if is_upper c then ascii_of_nat (nat_of_ascii c + 32) else c.

Fixpoint lower (s : string) : string :=
  match s with
  | EmptyString => EmptyString
  | String c s' => String (lower_char c) (lower s')
  end.

(** [s.capitalize()]: first character upper-cased, all others lower-cased. *)
Definition capitalize (s : string) : string :=
  match s with
  | EmptyString => EmptyString
  | String c s' => String (upper_char c) (lower s')
  end.

(** [s.title()]: every letter that follows an uncased character (or starts
    the string) is upper-cased, every other letter is lower-cased. *)
Fixpoint title_from (prev_cased : bool) (s : string) : string :=
  match s with
  | EmptyString => EmptyString
  | String c s' =>
      String (if prev_cased then lower_char c else upper_char c)
             (title_from (is_cased c) s')
  end.

Definition title (s : string) : string := title_from false s.

Definition is_space (c : ascii) : bool :=
  let n := nat_of_ascii c in
  (n =? 32)%nat || ((9 <=? n)%nat && (n <=? 13)%nat).

Fixpoint lstrip (s : string) : string :=
  match s with
  | String c s' => if is_space c then lstrip s' else s
  | EmptyString => EmptyString
  end.

Fixpoint rev_acc (s acc : string) : string :=
  match s with
  | EmptyString => acc
  | String c s' => rev_acc s' (String c acc)
  end.

Definition strip (s : string) : string :=
  rev_acc (lstrip (rev_acc (lstrip s) EmptyString)) EmptyString.

Definition digit_val (c : ascii) : option Z :=
  let n := nat_of_ascii c in
  if (48 <=? n)%nat && (n <=? 57)%nat then Some (Z.of_nat (n - 48)) else None.

(** Decimal digits with single underscores allowed between two digits.
    [acc = None] before the first digit; [us] records that the previous
    character was an underscore. *)
Fixpoint digits (acc : option Z) (us : bool) (s : string) : option Z :=
  match s with
  | EmptyString => if us then None else acc
  | String c s' =>
      match digit_val c with
      | Some d =>
          digits (Some (match acc with Some a => 10 * a + d | None => d end)%Z)
                 false s'
      | None =>
          if Ascii.eqb c "_"
          then match acc with
               | Some _ => if us then None else digits acc true s'
               | None => None
               end
          else None
      end
  end.

(** [int(s)] on a string: [None] stands for [ValueError]. *)
Definition to_int (s : string) : option Z :=
  match strip s with
  | String "-" r => option_map Z.opp (digits None false r)
  | String "+" r => digits None false r
  | r => digits None false r
  end.

(** [os.path.join(a, b)] on POSIX. *)
Definition ends_with_slash (a : string) : bool :=
  match rev_acc a EmptyString with
  | String "/" _ => true
  | _ => false
  end.

Definition path_join (a b : string) : string :=
  match b with
  | String "/" _ => b
  | _ => match a with
         | EmptyString => b
         | _ => if ends_with_slash a then a ++ b else a ++ "/" ++ b
         end
  end.

End PyStr.

(** ** Dynamically typed arguments *)

Inductive PyVal : Type :=
| PyNone
| PyInt (n : Z)
| PyStr (s : string).

(** [bool(v)] *)
Definition truthy (v : PyVal) : bool :=
  match v with
  | PyNone => false
  | PyInt n => negb (n =? 0)%Z
  | PyStr s => negb (s =? "")
  end.

Definition is_none (v : PyVal) : bool :=
  match v with PyNone => true | _ => false end.

(** [n == v] for an [int] [n]: an [int] never equals a [str] or [None]. *)
Definition int_eq_val (n : Z) (v : PyVal) : bool :=
  match v with PyInt m => (n =? m)%Z | _ => false end.

(** [s == v] for a [str] [s]. *)
Definition str_eq_val (s : string) (v : PyVal) : bool :=
  match v with PyStr t => (s =? t) | _ => false end.

(** ** The two JSON documents *)

(** The indicator taxonomy: [json_data]. *)
Record Series := mkSeries {
  s_code : string;
  s_description : string;
  s_release : string }.

Record Indicator := mkIndicator {
  i_code : string;
  i_description : string;
  i_series : list Series }.

Record Target := mkTarget {
  t_code : string;
  t_description : string;
  t_indicators : list Indicator }.

Record Goal := mkGoal {
  g_code : string;
  g_title : string;
  g_description : string;
  g_targets : list Target }.

(** The display metadata: the value of [get_metadata()]. *)
Record MSeries := mkMSeries {
  ms_series : string;
  ms_tags : list string }.

Record MIndicator := mkMIndicator {
  mi_indicator : string;
  mi_series : list MSeries }.

Record MTarget := mkMTarget {
  mt_target : string;
  mt_indicators : list MIndicator }.

Record GoalMeta := mkGoalMeta {
  gm_goal : Z;
  gm_icon_url_sq : option string;   (* the key may be absent *)
  gm_targets : list MTarget }.

(** ** get_series_tags *)

(** The three nested loops return from the function at the first series that
    matches inside a matching indicator inside a matching target; [None] means
    that the loop ran to its end. *)
Fixpoint series_tags_in_series (l : list MSeries) (series_code : string)
  : option (list string) :=
  match l with
  | [] => None
  | s :: l' =>
      if ms_series s =? series_code then Some (ms_tags s)
      else series_tags_in_series l' series_code
  end.

Fixpoint series_tags_in_indicators (l : list MIndicator)
    (indicator_code series_code : string) : option (list string) :=
  match l with
  | [] => None
  | i :: l' =>
      let rest := series_tags_in_indicators l' indicator_code series_code in
      if mi_indicator i =? indicator_code then
        match series_tags_in_series (mi_series i) series_code with
        | Some tags => Some tags
        | None => rest
        end
      else rest
  end.

Fixpoint series_tags_in_targets (l : list MTarget)
    (indicator_code target_code series_code : string) : option (list string) :=
  match l with
  | [] => None
  | t :: l' =>
      let rest :=
        series_tags_in_targets l' indicator_code target_code series_code in
      if mt_target t =? target_code then
        match series_tags_in_indicators (mt_indicators t)
                indicator_code series_code with
        | Some tags => Some tags
        | None => rest
        end
      else rest
  end.

Definition get_series_tags (goal_metadata : GoalMeta)
    (indicator_code target_code series_code : string) : list string :=
  match series_tags_in_targets (gm_targets goal_metadata)
          indicator_code target_code series_code with
  | Some tags => tags
  | None => []
  end.

(** ** set_field_alias *)

Definition set_field_alias (field_name : string) : string :=
  if field_name =? "series_release" then "Series Release"
  else if field_name =? "series_code" then "Series Code"
  else if field_name =? "series_description" then "Series Description"
  else if field_name =? "geoAreaCode" then "Geographic Area Code"
  else if field_name =? "geoAreaName" then "Geographic Area Name"
  else if field_name =? "Freq" then "Frequency"
  else if field_name =? "latest_year" then "Latest Year"
  else if field_name =? "latest_value" then "Latest Value"
  else if field_name =? "latest_source" then "Latest Source"
  else if field_name =? "latest_nature" then "Latest Nature"
  else if field_name =? "last_5_years_mean" then "Mean of the Last 5 Years"
  else if field_name =? "ISO3CD" then "ISO3 Code"
  else PyStr.replace "_" " " (PyStr.capitalize field_name).

(** ** The remote catalog and the process state *)

Inductive Exn : Type :=
| ValueError                       (* int() on a non-numeric string *)
| TypeError                        (* iterating over None *)
| KeyError (key : string)
| UnboundLocalError (name : string)
| NameError (name : string)
| RemoteError.                     (* any failure of a catalog request *)

(** A column of an analysed CSV file. *)
Record Field := mkField {
  f_name : string;
  f_alias : string;
  f_type : string;
  f_sqlType : string }.

Record PublishParameters := mkPublishParameters {
  pp_name : option string;
  pp_fields : list Field;
  pp_displayField : option string }.

(** The dictionary [item_properties]; [csv_item_properties] adds two keys. *)
Record Props := mkProps {
  p_title : string;
  p_snippet : string;
  p_description : string;
  p_tags : list string;
  p_type : option string;
  p_url : option string }.

Record Sharing := mkSharing {
  sh_everyone : bool;
  sh_org : bool;
  sh_groups : string;
  sh_allow_members_to_edit : bool }.

Record Item := mkItem {
  it_id : nat;
  it_title : string;
  it_snippet : string;
  it_description : string;
  it_tags : list string;
  it_type : string;
  it_url : string;
  it_thumbnail : string;
  it_data : option string;          (* path of the uploaded file *)
  it_ownerFolder : option string;   (* None: the root folder *)
  it_sharing : option Sharing }.

Inductive Output : Type :=
| Printed (text : string)
| PrintedSearching (title : string)
| PrintedProcessing (indicator series : string)
| PrintedFailed (indicator series : string)
| PrintedUnexpected (e : Exn)       (* print("Unexpected error:", ...) *)
| Traceback (e : Exn)               (* traceback.print_exc() *)
| Displayed (item : nat).           (* display(online_item) *)

Record World := mkWorld {
  items : list Item;                          (* the owner's catalog content *)
  next_id : nat;
  group_tags : list string;                   (* open_data_group["tags"] *)
  files : list (string * list Field);         (* local files and their columns *)
  display_metadata : option (list GoalMeta);  (* None: the fetch fails *)
  failed_series : list string;
  console : list Output;
  calls : nat;                                (* catalog requests issued so far *)
  faults : list nat }.                        (* requests that raise *)

Definition open_data_group_id : string := "15c1671f5fbc4a00b1a359d51ea6a546".

Definition default_thumbnail : string :=
  "http://undesa.maps.arcgis.com/sharing/rest/content/items/aaa0678dba0a466e8efef6b9f11775fe/data".

Definition set_items (l : list Item) (w : World) : World :=
  mkWorld l (next_id w) (group_tags w) (files w) (display_metadata w)
          (failed_series w) (console w) (calls w) (faults w).

Definition set_next_id (n : nat) (w : World) : World :=
  mkWorld (items w) n (group_tags w) (files w) (display_metadata w)
          (failed_series w) (console w) (calls w) (faults w).

Definition set_group_tags (t : list string) (w : World) : World :=
  mkWorld (items w) (next_id w) t (files w) (display_metadata w)
          (failed_series w) (console w) (calls w) (faults w).

Definition set_failed_series (l : list string) (w : World) : World :=
  mkWorld (items w) (next_id w) (group_tags w) (files w) (display_metadata w)
          l (console w) (calls w) (faults w).

Definition set_console (l : list Output) (w : World) : World :=
  mkWorld (items w) (next_id w) (group_tags w) (files w) (display_metadata w)
          (failed_series w) l (calls w) (faults w).

Definition set_calls (n : nat) (w : World) : World :=
  mkWorld (items w) (next_id w) (group_tags w) (files w) (display_metadata w)
          (failed_series w) (console w) n (faults w).

(** ** A state and exception monad *)

Inductive Outcome (A : Type) : Type :=
| Ok (a : A)
| Raise (e : Exn).
Arguments Ok {A} a.
Arguments Raise {A} e.

Definition M (A : Type) : Type := World -> Outcome A * World.

Definition ret {A} (a : A) : M A := fun w => (Ok a, w).

Definition raise {A} (e : Exn) : M A := fun w => (Raise e, w).

Definition bind {A B} (m : M A) (k : A -> M B) : M B :=
  fun w =>
    match m w with
    | (Ok a, w') => k a w'
    | (Raise e, w') => (Raise e, w')
    end.

(** [try: m except: h] with a bare [except]. *)
Definition try_except {A} (m : M A) (h : Exn -> M A) : M A :=
  fun w =>
    match m w with
    | (Ok a, w') => (Ok a, w')
    | (Raise e, w') => h e w'
    end.

Notation "x <- m ;; k" := (bind m (fun x => k))
  (at level 61, m at next level, right associativity).
Notation "m ;; k" := (bind m (fun _ => k))
  (at level 61, right associativity).

Definition output (o : Output) : M unit :=
  fun w => (Ok tt, set_console (console w ++ [o]) w).

Definition print (text : string) : M unit := output (Printed text).

(** [failed_series.append(code)] *)
Definition failed_series_append (code : string) : M unit :=
  fun w => (Ok tt, set_failed_series (failed_series w ++ [code]) w).

(** A request to the catalog service: it is counted, and it raises when its
    number is listed in [faults]. *)
Definition remote {A} (op : M A) : M A :=
  fun w =>
    let w1 := set_calls (S (calls w)) w in
    if existsb (Nat.eqb (calls w)) (faults w) then (Raise RemoteError, w1)
    else op w1.

(** ** Catalog operations *)

Definition find_item (id : nat) (l : list Item) : option Item :=
  find (fun it => it_id it =? id)%nat l.

Definition modify_item (id : nat) (f : Item -> Item) (l : list Item)
  : list Item :=
  map (fun it => if (it_id it =? id)%nat then f it else it) l.

Definition or_else {A} (o : option A) (d : A) : A :=
  match o with Some a => a | None => d end.

(** [item.update(item_properties=props, thumbnail=thumbnail, data=data)] *)
Definition apply_update (props : Props) (thumbnail : string)
    (data : option string) (it : Item) : Item :=
  mkItem (it_id it) (p_title props) (p_snippet props) (p_description props)
         (p_tags props) (or_else (p_type props) (it_type it))
         (or_else (p_url props) (it_url it)) thumbnail
         (match data with Some f => Some f | None => it_data it end)
         (it_ownerFolder it) (it_sharing it).

Definition item_update (id : nat) (props : Props) (thumbnail : string)
    (data : option string) : M unit :=
  remote (fun w =>
    (Ok tt, set_items (modify_item id (apply_update props thumbnail data)
                                   (items w)) w)).

(** [item.move(folder)] *)
Definition item_move (id : nat) (folder : string) : M unit :=
  remote (fun w =>
    (Ok tt,
     set_items (modify_item id (fun it =>
       mkItem (it_id it) (it_title it) (it_snippet it) (it_description it)
              (it_tags it) (it_type it) (it_url it) (it_thumbnail it)
              (it_data it) (Some folder) (it_sharing it)) (items w)) w)).

(** [item.share(everyone=True, org=True, groups=..., allow_members_to_edit=False)] *)
Definition item_share (id : nat) (sh : Sharing) : M unit :=
  remote (fun w =>
    (Ok tt,
     set_items (modify_item id (fun it =>
       mkItem (it_id it) (it_title it) (it_snippet it) (it_description it)
              (it_tags it) (it_type it) (it_url it) (it_thumbnail it)
              (it_data it) (it_ownerFolder it) (Some sh)) (items w)) w)).

(** [gis.content.add(item_properties=props, thumbnail=thumbnail, data=file)] *)
Definition content_add (props : Props) (thumbnail file : string)
  : M (option nat) :=
  remote (fun w =>
    let id := next_id w in
    let it := mkItem id (p_title props) (p_snippet props)
                (p_description props) (p_tags props)
                (or_else (p_type props) "") (or_else (p_url props) "")
                thumbnail (Some file) None None in
    (Ok (Some id), set_next_id (S id) (set_items (items w ++ [it]) w))).

(** [csv_item.publish(publish_parameters=pp, overwrite=True)]: the service
    derived from a CSV item. *)
Definition item_publish (id : nat) (pp : PublishParameters)
  : M (option nat) :=
  remote (fun w =>
    match find_item id (items w) with
    | None => (Raise RemoteError, w)
    | Some src =>
        let sid := next_id w in
        let svc := mkItem sid (or_else (pp_name pp) (it_title src))
                     (it_snippet src) (it_description src) (it_tags src)
                     "Feature Service" "" (it_thumbnail src) (it_data src)
                     None None in
        (Ok (Some sid), set_next_id (S sid) (set_items (items w ++ [svc]) w))
    end).

(** [item["ownerFolder"]] on a handle. *)
Definition owner_folder (id : nat) : M (option string) :=
  fun w =>
    match find_item id (items w) with
    | Some it => (Ok (it_ownerFolder it), w)
    | None => (Raise (KeyError "ownerFolder"), w)
    end.

(** [open_data_group.update(tags=open_data_group["tags"] + new_tags)] *)
Definition group_update_tags (new_tags : list string) : M unit :=
  fun w =>
    let tags := group_tags w ++ new_tags in
    remote (fun w' => (Ok tt, set_group_tags tags w')) w.

(** [os.path.isfile(file)] *)
Definition isfile (file : string) : M bool :=
  fun w => (Ok (existsb (fun p => fst p =? file) (files w)), w).

(** [get_metadata()]: every failure is turned into [None]. *)
Definition get_metadata : M (option (list GoalMeta)) :=
  fun w => (Ok (display_metadata w), w).

(** ** Name resolution

    A name that is read in a function body is looked up among the function's
    local names and the names bound at module level. *)

Definition module_globals : list string :=
  [ "copy"; "getpass"; "json"; "os"; "re"; "sys"; "time"; "traceback";
    "urllib"; "request"; "urlopen"; "datetime"; "requests"; "display"; "GIS";
    "online_username"; "online_password"; "online_connection";
    "gis_online_connection"; "metadata_url"; "open_data_group_id";
    "open_data_group"; "failed_series"; "url"; "req"; "response";
    "response_bytes"; "json_data"; "reassign_to_admin"; "cleanup_site";
    "get_series_tags"; "process_sdg_information"; "set_field_alias";
    "analyze_csv"; "find_online_item"; "publish_csv"; "get_metadata";
    "create_group" ].

Definition publish_csv_locals : list string :=
  [ "indicator"; "series"; "item_properties"; "thumbnail";
    "property_update_only"; "data_dir"; "series_title"; "file";
    "csv_item_properties"; "csv_item"; "publish_parameters"; "csv_lyr" ].

Definition load_name (locals : list string) (name : string) : M unit :=
  if existsb (String.eqb name) (locals ++ module_globals) then ret tt
  else raise (NameError name).

(** ** The script's functions *)

Section Script.

(** The catalog's full-text matching of a title query against an item
    title; the service decides it, the script only filters its answer. *)
Variable title_matches : string -> string -> bool.

(** [gis.content.search(query_string)]: handles with the titles they
    carry. *)
Definition content_search (title : string) : M (list (nat * string)) :=
  remote (fun w =>
    (Ok (map (fun it => (it_id it, it_title it))
             (filter (fun it => title_matches title (it_title it))
                     (items w))), w)).

Fixpoint first_exact_title (title : string) (results : list (nat * string))
  : option nat :=
  match results with
  | [] => None
  | (id, t) :: rest =>
      if t =? title then Some id else first_exact_title title rest
  end.

Definition find_online_item (title : string) : M (option nat) :=
  try_except
    (output (PrintedSearching title) ;;
     search_results <- content_search title ;;
     ret (first_exact_title title search_results))
    (fun e => output (PrintedUnexpected e) ;; ret None).

(** The answer of the [analyze] endpoint for an item: the columns of its
    file, or a document without ["publishParameters"]. *)
Definition analyze_request (item_id : nat) : M (list Field) :=
  remote (fun w =>
    match find_item item_id (items w) with
    | Some it =>
        match it_data it with
        | Some file =>
            match find (fun p => fst p =? file) (files w) with
            | Some p => (Ok (snd p), w)
            | None => (Raise (KeyError "publishParameters"), w)
            end
        | None => (Raise (KeyError "publishParameters"), w)
        end
    | None => (Raise (KeyError "publishParameters"), w)
    end).

Definition patch_field (field : Field) : Field :=
  let alias := set_field_alias (f_name field) in
  if f_name field =? "indicator"
  then mkField (f_name field) alias "esriFieldTypeString" "sqlTypeNVarchar"
  else mkField (f_name field) alias (f_type field) (f_sqlType field).

Definition analyze_csv (item_id : nat) : M (option PublishParameters) :=
  try_except
    (fields <- analyze_request item_id ;;
     ret (Some (mkPublishParameters None (map patch_field fields)
                                    (Some "geoAreaName"))))
    (fun e => output (PrintedUnexpected e) ;; ret None).

Definition move_to_open_data (id : nat) (message : string) : M unit :=
  folder <- owner_folder id ;;
  match folder with
  | None => print message ;; item_move id "Open Data"
  | Some _ => ret tt
  end.

(** The tail of [publish_csv], from "Move to the Open Data Folder" on. *)
Definition publish_csv_finish (csv_item : nat) (csv_lyr : option nat)
    (item_properties : Props) (thumbnail : string) : M (option nat) :=
  move_to_open_data csv_item "Moving CSV to Open Data Folder" ;;
  match csv_lyr with
  | Some lyr =>
      print "Updating Feature Service metadata...." ;;
      item_update lyr item_properties thumbnail None ;;
      move_to_open_data lyr "Moving Feature Service to Open Data Folder" ;;
      ret (Some lyr)
  | None => ret None
  end.

Definition publish_csv (indicator : Indicator) (series : Series)
    (item_properties : Props) (thumbnail : string) : M (option nat) :=
  try_except
    (let data_dir := "FIS4SDGs/csv/" in
     let series_title :=
       (s_code series ++ "_" ++ PyStr.replace "." "" (s_release series))%string in
     let file := PyStr.path_join data_dir (s_code series ++ "_cube.pivot.csv") in
     present <- isfile file ;;
     if present then
       let csv_item_properties :=
         mkProps series_title (p_snippet item_properties)
                 (p_description item_properties) (p_tags item_properties)
                 (Some "CSV") (Some "") in
       found <- find_online_item (p_title csv_item_properties) ;;
       match found with
       | None =>
           print "Adding CSV File to ArcGIS Online...." ;;
           added <- content_add csv_item_properties thumbnail file ;;
           match added with
           | None => ret None
           | Some csv_item =>
               print "Analyze Feature Service...." ;;
               analysed <- analyze_csv csv_item ;;
               match analysed with
               | None =>
                   failed_series_append (s_code series) ;;
                   ret None
               | Some publish_parameters =>
                   let publish_parameters :=
                     mkPublishParameters
                       (Some (p_title csv_item_properties))
                       (pp_fields publish_parameters)
                       (pp_displayField publish_parameters) in
                   (* publishParameters["layerInfo"]["name"] = ... *)
                   load_name publish_csv_locals "publishParameters" ;;
                   print "Publishing Feature Service...." ;;
                   csv_lyr <- item_publish csv_item publish_parameters ;;
                   publish_csv_finish csv_item csv_lyr item_properties
                                      thumbnail
               end
           end
       | Some csv_item =>
           item_update csv_item csv_item_properties thumbnail (Some file) ;;
           csv_lyr <- find_online_item (p_title item_properties) ;;
           match csv_lyr with
           | None => ret None
           | Some _ =>
               publish_csv_finish csv_item csv_lyr item_properties thumbnail
           end
       end
     else ret None)
    (fun e => output (PrintedUnexpected e) ;; ret None).

(** *** process_sdg_information *)

Record Filters := mkFilters {
  goal_code : PyVal;
  indicator_code : PyVal;
  target_code : PyVal;
  series_code : PyVal;
  property_update_only : bool }.

(** How a loop body ends: it falls through (or executes [continue]), or it
    executes [return]. *)
Inductive Completion : Type := Normal | Returned.

Fixpoint for_each {A} (body : A -> M Completion) (l : list A)
  : M Completion :=
  match l with
  | [] => ret Normal
  | x :: l' =>
      c <- body x ;;
      match c with
      | Normal => for_each body l'
      | Returned => ret Returned
      end
  end.

(** [int(code) != v], guarded by [v is not None]. *)
Definition int_code_differs (code : string) (v : PyVal) : M bool :=
  if is_none v then ret false
  else match PyStr.to_int code with
       | Some n => ret (negb (int_eq_val n v))
       | None => raise ValueError
       end.

(** The search for the goal's display record.  [goal_metadata] is a local
    variable of the function that the loop assigns on a match and leaves
    alone otherwise; [None] is the variable not bound yet. *)
Fixpoint find_goal_metadata (sdg_metadata : list GoalMeta) (code : string)
    (goal_metadata : option GoalMeta) : M (option GoalMeta) :=
  match sdg_metadata with
  | [] => ret goal_metadata
  | goal_item :: rest =>
      match PyStr.to_int code with
      | Some n =>
          if (gm_goal goal_item =? n)%Z then ret (Some goal_item)
          else find_goal_metadata rest code goal_metadata
      | None => raise ValueError
      end
  end.

Definition goal_thumbnail (goal_metadata : GoalMeta) : string :=
  match gm_icon_url_sq goal_metadata with
  | Some url => url
  | None => default_thumbnail
  end.

Definition goal_tags (goal : Goal) : list string :=
  [("SDG " ++ g_code goal)%string].

Definition target_tags (target : Target) : list string :=
  [("Target " ++ t_code target)%string].

Definition indicator_name (indicator : Indicator) : string :=
  "Indicator " ++ i_code indicator.

Definition indicator_tags (indicator : Indicator) : list string :=
  [indicator_name indicator].

Definition indicator_description (goal : Goal) (target : Target)
    (indicator : Indicator) : string :=
  "<p><strong>Indicator " ++ i_code indicator ++ ": </strong>"
    ++ i_description indicator ++ "</p>" ++ "</p><p><strong>Target "
    ++ t_code target ++ ": </strong>" ++ t_description target ++ "</p>"
    ++ "<p>" ++ g_description goal ++ "</p>".

(** [if not series["description"]: series["description"] = series["code"]] *)
Definition default_description (series : Series) : Series :=
  if s_description series =? ""
  then mkSeries (s_code series) (s_code series) (s_release series)
  else series.

Definition truncate_snippet (snippet : string) : string :=
  if (250 <? String.length snippet)%nat
  then PyStr.take 250 snippet ++ ".."
  else snippet.

(** The snippet of the item card, from the series as the taxonomy has it. *)
Definition series_snippet (series : Series) : string :=
  let series := default_description series in
  truncate_snippet (s_code series ++ ": " ++ s_description series).

Definition final_tags (goal : Goal) (target : Target) (indicator : Indicator)
    (series : Series) (goal_metadata : GoalMeta) : list string :=
  let final_tags :=
    (goal_tags goal ++ target_tags target) ++ indicator_tags indicator in
  (* final_tags.extend(get_series_tags(...)) *)
  let final_tags :=
    final_tags ++ get_series_tags goal_metadata (i_code indicator)
                                  (t_code target) (s_code series) in
  (* final_tags.append(series["release"]) *)
  final_tags ++ [s_release series].

Definition build_item_properties (goal : Goal) (target : Target)
    (indicator : Indicator) (series : Series) (goal_metadata : GoalMeta)
  : Props :=
  let title :=
    (indicator_name indicator ++ " (" ++ s_code series ++ "): "
       ++ s_description series)%string in
  let series' := default_description series in
  let description :=
    ("<p><strong>Series " ++ s_code series' ++ ": </strong>"
       ++ s_description series' ++ "</p>"
       ++ indicator_description goal target indicator
       ++ "<p><strong>Release Version</strong>: " ++ s_release series')%string in
  mkProps title (series_snippet series) description
          (final_tags goal target indicator series' goal_metadata)
          None None.

Definition open_data_sharing : Sharing :=
  mkSharing true true open_data_group_id false.

(** The [try] block around the publication of a series has two statements.
    The first one binds [online_item]. *)
Definition resolve_online_item (F : Filters) (indicator : Indicator)
    (series : Series) (item_properties : Props) (thumbnail : string)
  : M (option nat) :=
  if property_update_only F then
    found <- find_online_item (p_title item_properties) ;;
    match found with
    | None => failed_series_append (s_code series) ;; ret None
    | Some item =>
        item_update item item_properties thumbnail None ;;
        ret (Some item)
    end
  else publish_csv indicator series item_properties thumbnail.

(** The second one shares the item, or records the series as failed. *)
Definition share_or_record (series : Series) (online_item : option nat)
  : M unit :=
  match online_item with
  | Some item =>
      output (Displayed item) ;;
      item_share item open_data_sharing ;;
      group_update_tags [s_code series]
  | None => failed_series_append (s_code series)
  end.

Definition publish_or_update (F : Filters) (indicator : Indicator)
    (series : Series) (item_properties : Props) (thumbnail : string)
  : M unit :=
  online_item <-
    resolve_online_item F indicator series item_properties thumbnail ;;
  share_or_record series online_item.

Definition process_series (F : Filters) (goal : Goal) (target : Target)
    (indicator : Indicator) (goal_metadata : GoalMeta) (thumbnail : string)
    (series : Series) : M Completion :=
  if truthy (indicator_code F)
     && negb (str_eq_val (s_code series) (series_code F)
              || is_none (series_code F))
  then ret Normal
  else
    let item_properties :=
      build_item_properties goal target indicator series goal_metadata in
    let series := default_description series in
    output (PrintedProcessing (i_code indicator) (s_code series)) ;;
    try_except
      (publish_or_update F indicator series item_properties thumbnail ;;
       ret Normal)
      (fun e =>
         output (Traceback e) ;;
         output (PrintedFailed (i_code indicator) (s_code series)) ;;
         failed_series_append (s_code series) ;;
         ret Returned).

Definition process_indicator (F : Filters) (goal : Goal) (target : Target)
    (goal_metadata : GoalMeta) (thumbnail : string) (indicator : Indicator)
  : M Completion :=
  if truthy (indicator_code F)
     && negb (str_eq_val (i_code indicator) (indicator_code F))
  then ret Normal
  else
    group_update_tags (indicator_tags indicator) ;;
    for_each (process_series F goal target indicator goal_metadata thumbnail)
             (i_series indicator).

Definition process_target (F : Filters) (goal : Goal)
    (goal_metadata : GoalMeta) (thumbnail : string) (target : Target)
  : M Completion :=
  skip <- int_code_differs (t_code target) (target_code F) ;;
  if skip then ret Normal
  else
    group_update_tags (target_tags target) ;;
    for_each (process_indicator F goal target goal_metadata thumbnail)
             (t_indicators target).

(** One iteration of the loop over the goals; the second component is the
    value of the local variable [goal_metadata] after it. *)
Definition process_goal (F : Filters) (sdg_metadata : option (list GoalMeta))
    (goal_metadata : option GoalMeta) (goal : Goal)
  : M (Completion * option GoalMeta) :=
  skip <- int_code_differs (g_code goal) (goal_code F) ;;
  if skip then ret (Normal, goal_metadata)
  else
    match sdg_metadata with
    | None => raise TypeError
    | Some records =>
        goal_metadata <-
          find_goal_metadata records (g_code goal) goal_metadata ;;
        match goal_metadata with
        | None => raise (UnboundLocalError "goal_metadata")
        | Some gm =>
            c <- for_each (process_target F goal gm (goal_thumbnail gm))
                          (g_targets goal) ;;
            ret (c, goal_metadata)
        end
    end.

Fixpoint process_goals (F : Filters) (sdg_metadata : option (list GoalMeta))
    (goal_metadata : option GoalMeta) (json_data : list Goal)
  : M Completion :=
  match json_data with
  | [] => ret Normal
  | goal :: rest =>
      r <- process_goal F sdg_metadata goal_metadata goal ;;
      match fst r with
      | Normal => process_goals F sdg_metadata (snd r) rest
      | Returned => ret Returned
      end
  end.

Definition process_sdg_information (F : Filters) (json_data : list Goal)
  : M unit :=
  try_except
    (sdg_metadata <- get_metadata ;;
     process_goals F sdg_metadata None json_data ;;
     ret tt)
    (fun e => output (Traceback e)).

End Script.

(** * The vocabulary of the properties *)

(** ** Parts of the series step *)

(** The series is selected by the filters. *)
Definition series_selected (F : Filters) (series : Series) : Prop :=
  truthy (indicator_code F)
  && negb (str_eq_val (s_code series) (series_code F)
           || is_none (series_code F)) = false.

(** The state in which the [try] block of a series starts: the progress
    line has been printed. *)
Definition announced (indicator : Indicator) (series : Series) (w : World)
  : World :=
  set_console
    (console w ++ [PrintedProcessing (i_code indicator) (s_code series)]) w.

(** What the block's handler does with an exception. *)
Definition series_handler (indicator : Indicator) (series : Series) (e : Exn)
  : M Completion :=
  output (Traceback e) ;;
  output (PrintedFailed (i_code indicator) (s_code series)) ;;
  failed_series_append (s_code series) ;;
  ret Returned.

(** The card as the update and the sharing leave it on an item. *)
Definition card_applied (goal : Goal) (target : Target)
    (indicator : Indicator) (gm : GoalMeta) (thumbnail : string)
    (series : Series) (it : Item) : Item :=
  let props := build_item_properties goal target indicator series gm in
  mkItem (it_id it) (p_title props) (p_snippet props) (p_description props)
         (p_tags props) (it_type it) (it_url it) thumbnail (it_data it)
         (it_ownerFolder it) (Some open_data_sharing).

(** The goal's record in a display-metadata list: the first one whose goal
    number is the numeric goal code. *)
Definition goal_record (records : list GoalMeta) (n : Z) : option GoalMeta :=
  find (fun r => (gm_goal r =? n)%Z) records.

(** ** The taxonomy tags as the specification words them *)

(** A series record of the display metadata with the codes it is filed
    under. *)
Record TagRecord := mkTagRecord {
  tr_target : string;
  tr_indicator : string;
  tr_series : string;
  tr_tags : list string }.

(** The series records of a goal's display metadata, in document order. *)
Definition tag_records (goal_metadata : GoalMeta) : list TagRecord :=
  flat_map
    (fun t =>
       flat_map
         (fun i =>
            map (fun s => mkTagRecord (mt_target t) (mi_indicator i)
                                      (ms_series s) (ms_tags s))
                (mi_series i))
         (mt_indicators t))
    (gm_targets goal_metadata).

Definition filed_under (target_code indicator_code series_code : string)
    (r : TagRecord) : bool :=
  (tr_target r =? target_code) && (tr_indicator r =? indicator_code)
  && (tr_series r =? series_code).

(** [taxonomyTags(goal, target, indicator, series)]: the tags of the first
    record of the goal's display metadata that is filed under the codes of
    the target, the indicator and the series; no tag when there is none. *)
Definition taxonomy_tags (goal_metadata : GoalMeta) (target : Target)
    (indicator : Indicator) (series : Series) : list string :=
  match find (filed_under (t_code target) (i_code indicator) (s_code series))
             (tag_records goal_metadata) with
  | Some r => tr_tags r
  | None => []
  end.

(** The series for which the walk printed a progress line, in order. *)
Definition processed_series (w : World) : list string :=
  flat_map (fun o => match o with
                     | PrintedProcessing _ series => [series]
                     | _ => []
                     end) (console w).

(** ** Field aliases as the specification words them *)

Definition field_alias_table : list (string * string) :=
  [ ("series_release", "Series Release");
    ("series_code", "Series Code");
    ("series_description", "Series Description");
    ("geoAreaCode", "Geographic Area Code");
    ("geoAreaName", "Geographic Area Name");
    ("Freq", "Frequency");
    ("latest_year", "Latest Year");
    ("latest_value", "Latest Value");
    ("latest_source", "Latest Source");
    ("latest_nature", "Latest Nature");
    ("last_5_years_mean", "Mean of the Last 5 Years");
    ("ISO3CD", "ISO3 Code") ].

Fixpoint table_lookup (name : string) (table : list (string * string))
  : option string :=
  match table with
  | [] => None
  | (k, v) :: rest => if name =? k then Some v else table_lookup name rest
  end.

(** The alias as the specification words it: the table, and by default the
    name in title case with underscores replaced by spaces. *)
Definition spec_field_alias (field_name : string) : string :=
  match table_lookup field_name field_alias_table with
  | Some alias => alias
  | None => PyStr.replace "_" " " (PyStr.title field_name)
  end.

(** ** Relations between the state before and after *)

(** Every run of [m] relates the state before to the state after. *)
Definition preserves (R : World -> World -> Prop) {A} (m : M A) : Prop :=
  forall w, R w (snd (m w)).

(** The group's tag list after is the tag list before with tags appended. *)
Definition group_tags_grow (w w' : World) : Prop :=
  exists added, group_tags w' = group_tags w ++ added.

(** Operations that do not write the group. *)
Definition same_group_tags (w w' : World) : Prop :=
  group_tags w' = group_tags w.

Definition keeps_group_tags {A} (m : M A) : Prop :=
  preserves same_group_tags m.

(** At most one append of the tag [c]. *)
Definition appends_at_most (c : string) {A} (m : M A) : Prop :=
  forall w,
    group_tags (snd (m w)) = group_tags w \/
    group_tags (snd (m w)) = group_tags w ++ [c].

(** Nothing but the console and the request counter differs. *)
Definition only_console_and_calls (w w' : World) : Prop :=
  items w' = items w /\ next_id w' = next_id w /\
  group_tags w' = group_tags w /\ files w' = files w /\
  display_metadata w' = display_metadata w /\
  failed_series w' = failed_series w /\ faults w' = faults w.

(** An item is kept: same identity, file, folder, type and address. *)
Definition item_kept (it it' : Item) : Prop :=
  it_id it' = it_id it /\ it_data it' = it_data it /\
  it_ownerFolder it' = it_ownerFolder it /\
  it_type it' = it_type it /\ it_url it' = it_url it.

(** No item is created or deleted, and every item is kept. *)
Definition catalog_kept (w w' : World) : Prop :=
  Forall2 item_kept (items w) (items w') /\ next_id w' = next_id w.

(** Only the descriptive metadata and the thumbnail of an item may differ:
    its identity, file, folder, type, address and sharing are as before. *)
Definition descriptive_update (it it' : Item) : Prop :=
  item_kept it it' /\ it_sharing it' = it_sharing it.

(** An update in place of descriptive metadata and thumbnails and of nothing
    else: no item is created or deleted, and the group is as before. *)
Definition only_descriptive_updates (w w' : World) : Prop :=
  Forall2 descriptive_update (items w) (items w') /\
  group_tags w' = group_tags w.

Definition no_failure_line (lines : list Output) : Prop :=
  forall i s, ~ In (PrintedFailed i s) lines.

(** The console grew, and no failure line was printed. *)
Definition quietly (w w' : World) : Prop :=
  exists added, console w' = console w ++ added /\ no_failure_line added.

(** The console grew, and the one failure line, with its traceback, is the
    last thing on it; the series it names is the last entry of the ledger. *)
Definition failure_last (w w' : World) : Prop :=
  exists pre e i s ledger,
    console w' = console w ++ pre ++ [Traceback e; PrintedFailed i s] /\
    no_failure_line pre /\
    failed_series w' = ledger ++ [s].

(** A computation that ends with [Returned] has printed the failure line
    last; one that ends otherwise has printed none. *)
Definition fails_fast_by {A} (completion : A -> Completion) (m : M A)
  : Prop :=
  forall w,
    match fst (m w) with
    | Ok a =>
        match completion a with
        | Returned => failure_last w (snd (m w))
        | Normal => quietly w (snd (m w))
        end
    | Raise _ => quietly w (snd (m w))
    end.

Definition fails_fast (m : M Completion) : Prop :=
  fails_fast_by (fun c => c) m.

(** ** The thumbnails and the titles of the catalog *)

(** Every item of the catalog afterwards carries [thumbnail], or it is an
    item of the catalog before, with the thumbnail it had. *)
Definition thumbnails_from (thumbnail : string) (w w' : World) : Prop :=
  forall it',
    In it' (items w') ->
    it_thumbnail it' = thumbnail \/
    exists it,
      In it (items w) /\ it_id it = it_id it' /\
      it_thumbnail it = it_thumbnail it'.

(** Every item with the identity [item] carries [thumbnail]. *)
Definition wears (thumbnail : string) (item : nat) (w : World) : Prop :=
  forall it, In it (items w) -> it_id it = item -> it_thumbnail it = thumbnail.

(** What a search sees of the catalog: identities and titles. *)
Definition listing (w : World) : list (nat * string) :=
  map (fun it => (it_id it, it_title it)) (items w).

(** The answer of the exact-title search over a listing. *)
Definition listed (title_matches : string -> string -> bool) (title : string)
    (L : list (nat * string)) : option nat :=
  first_exact_title title (filter (fun p => title_matches title (snd p)) L).

(** No fault is scheduled, and the catalog shows the listing [L], in which no
    identity occurs twice. *)
Definition settled (L : list (nat * string)) (w : World) : Prop :=
  faults w = [] /\ listing w = L /\ NoDup (map fst L).

(** The item that the search for the card of a series answers with. *)
Definition series_hit (title_matches : string -> string -> bool)
    (L : list (nat * string)) (goal : Goal) (target : Target)
    (indicator : Indicator) (gm : GoalMeta) (series : Series) (item : nat)
  : Prop :=
  listed title_matches
    (p_title (build_item_properties goal target indicator series gm)) L
  = Some item.

Definition indicator_hit (title_matches : string -> string -> bool)
    (L : list (nat * string)) (goal : Goal) (target : Target) (gm : GoalMeta)
    (indicator : Indicator) (item : nat) : Prop :=
  exists series,
    In series (i_series indicator) /\
    series_hit title_matches L goal target indicator gm series item.

Definition target_hit (title_matches : string -> string -> bool)
    (L : list (nat * string)) (goal : Goal) (gm : GoalMeta) (target : Target)
    (item : nat) : Prop :=
  exists indicator,
    In indicator (t_indicators target) /\
    indicator_hit title_matches L goal target gm indicator item.

(** The tags that the metadata-only walk appends to the group's tags: the
    code of a series whose item the search finds, after the tag of its
    indicator, after the tag of its target. *)
Definition series_group_tags (title_matches : string -> string -> bool)
    (L : list (nat * string)) (goal : Goal) (target : Target)
    (indicator : Indicator) (gm : GoalMeta) (series : Series) : list string :=
  match listed title_matches
          (p_title (build_item_properties goal target indicator series gm)) L
  with
  | Some _ => [s_code series]
  | None => []
  end.

Definition indicator_group_tags (title_matches : string -> string -> bool)
    (L : list (nat * string)) (goal : Goal) (target : Target) (gm : GoalMeta)
    (indicator : Indicator) : list string :=
  [("Indicator " ++ i_code indicator)%string]
    ++ flat_map (series_group_tags title_matches L goal target indicator gm)
                (i_series indicator).

Definition target_group_tags (title_matches : string -> string -> bool)
    (L : list (nat * string)) (goal : Goal) (gm : GoalMeta) (target : Target)
  : list string :=
  [("Target " ++ t_code target)%string]
    ++ flat_map (indicator_group_tags title_matches L goal target gm)
                (t_indicators target).

Definition goal_group_tags (title_matches : string -> string -> bool)
    (L : list (nat * string)) (records : list GoalMeta) (goal : Goal)
  : list string :=
  match PyStr.to_int (g_code goal) with
  | Some n =>
      match goal_record records n with
      | Some r =>
          flat_map (target_group_tags title_matches L goal r) (g_targets goal)
      | None => []
      end
  | None => []
  end.

Definition run_group_tags (title_matches : string -> string -> bool)
    (L : list (nat * string)) (records : list GoalMeta)
    (json_data : list Goal) : list string :=
  flat_map (goal_group_tags title_matches L records) json_data.

(** Started in a state settled on [L], a loop body ends normally in such a
    state; it has appended [codes] to the group's tags, the only thumbnail it
    has written is [thumbnail], and every item in [hit] carries it. *)
Definition settles (L : list (nat * string)) (thumbnail : string)
    (codes : list string) (hit : nat -> Prop) (m : M Completion) : Prop :=
  forall w,
    settled L w ->
    fst (m w) = Ok Normal /\ settled L (snd (m w)) /\
    group_tags (snd (m w)) = group_tags w ++ codes /\
    thumbnails_from thumbnail w (snd (m w)) /\
    (forall item, hit item -> wears thumbnail item (snd (m w))).

(** ** A small taxonomy to run the script on *)

Module Example.

Definition poverty_day : Series :=
  mkSeries "SI_POV_DAY1"
    "Proportion of population below international poverty line (%)"
    "2020.1".

Definition poverty_emp : Series :=
  mkSeries "SI_POV_EMP1" "" "2020.1".

Definition hunger : Series :=
  mkSeries "SN_ITK_DEFC" "Prevalence of undernourishment (%)" "2020.1".

Definition indicator_1_1_1 : Indicator :=
  mkIndicator "1.1.1" "Proportion of population below the poverty line"
              [poverty_day; poverty_emp].

Definition target_1_1 : Target :=
  mkTarget "1.1" "Eradicate extreme poverty" [indicator_1_1_1].

Definition goal_1 : Goal :=
  mkGoal "1" "No poverty" "End poverty in all its forms everywhere"
         [target_1_1].

Definition indicator_2_1_1 : Indicator :=
  mkIndicator "2.1.1" "Prevalence of undernourishment" [hunger].

Definition target_2_1 : Target :=
  mkTarget "2.1" "End hunger" [indicator_2_1_1].

Definition goal_2 : Goal :=
  mkGoal "2" "Zero hunger" "End hunger" [target_2_1].

Definition json_data : list Goal := [goal_1; goal_2].

(** Display metadata that knows goal 1 only. *)
Definition meta_1 : GoalMeta :=
  mkGoalMeta 1 (Some "https://example.org/goal-1.png")
    [mkMTarget "1.1"
       [mkMIndicator "1.1.1"
          [mkMSeries "SI_POV_DAY1" ["poverty"; "SDG 1"]]]].

Definition csv_columns : list Field :=
  [ mkField "geoAreaName" "" "esriFieldTypeString" "sqlTypeNVarchar";
    mkField "indicator" "" "esriFieldTypeDate" "sqlTypeOther";
    mkField "time_detail" "" "esriFieldTypeString" "sqlTypeNVarchar" ].

(** An empty catalog, the data file of one series, no failing request. *)
Definition fresh : World :=
  mkWorld [] 0 ["Open Data"]
    [("FIS4SDGs/csv/SI_POV_DAY1_cube.pivot.csv", csv_columns)]
    (Some [meta_1]) [] [] 0 [].

Definition no_filter (update_only : bool) : Filters :=
  mkFilters PyNone PyNone PyNone PyNone update_only.

Definition card (series : Series) : Props :=
  build_item_properties goal_1 target_1_1 indicator_1_1_1 series meta_1.

(** An item that carries the card title of a series. *)
Definition service_item (id : nat) (goal : Goal) (target : Target)
    (indicator : Indicator) (series : Series) : Item :=
  mkItem id
    (p_title (build_item_properties goal target indicator series meta_1))
    "" "" [] "Feature Service" "" "" None (Some "Open Data") None.

(** A catalog that holds the service of the first series; [broken] lists
    the requests that fail. *)
Definition published (broken : list nat) : World :=
  mkWorld [service_item 0 goal_1 target_1_1 indicator_1_1_1 poverty_day]
    1 ["Open Data"] [] (Some [meta_1]) [] [] 0 broken.

End Example.

(** * The vocabulary of the further properties *)

(** A series record of the goal's display metadata that is reached through
    the three codes and carries [tags]. *)
Definition tag_path (goal_metadata : GoalMeta)
    (indicator_code target_code series_code : string) (tags : list string)
  : Prop :=
  exists t i s,
    In t (gm_targets goal_metadata) /\ mt_target t = target_code /\
    In i (mt_indicators t) /\ mi_indicator i = indicator_code /\
    In s (mi_series i) /\ ms_series s = series_code /\
    ms_tags s = tags.

(** The series codes of a taxonomy, in document order. *)
Definition indicator_series_codes (indicator : Indicator) : list string :=
  map s_code (i_series indicator).

Definition target_series_codes (target : Target) : list string :=
  flat_map indicator_series_codes (t_indicators target).

Definition goal_series_codes (goal : Goal) : list string :=
  flat_map target_series_codes (g_targets goal).

Definition all_series_codes (json_data : list Goal) : list string :=
  flat_map goal_series_codes json_data.

(** The identities of the catalog's items, in catalog order. *)
Definition item_ids (w : World) : list nat := map it_id (items w).

(** The next request does not fail. *)
Definition request_succeeds (w : World) : Prop :=
  existsb (Nat.eqb (calls w)) (faults w) = false.

(** The answer of the exact-title search over a catalog when the request
    succeeds. *)
Definition exact_title_hit (title_matches : string -> string -> bool)
    (title : string) (catalog : list Item) : option nat :=
  first_exact_title title
    (map (fun it => (it_id it, it_title it))
         (filter (fun it => title_matches title (it_title it)) catalog)).

(** The ledger after is the ledger before with codes appended. *)
Definition ledger_grows (w w' : World) : Prop :=
  exists added, failed_series w' = failed_series w ++ added.

(** No item is deleted or moved in the catalog order; items may be added at
    the end. *)
Definition never_deletes (w w' : World) : Prop :=
  exists added, item_ids w' = item_ids w ++ added.

(** The same items, in the same order. *)
Definition same_item_ids (w w' : World) : Prop :=
  item_ids w' = item_ids w.

(** The fault schedule and the progress lines are as before. *)
Definition steady (w w' : World) : Prop :=
  faults w' = faults w /\ processed_series w' = processed_series w.

(** Started without scheduled faults, [m] ends without an exception. *)
Definition safe {A} (m : M A) : Prop :=
  forall w, faults w = [] ->
    (exists a, fst (m w) = Ok a) /\ steady w (snd (m w)).

(** Started without scheduled faults, a loop body ends normally and has
    printed the progress lines of [codes], and no other. *)
Definition visits (codes : list string) (m : M Completion) : Prop :=
  forall w, faults w = [] ->
    fst (m w) = Ok Normal /\ faults (snd (m w)) = [] /\
    processed_series (snd (m w)) = processed_series w ++ codes.

(** Started in a state that satisfies [Inv], a loop body ends normally in
    such a state and has appended [codes] to the list [obs]. *)
Definition passes (Inv : World -> Prop) (obs : World -> list string)
    (codes : list string) (m : M Completion) : Prop :=
  forall w, Inv w ->
    fst (m w) = Ok Normal /\ Inv (snd (m w)) /\
    obs (snd (m w)) = obs w ++ codes.

(** No fault is scheduled, no data file exists, and the catalog holds
    [catalog]. *)
Definition bare (catalog : list Item) (w : World) : Prop :=
  faults w = [] /\ files w = [] /\ items w = catalog.

(** The goals that a numeric goal filter selects. *)
Definition goal_has_number (n : Z) (goal : Goal) : bool :=
  match PyStr.to_int (g_code goal) with
  | Some m => (m =? n)%Z
  | None => false
  end.

(** The card is on an item. *)
Definition carries_card (props : Props) (thumbnail : string) (it : Item)
  : Prop :=
  it_title it = p_title props /\ it_snippet it = p_snippet props /\
  it_description it = p_description props /\ it_tags it = p_tags props /\
  it_thumbnail it = thumbnail.

(** The ledger and the console only grow, and requests are only counted
    up. *)
Definition log_grows (w w' : World) : Prop :=
  ledger_grows w w' /\
  (exists lines, console w' = console w ++ lines) /\
  calls w <= calls w'.

(** A line that is neither a progress line nor a failure line. *)
Definition plain_line (o : Output) : Prop :=
  (forall i s, o <> PrintedProcessing i s) /\
  (forall i s, o <> PrintedFailed i s).

(** * The maintenance functions *)

(** A [for] loop whose body neither returns nor continues early. *)
Fixpoint for_all {A} (body : A -> M unit) (l : list A) : M unit :=
  match l with
  | [] => ret tt
  | x :: l' => body x ;; for_all body l'
  end.

(** The item is filed in [folder]. *)
Definition in_folder (folder : string) (it : Item) : bool :=
  match it_ownerFolder it with
  | Some f => f =? folder
  | None => false
  end.

(** [gis.users.get(online_username)]: the signed-in user. *)
Definition users_get_self : M unit := remote (ret tt).

(** [gis.users.get(name)] for another user; [directory] lists the other
    users of the organization, and an unknown name gives [None]. *)
Definition users_get (directory : list string) (name : string)
  : M (option string) :=
  remote (fun w =>
    (Ok (if existsb (String.eqb name) directory then Some name else None),
     w)).

(** [user.items(folder=folder, max_items=max_items)]: handles with the titles
    they carry. *)
Definition user_items (folder : string) (max_items : nat)
  : M (list (nat * string)) :=
  remote (fun w =>
    (Ok (firstn max_items
           (map (fun it => (it_id it, it_title it))
                (filter (in_folder folder) (items w)))), w)).

Definition remove_item (id : nat) (l : list Item) : list Item :=
  filter (fun it => negb (it_id it =? id)%nat) l.

(** [item.delete()] *)
Definition item_delete (id : nat) : M unit :=
  remote (fun w => (Ok tt, set_items (remove_item id (items w)) w)).

(** [item.reassign_to(user, folder)]: the item leaves the content of the
    signed-in user, which is what the catalog of [World] holds. *)
Definition item_reassign_to (id : nat) (user folder : string) : M unit :=
  remote (fun w => (Ok tt, set_items (remove_item id (items w)) w)).

Definition cleanup_site : M unit :=
  users_get_self ;;
  user_items <- user_items "Open Data" 800 ;;
  for_all (fun item =>
             print ("deleting item " ++ snd item) ;;
             item_delete (fst item))
          user_items.

Definition reassign_to_admin (directory : list string) : M unit :=
  users_get_self ;;
  admin_user <- users_get directory "unstats_admin" ;;
  match admin_user with
  | None => ret tt
  | Some username =>
      user_items <- user_items "Open Data" 800 ;;
      for_all (fun item =>
                 print ("reassigning item " ++ snd item ++ " to admin user") ;;
                 item_reassign_to (fst item) username "Open Data")
              user_items
  end.

(** ** create_group *)

(** The dictionary [group_goal_properties] that the walk builds for a
    goal. *)
Record GroupInfo := mkGroupInfo {
  gi_title : string;
  gi_snippet : string;
  gi_description : string;
  gi_tags : list string;
  gi_thumbnail : string }.

Definition group_goal_properties (goal : Goal) (thumbnail : string)
  : GroupInfo :=
  let title := ("SDG " ++ g_code goal)%string in
  mkGroupInfo title (g_title goal) (g_description goal) [title] thumbnail.

(** The tags of a group as they were passed: a comma-separated text or a
    list. *)
Inductive TagsValue : Type :=
| TagsText (text : string)
| TagsList (tags : list string).

Record Group := mkGroup {
  gr_id : nat;
  gr_title : string;
  gr_snippet : string;
  gr_description : string;
  gr_tags : TagsValue;
  gr_thumbnail : string;
  gr_access : string;
  gr_isOpenData : bool;
  gr_isInvitationOnly : bool;
  gr_protected : bool }.

(** [gis.groups.search(query)] for the fixed title of the query. *)
Definition groups_search (title_matches : string -> string -> bool)
    (title : string) (groups : list Group) : M (list (nat * string)) :=
  remote (ret (map (fun g => (gr_id g, gr_title g))
                   (filter (fun g => title_matches title (gr_title g))
                           groups))).

(** The group that [create_from_dict] makes of [item_properties]. *)
Definition new_group (id : nat) (group_info : GroupInfo) : Group :=
  mkGroup id (gi_title group_info) (gi_snippet group_info)
          (gi_description group_info)
          (TagsText (gi_title group_info ++ ", " ++ "Open Data" ++ ", "
                       ++ "Hub"))
          (gi_thumbnail group_info) "public" true true true.

(** [gis.groups.create_from_dict(item_properties)]; the groups of the
    organization are passed along with the result. *)
Definition groups_create (group_info : GroupInfo) (groups : list Group)
  : M (nat * list Group) :=
  remote (fun w =>
    let id := next_id w in
    (Ok (id, groups ++ [new_group id group_info]), set_next_id (S id) w)).

(** What [search_result.update(...)] leaves of a group. *)
Definition updated_group (group_info : GroupInfo) (g : Group) : Group :=
  mkGroup (gr_id g) (gi_title group_info) (gi_snippet group_info)
          (gi_description group_info) (TagsList (gi_tags group_info))
          (gi_thumbnail group_info) "Public" (gr_isOpenData g)
          (gr_isInvitationOnly g) (gr_protected g).

Definition group_update (id : nat) (group_info : GroupInfo)
    (groups : list Group) : M (list Group) :=
  remote (ret (map (fun g => if (gr_id g =? id)%nat
                             then updated_group group_info g else g)
                   groups)).

Definition create_group (title_matches : string -> string -> bool)
    (group_info : GroupInfo) (groups : list Group)
  : M (option nat * list Group) :=
  try_except
    (search_results <- groups_search title_matches "SDG Open Data" groups ;;
     let create :=
       created <- groups_create group_info groups ;;
       output (Displayed (fst created)) ;;
       ret (Some (fst created), snd created) in
     match search_results with
     | [] => create
     | _ :: _ =>
         match first_exact_title (gi_title group_info) search_results with
         | Some id =>
             groups' <- group_update id group_info groups ;;
             ret (Some id, groups')
         | None => create
         end
     end)
    (fun e => output (Traceback e) ;; ret (None, groups)).

(** ** The vocabulary of their properties *)

(** The items that may not be touched: those outside the folder. *)
Definition kept_outside (folder : string) (before after : list Item) : Prop :=
  forall it, In it before -> in_folder folder it = false -> In it after.

(** Nothing is added to the catalog. *)
Definition nothing_added (before after : list Item) : Prop :=
  forall it, In it after -> In it before.

(** * Properties *)

(** ** Strings *)

Lemma length_app_string (a b : string) :
  String.length (a ++ b) = String.length a + String.length b.
Proof.
  induction a as [|c a IH]; simpl; [reflexivity | now rewrite IH].
Qed.

Lemma take_length (n : nat) (s : string) :
  String.length (PyStr.take n s) = Nat.min n (String.length s).
Proof.
  revert s; induction n as [|n IH]; intros [|c s]; simpl; auto.
Qed.

Lemma default_description_code (series : Series) :
  s_code (default_description series) = s_code series.
Proof.
  unfold default_description; now destruct (s_description series =? "").
Qed.

Lemma default_description_release (series : Series) :
  s_release (default_description series) = s_release series.
Proof.
  unfold default_description; now destruct (s_description series =? "").
Qed.

Lemma default_description_description (series : Series) :
  s_description (default_description series) =
  if s_description series =? "" then s_code series else s_description series.
Proof.
  unfold default_description; now destruct (s_description series =? "").
Qed.

Lemma truncate_snippet_cases (text : string) :
  (String.length text <= 250 /\ truncate_snippet text = text) \/
  (250 < String.length text /\
   truncate_snippet text = (PyStr.take 250 text ++ "..")%string /\
   String.length (truncate_snippet text) = 252).
Proof.
  unfold truncate_snippet.
  destruct (250 <? String.length text)%nat eqn:E.
  - apply Nat.ltb_lt in E. right. repeat split; trivial.
    rewrite length_app_string, take_length.
    rewrite Nat.min_l by lia. reflexivity.
  - apply Nat.ltb_ge in E. left. split; trivial.
Qed.

(** ** C4: the snippet *)

(** C4, as stated, fails: a series whose description is empty gets the
    snippet ["{code}: {code}"], not ["{code}: {description}"], although the
    latter is far shorter than 250 characters. *)
Lemma snippet_of_empty_description :
  let series := mkSeries "SI_POV_DAY1" "" "2020.1" in
  let text := (s_code series ++ ": " ++ s_description series)%string in
  String.length text <= 250 /\
  series_snippet series = "SI_POV_DAY1: SI_POV_DAY1" /\
  series_snippet series <> text.
Proof.
  cbv zeta. split; [vm_compute; lia|]. split; [reflexivity|].
  vm_compute. discriminate.
Qed.

(** C4 (amended): let [d] be the series description, or the series code when
    the description is empty.  The snippet is ["{code}: {d}"] when that text
    has at most 250 characters, and otherwise its first 250 characters
    followed by [".."]; it never has more than 252 characters, and the item
    card of the series carries exactly this snippet. *)
Theorem snippet_truncation (series : Series) :
  let d := if s_description series =? "" then s_code series
           else s_description series in
  let text := (s_code series ++ ": " ++ d)%string in
  ((String.length text <= 250 /\ series_snippet series = text) \/
   (250 < String.length text /\
    series_snippet series = (PyStr.take 250 text ++ "..")%string /\
    String.length (series_snippet series) = 252)) /\
  String.length (series_snippet series) <= 252 /\
  (forall goal target indicator goal_metadata,
     p_snippet (build_item_properties goal target indicator series
                                      goal_metadata)
     = series_snippet series).
Proof.
  cbv zeta.
  assert (E : series_snippet series =
              truncate_snippet
                (s_code series ++ ": " ++
                 (if s_description series =? "" then s_code series
                  else s_description series))%string).
  { unfold series_snippet.
    now rewrite default_description_code, default_description_description. }
  rewrite E.
  pose proof (truncate_snippet_cases
                (s_code series ++ ": " ++
                 (if s_description series =? "" then s_code series
                  else s_description series))%string) as C.
  split; [exact C|].
  split; [|intros; unfold build_item_properties; cbn [p_snippet]; exact E].
  destruct C as [[L E1] | [_ [_ E2]]]; [rewrite E1 | rewrite E2]; lia.
Qed.

(** ** C5: the tags of an item card *)

Lemma count_occ_app_string (l1 l2 : list string) (x : string) :
  count_occ string_dec (l1 ++ l2) x =
  count_occ string_dec l1 x + count_occ string_dec l2 x.
Proof. apply count_occ_app. Qed.

Lemma find_app_first {A} (p : A -> bool) (l1 l2 : list A) :
  find p (l1 ++ l2)
  = match find p l1 with Some x => Some x | None => find p l2 end.
Proof.
  induction l1 as [|x l1 IH]; cbn [app find]; [reflexivity|].
  destruct (p x); [reflexivity | exact IH].
Qed.

(** The three nested loops of [get_series_tags] find the first record of the
    flattened display metadata that is filed under the three codes. *)
Lemma series_tags_in_series_records t i l tc ic sc :
  option_map tr_tags
    (find (filed_under tc ic sc)
          (map (fun s => mkTagRecord t i (ms_series s) (ms_tags s)) l))
  = if (t =? tc) && (i =? ic) then series_tags_in_series l sc else None.
Proof.
  induction l as [|s l IH]; cbn [map find series_tags_in_series].
  - now destruct ((t =? tc) && (i =? ic)).
  - unfold filed_under at 1. cbn [tr_target tr_indicator tr_series].
    destruct ((t =? tc) && (i =? ic)); cbn [andb].
    + destruct (ms_series s =? sc); [reflexivity | exact IH].
    + exact IH.
Qed.

Lemma series_tags_in_indicators_records t l tc ic sc :
  option_map tr_tags
    (find (filed_under tc ic sc)
          (flat_map
             (fun i =>
                map (fun s => mkTagRecord t (mi_indicator i) (ms_series s)
                                          (ms_tags s))
                    (mi_series i)) l))
  = if t =? tc then series_tags_in_indicators l ic sc else None.
Proof.
  induction l as [|i l IH]; cbn [flat_map find series_tags_in_indicators].
  - now destruct (t =? tc).
  - rewrite find_app_first.
    pose proof (series_tags_in_series_records t (mi_indicator i)
                  (mi_series i) tc ic sc) as H.
    destruct (find (filed_under tc ic sc)
                (map (fun s => mkTagRecord t (mi_indicator i) (ms_series s)
                                           (ms_tags s))
                     (mi_series i))) as [r|]; cbn [option_map] in H |- *.
    + destruct (t =? tc); cbn [andb] in H; [|discriminate].
      destruct (mi_indicator i =? ic); [|discriminate].
      now rewrite <- H.
    + rewrite IH. destruct (t =? tc); cbn [andb] in H; [|reflexivity].
      destruct (mi_indicator i =? ic); [|reflexivity].
      now rewrite <- H.
Qed.

Lemma series_tags_in_targets_records l tc ic sc :
  option_map tr_tags
    (find (filed_under tc ic sc)
          (flat_map
             (fun t =>
                flat_map
                  (fun i =>
                     map (fun s => mkTagRecord (mt_target t) (mi_indicator i)
                                               (ms_series s) (ms_tags s))
                         (mi_series i))
                  (mt_indicators t)) l))
  = series_tags_in_targets l ic tc sc.
Proof.
  induction l as [|t l IH]; cbn [flat_map find series_tags_in_targets];
    [reflexivity|].
  rewrite find_app_first.
  pose proof (series_tags_in_indicators_records (mt_target t)
                (mt_indicators t) tc ic sc) as H.
  destruct (find (filed_under tc ic sc)
              (flat_map
                 (fun i =>
                    map (fun s => mkTagRecord (mt_target t) (mi_indicator i)
                                              (ms_series s) (ms_tags s))
                        (mi_series i))
                 (mt_indicators t))) as [r|]; cbn [option_map] in H |- *.
  - destruct (mt_target t =? tc); [|discriminate]. now rewrite <- H.
  - rewrite IH. destruct (mt_target t =? tc); [|reflexivity].
    now rewrite <- H.
Qed.

Lemma get_series_tags_taxonomy goal_metadata target indicator series :
  get_series_tags goal_metadata (i_code indicator) (t_code target)
                  (s_code series)
  = taxonomy_tags goal_metadata target indicator series.
Proof.
  unfold get_series_tags, taxonomy_tags, tag_records.
  rewrite <- series_tags_in_targets_records.
  now destruct (find _ _).
Qed.

(** C5: the tag list of the item card of a series is the goal tag, then the
    target tag, then the indicator tag, then the tags of the first record of
    the goal's display metadata that is filed under the target code, the
    indicator code and the series code (none when there is no such record),
    then the release version.  Nothing is dropped or merged: every tag occurs
    in the result as often as in the five parts together; and an item that is
    updated with the card carries exactly this list. *)
Theorem item_tags_concatenation (goal : Goal) (target : Target)
    (indicator : Indicator) (series : Series) (goal_metadata : GoalMeta) :
  let looked_up := taxonomy_tags goal_metadata target indicator series in
  let tags := p_tags (build_item_properties goal target indicator series
                                            goal_metadata) in
  tags = [("SDG " ++ g_code goal)%string]
           ++ [("Target " ++ t_code target)%string]
           ++ [("Indicator " ++ i_code indicator)%string]
           ++ looked_up ++ [s_release series] /\
  tags = goal_tags goal ++ target_tags target ++ indicator_tags indicator
           ++ looked_up ++ [s_release series] /\
  List.length tags = 3 + List.length looked_up + 1 /\
  (forall tag,
     count_occ string_dec tags tag =
     count_occ string_dec (goal_tags goal) tag
     + count_occ string_dec (target_tags target) tag
     + count_occ string_dec (indicator_tags indicator) tag
     + count_occ string_dec looked_up tag
     + count_occ string_dec [s_release series] tag) /\
  (forall thumbnail data it,
     it_tags (apply_update
                (build_item_properties goal target indicator series
                                       goal_metadata) thumbnail data it)
     = tags).
Proof.
  cbv zeta.
  assert (E : p_tags (build_item_properties goal target indicator series
                                            goal_metadata)
              = goal_tags goal ++ target_tags target
                  ++ indicator_tags indicator
                  ++ taxonomy_tags goal_metadata target indicator series
                  ++ [s_release series]).
  { unfold build_item_properties, final_tags; cbn [p_tags].
    rewrite default_description_code, default_description_release.
    rewrite get_series_tags_taxonomy. now rewrite <- !app_assoc. }
  rewrite E. split; [reflexivity|]. split; [reflexivity|].
  split; [|split].
  - rewrite !length_app. simpl. lia.
  - intro tag. rewrite !count_occ_app_string. lia.
  - intros thumbnail data it. cbn [apply_update it_tags]. exact E.
Qed.

(** ** C8: field aliases *)

(** C8, as stated, fails: the default is not title case.  Only the first
    character of the name is upper-cased, so the second word of an unlisted
    name stays in lower case. *)
Lemma alias_default_is_not_title_case :
  table_lookup "time_detail" field_alias_table = None /\
  set_field_alias "time_detail" = "Time detail" /\
  spec_field_alias "time_detail" = "Time Detail" /\
  set_field_alias "time_detail" <> spec_field_alias "time_detail".
Proof.
  repeat split; try reflexivity. vm_compute. discriminate.
Qed.

(** C8 (amended): [set_field_alias] returns the alias of the table for a
    listed name, and otherwise the name with its first character upper-cased,
    all other characters lower-cased, and underscores replaced by spaces. *)
Theorem set_field_alias_table_or_capitalize (field_name : string) :
  set_field_alias field_name =
  match table_lookup field_name field_alias_table with
  | Some alias => alias
  | None => PyStr.replace "_" " " (PyStr.capitalize field_name)
  end.
Proof.
  unfold set_field_alias, field_alias_table, table_lookup.
  repeat match goal with
         | |- context [field_name =? ?k] => destruct (field_name =? k)
         end; reflexivity.
Qed.

(** ** Relations that every step of a computation respects *)

Section Preservation.

Variable R : World -> World -> Prop.
Hypothesis R_refl : forall w, R w w.
Hypothesis R_trans : forall a b c, R a b -> R b c -> R a c.

Lemma preserves_ret {A} (a : A) : preserves R (ret a).
Proof. intro w; apply R_refl. Qed.

Lemma preserves_raise {A} (e : Exn) : preserves R (@raise A e).
Proof. intro w; apply R_refl. Qed.

Lemma preserves_bind {A B} (m : M A) (k : A -> M B) :
  preserves R m -> (forall a, preserves R (k a)) -> preserves R (bind m k).
Proof.
  intros Hm Hk w. unfold bind.
  specialize (Hm w). destruct (m w) as [[a|e] w1]; simpl in *.
  - eapply R_trans; [exact Hm | apply Hk].
  - exact Hm.
Qed.

Lemma preserves_try_except {A} (m : M A) (h : Exn -> M A) :
  preserves R m -> (forall e, preserves R (h e)) -> preserves R (try_except m h).
Proof.
  intros Hm Hh w. unfold try_except.
  specialize (Hm w). destruct (m w) as [[a|e] w1]; simpl in *.
  - exact Hm.
  - eapply R_trans; [exact Hm | apply Hh].
Qed.

Lemma preserves_for_each {A} (body : A -> M Completion) (l : list A) :
  (forall x, preserves R (body x)) -> preserves R (for_each body l).
Proof.
  intro Hb. induction l as [|x l IH]; simpl.
  - apply preserves_ret.
  - apply preserves_bind; [apply Hb|].
    intros [|]; [exact IH | apply preserves_ret].
Qed.

(** A catalog request respects [R] when the request counter is invisible
    to [R] and the operation itself respects it. *)
Lemma preserves_remote {A} (op : M A) :
  (forall w n, R w (set_calls n w)) -> preserves R op -> preserves R (remote op).
Proof.
  intros Hc Hop w. unfold remote.
  destruct (existsb (Nat.eqb (calls w)) (faults w)); simpl.
  - apply Hc.
  - eapply R_trans; [apply Hc | apply Hop].
Qed.

End Preservation.

(** Decompose a goal [preserves R m] along the structure of [m]; [leaf]
    closes the goals about the primitive operations and about [R]. *)
Ltac preserves_structure leaf :=
  repeat first
    [ solve [leaf]
    | progress cbv zeta
    | apply preserves_ret
    | apply preserves_raise
    | apply preserves_bind
    | apply preserves_try_except
    | apply preserves_for_each
    | match goal with
      | |- forall _, _ => intro
      | |- preserves _ (match ?x with _ => _ end) => destruct x
      end ].

(** ** C9: the tags of the open-data group *)

Lemma group_tags_grow_refl (w : World) : group_tags_grow w w.
Proof. exists []. now rewrite app_nil_r. Qed.

Lemma group_tags_grow_trans (a b c : World) :
  group_tags_grow a b -> group_tags_grow b c -> group_tags_grow a c.
Proof.
  intros [l1 H1] [l2 H2]. exists (l1 ++ l2).
  now rewrite H2, H1, app_assoc.
Qed.

Lemma group_tags_same (w w' : World) :
  group_tags w' = group_tags w -> group_tags_grow w w'.
Proof. intro H. exists []. now rewrite app_nil_r. Qed.

Lemma same_group_tags_refl (w : World) : same_group_tags w w.
Proof. reflexivity. Qed.

Lemma same_group_tags_trans (a b c : World) :
  same_group_tags a b -> same_group_tags b c -> same_group_tags a c.
Proof. unfold same_group_tags; congruence. Qed.

Lemma keeps_group_tags_preserves {A} (m : M A) :
  keeps_group_tags m -> preserves group_tags_grow m.
Proof. intros H w. apply group_tags_same, H. Qed.

Ltac keeps_tac :=
  intro w; unfold same_group_tags;
  cbv beta delta [remote bind ret raise]; simpl;
  repeat match goal with
         | |- context [match ?x with _ => _ end] => destruct x; simpl
         end;
  reflexivity.

Lemma keeps_output (o : Output) : keeps_group_tags (output o).
Proof. intro w; reflexivity. Qed.

Lemma keeps_failed_series_append (code : string) :
  keeps_group_tags (failed_series_append code).
Proof. intro w; reflexivity. Qed.

Lemma keeps_item_update id props thumbnail data :
  keeps_group_tags (item_update id props thumbnail data).
Proof. unfold item_update. keeps_tac. Qed.

Lemma keeps_item_move id folder : keeps_group_tags (item_move id folder).
Proof. unfold item_move. keeps_tac. Qed.

Lemma keeps_item_share id sh : keeps_group_tags (item_share id sh).
Proof. unfold item_share. keeps_tac. Qed.

Lemma keeps_content_add props thumbnail file :
  keeps_group_tags (content_add props thumbnail file).
Proof. unfold content_add. keeps_tac. Qed.

Lemma keeps_item_publish id pp : keeps_group_tags (item_publish id pp).
Proof. unfold item_publish. keeps_tac. Qed.

Lemma keeps_owner_folder id : keeps_group_tags (owner_folder id).
Proof. unfold owner_folder. keeps_tac. Qed.

Lemma keeps_isfile file : keeps_group_tags (isfile file).
Proof. intro w; reflexivity. Qed.

Lemma keeps_get_metadata : keeps_group_tags get_metadata.
Proof. intro w; reflexivity. Qed.

Lemma keeps_load_name locals name : keeps_group_tags (load_name locals name).
Proof. unfold load_name. keeps_tac. Qed.

Lemma keeps_content_search tm title :
  keeps_group_tags (content_search tm title).
Proof. unfold content_search. keeps_tac. Qed.

Lemma keeps_analyze_request id : keeps_group_tags (analyze_request id).
Proof. unfold analyze_request. keeps_tac. Qed.

Lemma keeps_int_code_differs code v :
  keeps_group_tags (int_code_differs code v).
Proof. unfold int_code_differs. keeps_tac. Qed.

Lemma keeps_find_goal_metadata md code cur :
  keeps_group_tags (find_goal_metadata md code cur).
Proof.
  induction md as [|r md IH]; intro w; simpl; [reflexivity|].
  destruct (PyStr.to_int code); [|reflexivity].
  destruct (gm_goal r =? z)%Z; [reflexivity | apply IH].
Qed.

(** One group update either fails and leaves the tags alone, or appends. *)
Lemma group_update_tags_appends (new_tags : list string) (w : World) :
  (exists w', group_update_tags new_tags w = (Raise RemoteError, w') /\
              group_tags w' = group_tags w) \/
  (exists w', group_update_tags new_tags w = (Ok tt, w') /\
              group_tags w' = group_tags w ++ new_tags).
Proof.
  unfold group_update_tags, remote.
  destruct (existsb (Nat.eqb (calls w)) (faults w)).
  - left. eexists; split; reflexivity.
  - right. eexists; split; reflexivity.
Qed.

Lemma grows_group_update_tags (new_tags : list string) :
  preserves group_tags_grow (group_update_tags new_tags).
Proof.
  intro w.
  destruct (group_update_tags_appends new_tags w) as [[w' [E H]]|[w' [E H]]];
    rewrite E; simpl.
  - now apply group_tags_same.
  - now exists new_tags.
Qed.

Create HintDb keeps discriminated.

#[local] Hint Resolve keeps_output keeps_failed_series_append
  keeps_item_update keeps_item_move keeps_item_share keeps_content_add
  keeps_item_publish keeps_owner_folder keeps_isfile keeps_get_metadata
  keeps_load_name keeps_content_search keeps_analyze_request
  keeps_int_code_differs keeps_find_goal_metadata : keeps.

Ltac keeps_leaf :=
  first [ exact same_group_tags_refl | exact same_group_tags_trans
        | solve [ match goal with
                  | |- preserves same_group_tags ?m =>
                      change (keeps_group_tags m)
                  end; auto with keeps ] ].

Ltac keeps_structure :=
  unfold keeps_group_tags; preserves_structure keeps_leaf.

Create HintDb grows discriminated.

#[local] Hint Resolve grows_group_update_tags : grows.
#[local] Hint Extern 1 (preserves group_tags_grow _) =>
  apply keeps_group_tags_preserves; solve [auto with keeps] : grows.

Ltac grows_leaf :=
  first [ exact group_tags_grow_refl | exact group_tags_grow_trans
        | solve [auto with grows] ].

Section GroupTags.

Variable title_matches : string -> string -> bool.

Lemma keeps_find_online_item title :
  keeps_group_tags (find_online_item title_matches title).
Proof. unfold find_online_item. keeps_structure. Qed.

Lemma keeps_analyze_csv id : keeps_group_tags (analyze_csv id).
Proof. unfold analyze_csv. keeps_structure. Qed.

Lemma keeps_move_to_open_data id message :
  keeps_group_tags (move_to_open_data id message).
Proof. unfold move_to_open_data, print. keeps_structure. Qed.

#[local] Hint Resolve keeps_find_online_item keeps_analyze_csv
  keeps_move_to_open_data : keeps.

Lemma keeps_publish_csv_finish csv_item csv_lyr props thumbnail :
  keeps_group_tags (publish_csv_finish csv_item csv_lyr props thumbnail).
Proof. unfold publish_csv_finish, print. keeps_structure. Qed.

#[local] Hint Resolve keeps_publish_csv_finish : keeps.

Lemma keeps_publish_csv indicator series props thumbnail :
  keeps_group_tags
    (publish_csv title_matches indicator series props thumbnail).
Proof. unfold publish_csv, print. keeps_structure. Qed.

#[local] Hint Resolve keeps_publish_csv : keeps.

Lemma grows_publish_or_update F indicator series props thumbnail :
  preserves group_tags_grow
    (publish_or_update title_matches F indicator series props thumbnail).
Proof.
  unfold publish_or_update, resolve_online_item, share_or_record.
  preserves_structure grows_leaf.
Qed.

#[local] Hint Resolve grows_publish_or_update : grows.

Lemma grows_process_series F goal target indicator gm thumbnail series :
  preserves group_tags_grow
    (process_series title_matches F goal target indicator gm thumbnail
                    series).
Proof. unfold process_series. preserves_structure grows_leaf. Qed.

#[local] Hint Resolve grows_process_series : grows.

Lemma grows_process_indicator F goal target gm thumbnail indicator :
  preserves group_tags_grow
    (process_indicator title_matches F goal target gm thumbnail indicator).
Proof. unfold process_indicator. preserves_structure grows_leaf. Qed.

#[local] Hint Resolve grows_process_indicator : grows.

Lemma grows_process_target F goal gm thumbnail target :
  preserves group_tags_grow
    (process_target title_matches F goal gm thumbnail target).
Proof. unfold process_target. preserves_structure grows_leaf. Qed.

#[local] Hint Resolve grows_process_target : grows.

Lemma grows_process_goal F md cur goal :
  preserves group_tags_grow (process_goal title_matches F md cur goal).
Proof. unfold process_goal. preserves_structure grows_leaf. Qed.

#[local] Hint Resolve grows_process_goal : grows.

Lemma grows_process_goals F md json_data :
  forall cur,
    preserves group_tags_grow
      (process_goals title_matches F md cur json_data).
Proof.
  induction json_data as [|goal rest IH]; intro cur; simpl.
  - preserves_structure grows_leaf.
  - apply preserves_bind; try grows_leaf.
    intros [[|] cur']; simpl; [apply IH | preserves_structure grows_leaf].
Qed.

#[local] Hint Resolve grows_process_goals : grows.

Lemma grows_process_sdg_information F json_data :
  preserves group_tags_grow
    (process_sdg_information title_matches F json_data).
Proof. unfold process_sdg_information. preserves_structure grows_leaf. Qed.

Lemma keeps_resolve_online_item F indicator series props thumbnail :
  keeps_group_tags
    (resolve_online_item title_matches F indicator series props thumbnail).
Proof. unfold resolve_online_item. keeps_structure. Qed.

Lemma appends_after_keeps c {A B} (m : M A) (k : A -> M B) :
  keeps_group_tags m -> (forall a, appends_at_most c (k a)) ->
  appends_at_most c (bind m k).
Proof.
  intros Hm Hk w. unfold bind.
  specialize (Hm w). unfold same_group_tags in Hm.
  destruct (m w) as [[a|e] w1]; cbn [snd] in *.
  - rewrite <- Hm. apply Hk.
  - left. exact Hm.
Qed.

Lemma keeps_after_appends c {A B} (m : M A) (k : A -> M B) :
  appends_at_most c m -> (forall a, keeps_group_tags (k a)) ->
  appends_at_most c (bind m k).
Proof.
  intros Hm Hk w. unfold bind.
  specialize (Hm w).
  destruct (m w) as [[a|e] w1]; cbn [snd] in *.
  - specialize (Hk a w1). unfold same_group_tags in Hk.
    rewrite Hk. exact Hm.
  - exact Hm.
Qed.

Lemma handler_after_appends c {A} (m : M A) (h : Exn -> M A) :
  appends_at_most c m -> (forall e, keeps_group_tags (h e)) ->
  appends_at_most c (try_except m h).
Proof.
  intros Hm Hh w. unfold try_except.
  specialize (Hm w).
  destruct (m w) as [[a|e] w1]; cbn [snd] in *.
  - exact Hm.
  - specialize (Hh e w1). unfold same_group_tags in Hh.
    rewrite Hh. exact Hm.
Qed.

Lemma appends_group_update_tags c :
  appends_at_most c (group_update_tags [c]).
Proof.
  intro w.
  destruct (group_update_tags_appends [c] w) as [[w' [E H]]|[w' [E H]]];
    rewrite E; [left | right]; exact H.
Qed.

Lemma appends_share_or_record series online_item :
  appends_at_most (s_code series) (share_or_record series online_item).
Proof.
  destruct online_item as [item|]; cbn [share_or_record].
  - apply appends_after_keeps; [apply keeps_output|intros _].
    apply appends_after_keeps; [apply keeps_item_share|intros _].
    apply appends_group_update_tags.
  - intro w. left. reflexivity.
Qed.

Lemma appends_publish_or_update F indicator series props thumbnail :
  appends_at_most (s_code series)
    (publish_or_update title_matches F indicator series props thumbnail).
Proof.
  unfold publish_or_update.
  apply appends_after_keeps; [apply keeps_resolve_online_item|].
  intro online_item. apply appends_share_or_record.
Qed.

Lemma appends_process_series F goal target indicator gm thumbnail series :
  appends_at_most (s_code series)
    (process_series title_matches F goal target indicator gm thumbnail
                    series).
Proof.
  unfold process_series.
  destruct (truthy (indicator_code F) && _); [intro w; left; reflexivity|].
  cbv zeta.
  apply appends_after_keeps; [apply keeps_output|intros _].
  apply handler_after_appends.
  - apply keeps_after_appends.
    + pose proof (appends_publish_or_update F indicator
                    (default_description series)
                    (build_item_properties goal target indicator series gm)
                    thumbnail) as H.
      rewrite default_description_code in H. exact H.
    + intro. keeps_structure.
  - intro e. keeps_structure.
Qed.

End GroupTags.

(** ** Running a computation step by step *)

Lemma run_bind_ok {A B} (m : M A) (k : A -> M B) w a w1 :
  m w = (Ok a, w1) -> bind m k w = k a w1.
Proof. intro H. unfold bind. now rewrite H. Qed.

Lemma run_bind_raise {A B} (m : M A) (k : A -> M B) w e w1 :
  m w = (Raise e, w1) -> bind m k w = (Raise e, w1).
Proof. intro H. unfold bind. now rewrite H. Qed.

Lemma run_try_ok {A} (m : M A) (h : Exn -> M A) w a w1 :
  m w = (Ok a, w1) -> try_except m h w = (Ok a, w1).
Proof. intro H. unfold try_except. now rewrite H. Qed.

Lemma run_try_raise {A} (m : M A) (h : Exn -> M A) w e w1 :
  m w = (Raise e, w1) -> try_except m h w = h e w1.
Proof. intro H. unfold try_except. now rewrite H. Qed.

Lemma run_remote_no_fault {A} (op : M A) w :
  faults w = [] -> remote op w = op (set_calls (S (calls w)) w).
Proof. intro H. unfold remote. now rewrite H. Qed.

(** ** The catalog search only talks *)

Lemma only_console_and_calls_refl w : only_console_and_calls w w.
Proof. repeat split. Qed.

Lemma only_console_and_calls_trans a b c :
  only_console_and_calls a b -> only_console_and_calls b c ->
  only_console_and_calls a c.
Proof.
  unfold only_console_and_calls. intros H1 H2.
  decompose [and] H1. decompose [and] H2. repeat split; congruence.
Qed.

Lemma quiet_output o : preserves only_console_and_calls (output o).
Proof. intro w. repeat split. Qed.

Lemma quiet_content_search tm title :
  preserves only_console_and_calls (content_search tm title).
Proof.
  intro w. unfold content_search, remote.
  destruct (existsb _ _); repeat split.
Qed.

Lemma quiet_find_online_item tm title :
  preserves only_console_and_calls (find_online_item tm title).
Proof.
  unfold find_online_item.
  preserves_structure
    ltac:(first [ exact only_console_and_calls_refl
                | exact only_console_and_calls_trans
                | apply quiet_output | apply quiet_content_search ]).
Qed.

(** ** C6 and C10: the metadata-only mode *)

Lemma first_exact_title_In title results id :
  first_exact_title title results = Some id -> In (id, title) results.
Proof.
  induction results as [|[i t] rest IH]; cbn [first_exact_title];
    [discriminate|].
  destruct (t =? title) eqn:E.
  - intro H. inversion H; subst. apply String.eqb_eq in E. subst.
    now left.
  - intro H. right. now apply IH.
Qed.

(** An item that the search answers with is in the catalog, under the title
    asked for. *)
Lemma found_item_is_in_the_catalog tm title w item w1 :
  find_online_item tm title w = (Ok (Some item), w1) ->
  exists it, In it (items w) /\ it_id it = item /\ it_title it = title.
Proof.
  unfold find_online_item, try_except, bind, output, content_search, remote.
  cbn [calls faults set_console].
  destruct (existsb (Nat.eqb (calls w)) (faults w)); [discriminate|].
  unfold ret. intro H. inversion H as [[Hfirst Hw]]. clear H Hw.
  apply first_exact_title_In in Hfirst.
  apply in_map_iff in Hfirst. destruct Hfirst as [it [E Hin]].
  inversion E; subst. apply filter_In in Hin. destruct Hin as [Hin _].
  exists it. cbn [items set_calls set_console] in Hin. auto.
Qed.

Lemma item_kept_refl it : item_kept it it.
Proof. repeat split. Qed.

Lemma Forall2_item_kept_refl l : Forall2 item_kept l l.
Proof. induction l; constructor; auto using item_kept_refl. Qed.

Lemma catalog_kept_refl w : catalog_kept w w.
Proof. split; [apply Forall2_item_kept_refl | reflexivity]. Qed.

Lemma Forall2_item_kept_trans l1 :
  forall l2 l3,
    Forall2 item_kept l1 l2 -> Forall2 item_kept l2 l3 ->
    Forall2 item_kept l1 l3.
Proof.
  induction l1 as [|a l1 IH]; intros l2 l3 H12 H23.
  - inversion H12; subst. inversion H23; subst. constructor.
  - inversion H12 as [|? b ? l2' Hab H12']; subst.
    inversion H23 as [|? c ? l3' Hbc H23']; subst.
    constructor; [|eapply IH; eassumption].
    unfold item_kept in *.
    decompose [and] Hab. decompose [and] Hbc. repeat split; congruence.
Qed.

Lemma catalog_kept_trans a b c :
  catalog_kept a b -> catalog_kept b c -> catalog_kept a c.
Proof.
  intros [H1 N1] [H2 N2]. split; [|congruence].
  eapply Forall2_item_kept_trans; eassumption.
Qed.

Lemma catalog_kept_same_items w w' :
  items w' = items w -> next_id w' = next_id w -> catalog_kept w w'.
Proof.
  intros Hi Hn. split; [|exact Hn]. rewrite Hi. apply Forall2_item_kept_refl.
Qed.

Lemma Forall2_modify_item id f l :
  (forall it, item_kept it (f it)) -> Forall2 item_kept l (modify_item id f l).
Proof.
  intro Hf. unfold modify_item.
  induction l as [|it l IH]; simpl; constructor; auto.
  destruct (it_id it =? id)%nat; [apply Hf | apply item_kept_refl].
Qed.

Lemma kept_output o : preserves catalog_kept (output o).
Proof. intro w. now apply catalog_kept_same_items. Qed.

Lemma kept_failed_series_append code :
  preserves catalog_kept (failed_series_append code).
Proof. intro w. now apply catalog_kept_same_items. Qed.

Lemma kept_find_online_item tm title :
  preserves catalog_kept (find_online_item tm title).
Proof.
  intro w. destruct (quiet_find_online_item tm title w) as [Hi [Hn _]].
  now apply catalog_kept_same_items.
Qed.

Lemma kept_item_update id props thumbnail :
  p_type props = None -> p_url props = None ->
  preserves catalog_kept (item_update id props thumbnail None).
Proof.
  intros Ht Hu w. unfold item_update, remote.
  destruct (existsb _ _); cbn.
  - now apply catalog_kept_same_items.
  - split; [|reflexivity]. cbn. apply Forall2_modify_item.
    intro it. unfold item_kept, apply_update; cbn.
    rewrite Ht, Hu. repeat split.
Qed.

Lemma kept_item_share id sh : preserves catalog_kept (item_share id sh).
Proof.
  intro w. unfold item_share, remote.
  destruct (existsb _ _); cbn.
  - now apply catalog_kept_same_items.
  - split; [|reflexivity]. cbn. apply Forall2_modify_item.
    intro it. repeat split.
Qed.

Lemma kept_group_update_tags new_tags :
  preserves catalog_kept (group_update_tags new_tags).
Proof.
  intro w. unfold group_update_tags, remote.
  destruct (existsb _ _); cbn; now apply catalog_kept_same_items.
Qed.

Lemma modify_item_twice id f g l :
  (forall it, it_id (f it) = it_id it) ->
  modify_item id g (modify_item id f l)
  = modify_item id (fun it => g (f it)) l.
Proof.
  intro Hf. unfold modify_item. rewrite map_map. apply map_ext.
  intro it. destruct (it_id it =? id)%nat eqn:E.
  - now rewrite Hf, E.
  - now rewrite E.
Qed.

Section MetadataOnly.

Variable title_matches : string -> string -> bool.
Variable F : Filters.
Variable goal : Goal.
Variable target : Target.
Variable indicator : Indicator.
Variable gm : GoalMeta.
Variable thumbnail : string.
Variable series : Series.

Lemma process_series_selected (w : World) :
  series_selected F series ->
  process_series title_matches F goal target indicator gm thumbnail series w
  = try_except
      (publish_or_update title_matches F indicator
         (default_description series)
         (build_item_properties goal target indicator series gm)
         thumbnail ;;
       ret Normal)
      (series_handler indicator series) (announced indicator series w).
Proof.
  intro Hsel. unfold process_series. rewrite Hsel. cbv zeta.
  unfold series_handler, announced.
  rewrite default_description_code. reflexivity.
Qed.

Lemma build_item_properties_type :
  p_type (build_item_properties goal target indicator series gm) = None /\
  p_url (build_item_properties goal target indicator series gm) = None.
Proof. split; reflexivity. Qed.

Hypothesis metadata_only : property_update_only F = true.

Lemma kept_process_series :
  preserves catalog_kept
    (process_series title_matches F goal target indicator gm thumbnail
                    series).
Proof.
  unfold process_series, publish_or_update, resolve_online_item,
    share_or_record.
  rewrite metadata_only.
  preserves_structure
    ltac:(first [ exact catalog_kept_refl | exact catalog_kept_trans
                | apply kept_output | apply kept_failed_series_append
                | apply kept_find_online_item
                | apply kept_item_update; reflexivity
                | apply kept_item_share | apply kept_group_update_tags ]).
Qed.

(** The item is not found: the series code enters the ledger twice, once
    in the branch of the search and once in the branch shared by both
    modes, and nothing else changes after the search. *)
Lemma not_found_run (w w1 : World) :
  series_selected F series ->
  find_online_item title_matches
    (p_title (build_item_properties goal target indicator series gm))
    (announced indicator series w) = (Ok None, w1) ->
  process_series title_matches F goal target indicator gm thumbnail series w
  = (Ok Normal,
     set_failed_series
       (failed_series w ++ [s_code series; s_code series]) w1).
Proof.
  intros Hsel Hfind.
  pose proof (quiet_find_online_item title_matches
                (p_title (build_item_properties goal target indicator
                                                series gm))
                (announced indicator series w)) as Q.
  rewrite Hfind in Q. destruct Q as [_ [_ [_ [_ [_ [Hl _]]]]]].
  cbn in Hl.
  assert (Hres :
    resolve_online_item title_matches F indicator
      (default_description series)
      (build_item_properties goal target indicator series gm) thumbnail
      (announced indicator series w)
    = (Ok None, set_failed_series (failed_series w1 ++ [s_code series]) w1)).
  { unfold resolve_online_item. rewrite metadata_only.
    erewrite run_bind_ok by exact Hfind.
    rewrite default_description_code. reflexivity. }
  assert (Hpub :
    publish_or_update title_matches F indicator
      (default_description series)
      (build_item_properties goal target indicator series gm) thumbnail
      (announced indicator series w)
    = (Ok tt,
       set_failed_series
         (failed_series w ++ [s_code series; s_code series]) w1)).
  { unfold publish_or_update. erewrite run_bind_ok by exact Hres.
    cbn [share_or_record]. rewrite default_description_code.
    unfold failed_series_append, set_failed_series; cbn.
    rewrite Hl, <- app_assoc. reflexivity. }
  rewrite process_series_selected by assumption.
  erewrite run_try_ok; [reflexivity|].
  erewrite run_bind_ok by exact Hpub. reflexivity.
Qed.

(** The item is found and no request fails: its card and thumbnail are
    replaced, it is shared, and the series code joins the group's tags. *)
Lemma found_run (w w1 : World) (item : nat) :
  series_selected F series ->
  faults w = [] ->
  find_online_item title_matches
    (p_title (build_item_properties goal target indicator series gm))
    (announced indicator series w) = (Ok (Some item), w1) ->
  exists w',
    process_series title_matches F goal target indicator gm thumbnail
                   series w = (Ok Normal, w') /\
    items w' = modify_item item
        (card_applied goal target indicator gm thumbnail series) (items w) /\
    next_id w' = next_id w /\
    failed_series w' = failed_series w /\
    group_tags w' = group_tags w ++ [s_code series].
Proof.
  intros Hsel Hfaults Hfind.
  pose proof (quiet_find_online_item title_matches
                (p_title (build_item_properties goal target indicator
                                                series gm))
                (announced indicator series w)) as Q.
  rewrite Hfind in Q.
  destruct Q as [Hi [Hn [Hg [_ [_ [Hl Hf]]]]]]. cbn in Hi, Hn, Hg, Hl, Hf.
  rewrite Hfaults in Hf.
  rewrite process_series_selected by assumption.
  unfold try_except, publish_or_update, resolve_online_item.
  rewrite metadata_only.
  unfold bind at 1 2 3. rewrite Hfind.
  unfold bind at 1, item_update. rewrite run_remote_no_fault by exact Hf.
  cbn [share_or_record ret].
  unfold bind at 1. cbn [output].
  unfold bind at 1, item_share.
  rewrite run_remote_no_fault by exact Hf.
  unfold group_update_tags. rewrite run_remote_no_fault by exact Hf.
  eexists. split; [reflexivity|]. cbn.
  rewrite Hi, Hn, Hl, Hg, default_description_code.
  split; [|repeat split].
  change (modify_item item
            (fun it =>
               mkItem (it_id it) (it_title it) (it_snippet it)
                 (it_description it) (it_tags it) (it_type it)
                 (it_url it) (it_thumbnail it) (it_data it)
                 (it_ownerFolder it) (Some open_data_sharing))
            (modify_item item
               (apply_update
                  (build_item_properties goal target indicator series gm)
                  thumbnail None)
               (items w))
          = modify_item item
        (card_applied goal target indicator gm thumbnail series) (items w)).
  rewrite modify_item_twice by reflexivity. reflexivity.
Qed.

End MetadataOnly.

Lemma In_modify_item it' id f l :
  In it' (modify_item id f l) ->
  exists it,
    In it l /\ it' = (if (it_id it =? id)%nat then f it else it).
Proof.
  unfold modify_item. intro H. apply in_map_iff in H.
  destruct H as [it [E Hin]]. exists it. auto.
Qed.

(** C6, as stated, fails in its second half: when the item is found, the walk
    does not only update its descriptive metadata and thumbnail.  It also
    shares the item with everyone, the organization and the open-data group,
    and it appends the series code to the tags of the group. *)
Lemma metadata_only_update_also_shares_and_tags :
  let F := Example.no_filter true in
  let w := Example.published [] in
  let title := p_title (Example.card Example.poverty_day) in
  let w' :=
    snd (process_series String.eqb F Example.goal_1 Example.target_1_1
           Example.indicator_1_1_1 Example.meta_1
           (goal_thumbnail Example.meta_1) Example.poverty_day w) in
  property_update_only F = true /\
  fst (find_online_item String.eqb title
         (announced Example.indicator_1_1_1 Example.poverty_day w))
  = Ok (Some 0) /\
  map it_sharing (items w) = [None] /\
  map it_sharing (items w') = [Some open_data_sharing] /\
  group_tags w = ["Open Data"] /\
  group_tags w' = ["Open Data"; "SI_POV_DAY1"] /\
  ~ only_descriptive_updates w w'.
Proof.
  cbv zeta. split; [reflexivity|]. split; [vm_compute; reflexivity|].
  split; [reflexivity|]. split; [vm_compute; reflexivity|].
  split; [reflexivity|]. split; [vm_compute; reflexivity|].
  intros [_ H]. vm_compute in H. discriminate H.
Qed.

(** C6 (amended): in the metadata-only mode a selected series never creates
    or deletes an item: the catalog keeps its items, each with its identity,
    file, folder, type and address.  When the exact-title search finds
    nothing, the series code is in the failure ledger afterwards and the
    catalog and the group's tags are untouched.  When it finds an item (and
    no request fails), that item is in the catalog; it gets the card's title,
    snippet, description and tags and the thumbnail, in place; besides, it is
    shared with everyone, the organization and the open-data group, and the
    series code is appended to the group's tags; every other item is as it
    was, and the ledger is untouched. *)
Theorem metadata_only_updates_in_place_or_records
    (title_matches : string -> string -> bool) (F : Filters) (goal : Goal)
    (target : Target) (indicator : Indicator) (gm : GoalMeta)
    (thumbnail : string) (series : Series) (w : World) :
  property_update_only F = true ->
  series_selected F series ->
  let props := build_item_properties goal target indicator series gm in
  let title := p_title props in
  let result :=
    process_series title_matches F goal target indicator gm thumbnail
                   series w in
  catalog_kept w (snd result) /\
  (forall w1,
     find_online_item title_matches title (announced indicator series w)
       = (Ok None, w1) ->
     fst result = Ok Normal /\
     In (s_code series) (failed_series (snd result)) /\
     items (snd result) = items w /\
     next_id (snd result) = next_id w /\
     group_tags (snd result) = group_tags w) /\
  (forall item w1,
     find_online_item title_matches title (announced indicator series w)
       = (Ok (Some item), w1) ->
     faults w = [] ->
     fst result = Ok Normal /\
     items (snd result)
       = modify_item item
           (card_applied goal target indicator gm thumbnail series)
           (items w) /\
     failed_series (snd result) = failed_series w /\
     next_id (snd result) = next_id w /\
     group_tags (snd result) = group_tags w ++ [s_code series] /\
     (exists it', In it' (items (snd result)) /\ it_id it' = item) /\
     (forall it',
        In it' (items (snd result)) -> it_id it' = item ->
        carries_card props thumbnail it' /\
        it_sharing it' = Some open_data_sharing) /\
     (forall it',
        In it' (items (snd result)) -> it_id it' <> item ->
        In it' (items w))).
Proof.
  intros Hmode Hsel props title result. subst props title result.
  split; [now apply kept_process_series|]. split.
  - intros w1 Hfind.
    rewrite (@not_found_run title_matches F goal target indicator gm
               thumbnail series Hmode w w1 Hsel Hfind); cbn.
    pose proof (quiet_find_online_item title_matches
                  (p_title (build_item_properties goal target indicator
                                                  series gm))
                  (announced indicator series w)) as Q.
    rewrite Hfind in Q. destruct Q as [Hi [Hn [Hg _]]].
    repeat split; trivial.
    apply in_or_app. right. now left.
  - intros item w1 Hfind Hfaults.
    destruct (@found_run title_matches F goal target indicator gm thumbnail
                series Hmode w w1 item Hsel Hfaults Hfind)
      as [w' [E [Hi [Hn [Hl Hg]]]]].
    rewrite E. cbn [fst snd].
    split; [reflexivity|]. split; [exact Hi|]. split; [exact Hl|].
    split; [exact Hn|]. split; [exact Hg|].
    rewrite Hi. split; [|split].
    + destruct (found_item_is_in_the_catalog _ _ _ Hfind)
        as [it [Hin [Hid _]]].
      cbn [items announced set_console] in Hin.
      exists (card_applied goal target indicator gm thumbnail series it).
      split; [|exact Hid].
      unfold modify_item. apply in_map_iff. exists it.
      split; [|exact Hin]. apply Nat.eqb_eq in Hid. now rewrite Hid.
    + intros it' Hin Hid. apply In_modify_item in Hin.
      destruct Hin as [it [_ ->]].
      destruct (it_id it =? item)%nat eqn:Eid.
      * split; [|reflexivity]. repeat split.
      * apply Nat.eqb_neq in Eid. contradiction.
    + intros it' Hin Hid. apply In_modify_item in Hin.
      destruct Hin as [it [Hin ->]].
      destruct (it_id it =? item)%nat eqn:Eid; [|exact Hin].
      apply Nat.eqb_eq in Eid. elim Hid. exact Eid.
Qed.

(** C10: in the metadata-only mode a selected series whose item is not
    found has its code appended to the failure ledger twice in that one
    iteration, so the ledger that is printed at the end of the run holds a
    duplicate. *)
Theorem not_found_series_is_recorded_twice
    (title_matches : string -> string -> bool) (F : Filters) (goal : Goal)
    (target : Target) (indicator : Indicator) (gm : GoalMeta)
    (thumbnail : string) (series : Series) (w w1 : World) :
  property_update_only F = true ->
  series_selected F series ->
  find_online_item title_matches
    (p_title (build_item_properties goal target indicator series gm))
    (announced indicator series w) = (Ok None, w1) ->
  let w' :=
    snd (process_series title_matches F goal target indicator gm thumbnail
                        series w) in
  failed_series w' = failed_series w ++ [s_code series; s_code series] /\
  count_occ string_dec (failed_series w') (s_code series)
    = count_occ string_dec (failed_series w) (s_code series) + 2 /\
  ~ NoDup (failed_series w').
Proof.
  intros Hmode Hsel Hfind w'. subst w'.
  rewrite (@not_found_run title_matches F goal target indicator gm
             thumbnail series Hmode w w1 Hsel Hfind); cbn [snd].
  assert (E : failed_series
                (set_failed_series
                   (failed_series w ++ [s_code series; s_code series]) w1)
              = failed_series w ++ [s_code series; s_code series])
    by reflexivity.
  rewrite E. split; [reflexivity|]. split.
  - rewrite count_occ_app. cbn.
    destruct (string_dec (s_code series) (s_code series)); [lia|congruence].
  - intro ND. apply NoDup_remove_2 with (l := failed_series w)
                (l' := [s_code series]) (a := s_code series) in ND.
    apply ND, in_or_app. right. now left.
Qed.

(** ** C9: a processed series and the group's tags *)

(** Sharing the item and tagging the group take two requests; when either
    fails, the group's tags stay as they are. *)
Lemma share_or_record_found series item w :
  let fails :=
    existsb (Nat.eqb (calls w)) (faults w)
    || existsb (Nat.eqb (S (calls w))) (faults w) in
  exists w',
    share_or_record series (Some item) w
    = (if fails then Raise RemoteError else Ok tt, w') /\
    group_tags w'
    = (if fails then group_tags w else group_tags w ++ [s_code series]) /\
    failed_series w' = failed_series w.
Proof.
  cbv zeta.
  unfold share_or_record, bind, output, item_share, group_update_tags, remote.
  cbn [calls faults set_console].
  destruct (existsb (Nat.eqb (calls w)) (faults w)); cbn [orb].
  { eexists. repeat split; reflexivity. }
  cbn [calls faults set_console set_items set_calls].
  destruct (existsb (Nat.eqb (S (calls w))) (faults w));
    eexists; repeat split; reflexivity.
Qed.

(** C9, as stated, fails: a processed series does not always add its code to
    the group's tags.  Against an empty catalog both series of the example
    goal are processed, and neither code joins the tags. *)
Lemma processed_series_without_a_group_tag :
  let F := Example.no_filter true in
  let w' :=
    snd (process_sdg_information String.eqb F [Example.goal_1]
           Example.fresh) in
  processed_series w' = ["SI_POV_DAY1"; "SI_POV_EMP1"] /\
  group_tags Example.fresh = ["Open Data"] /\
  group_tags w' = ["Open Data"; "Target 1.1"; "Indicator 1.1.1"] /\
  (forall code, In code (processed_series w') -> ~ In code (group_tags w')).
Proof.
  cbv zeta.
  assert (P : processed_series
                (snd (process_sdg_information String.eqb
                        (Example.no_filter true) [Example.goal_1]
                        Example.fresh))
              = ["SI_POV_DAY1"; "SI_POV_EMP1"]) by (vm_compute; reflexivity).
  assert (G : group_tags
                (snd (process_sdg_information String.eqb
                        (Example.no_filter true) [Example.goal_1]
                        Example.fresh))
              = ["Open Data"; "Target 1.1"; "Indicator 1.1.1"])
    by (vm_compute; reflexivity).
  rewrite P, G. split; [reflexivity|]. split; [reflexivity|].
  split; [reflexivity|].
  intros code [<-|[<-|[]]] [H|[H|[H|[]]]]; discriminate H.
Qed.

(** ** C1: failing fast *)

(** *** The console after a run *)

Lemma no_failure_line_app l1 l2 :
  no_failure_line l1 -> no_failure_line l2 -> no_failure_line (l1 ++ l2).
Proof.
  intros H1 H2 i s Hin. apply in_app_or in Hin.
  destruct Hin; [eapply H1 | eapply H2]; eassumption.
Qed.

Lemma quietly_refl w : quietly w w.
Proof. exists []. split; [now rewrite app_nil_r | intros i s []]. Qed.

Lemma quietly_trans a b c : quietly a b -> quietly b c -> quietly a c.
Proof.
  intros [l1 [E1 N1]] [l2 [E2 N2]]. exists (l1 ++ l2). split.
  - now rewrite E2, E1, app_assoc.
  - now apply no_failure_line_app.
Qed.

Lemma quietly_same_console w w' : console w' = console w -> quietly w w'.
Proof.
  intro E. exists []. split; [now rewrite app_nil_r | intros i s []].
Qed.

Lemma quietly_then_failure_last a b c :
  quietly a b -> failure_last b c -> failure_last a c.
Proof.
  intros [l1 [E1 N1]] [pre [e [i [s [ledger [E2 [N2 L]]]]]]].
  exists (l1 ++ pre), e, i, s, ledger. repeat split; trivial.
  - now rewrite E2, E1, <- !app_assoc.
  - now apply no_failure_line_app.
Qed.

Lemma quietly_output o :
  (forall i s, o <> PrintedFailed i s) -> preserves quietly (output o).
Proof.
  intros Ho w. exists [o]. split; [reflexivity|].
  intros i s [E|[]]. now apply (Ho i s).
Qed.

Ltac same_console_tac :=
  intro w; apply quietly_same_console;
  cbv beta delta [remote bind ret raise]; simpl;
  repeat match goal with
         | |- context [match ?x with _ => _ end] => destruct x; simpl
         end;
  reflexivity.

Lemma quietly_find_goal_metadata md code cur :
  preserves quietly (find_goal_metadata md code cur).
Proof.
  induction md as [|r md IH]; intro w; simpl; [apply quietly_refl|].
  destruct (PyStr.to_int code); [|apply quietly_refl].
  destruct (gm_goal r =? z)%Z; [apply quietly_refl | apply IH].
Qed.

Ltac quietly_leaf :=
  first
    [ exact quietly_refl
    | exact quietly_trans
    | apply quietly_output; intros; discriminate
    | apply quietly_find_goal_metadata
    | solve [ unfold failed_series_append, item_update, item_move,
                item_share, content_add, item_publish, owner_folder,
                group_update_tags, isfile, get_metadata, load_name,
                content_search, analyze_request, int_code_differs;
              same_console_tac ] ].

Lemma quietly_publish_or_update tm F indicator series props thumbnail :
  preserves quietly (publish_or_update tm F indicator series props thumbnail).
Proof.
  unfold publish_or_update, resolve_online_item, share_or_record,
    publish_csv, publish_csv_finish, move_to_open_data, analyze_csv,
    find_online_item, print.
  preserves_structure quietly_leaf.
Qed.

(** *** Loop bodies *)

Lemma fails_fast_by_bind {A B} (completion : B -> Completion)
    (m : M A) (k : A -> M B) :
  preserves quietly m -> (forall a, fails_fast_by completion (k a)) ->
  fails_fast_by completion (bind m k).
Proof.
  intros Hm Hk w. unfold bind.
  specialize (Hm w). destruct (m w) as [[a|e] w1]; cbn [fst snd] in *.
  - specialize (Hk a w1).
    destruct (k a w1) as [[b|e] w2]; cbn [fst snd] in *.
    + destruct (completion b);
        [eapply quietly_trans | eapply quietly_then_failure_last];
        eassumption.
    + eapply quietly_trans; eassumption.
  - exact Hm.
Qed.

Lemma fails_fast_by_normal {A} (completion : A -> Completion) (a : A) :
  completion a = Normal -> fails_fast_by completion (ret a).
Proof. intros H w. cbn. rewrite H. apply quietly_refl. Qed.

Lemma fails_fast_by_raise {A} (completion : A -> Completion) (e : Exn) :
  fails_fast_by completion (raise e).
Proof. intro w. cbn. apply quietly_refl. Qed.

Lemma fails_fast_for_each {A} (body : A -> M Completion) (l : list A) :
  (forall x, fails_fast (body x)) -> fails_fast (for_each body l).
Proof.
  intro Hb. induction l as [|x l IH]; intro w; cbn [for_each].
  - apply quietly_refl.
  - unfold bind. specialize (Hb x w).
    destruct (body x w) as [[[|]|e] w1]; cbn [fst snd] in *.
    + specialize (IH w1).
      destruct (for_each body l w1) as [[[|]|e] w2]; cbn [fst snd] in *;
        [eapply quietly_trans | eapply quietly_then_failure_last
        | eapply quietly_trans]; eassumption.
    + exact Hb.
    + exact Hb.
Qed.

Section FailFast.

Variable title_matches : string -> string -> bool.
Variable F : Filters.

(** The handler of the [try] block: traceback, failure line, ledger, and
    [return]. *)
Lemma series_exception_run goal target indicator gm thumbnail series
    (w w1 : World) (e : Exn) :
  series_selected F series ->
  publish_or_update title_matches F indicator (default_description series)
    (build_item_properties goal target indicator series gm) thumbnail
    (announced indicator series w) = (Raise e, w1) ->
  process_series title_matches F goal target indicator gm thumbnail series w
  = (Ok Returned,
     set_failed_series (failed_series w1 ++ [s_code series])
       (set_console
          (console w1
             ++ [Traceback e;
                 PrintedFailed (i_code indicator) (s_code series)])
          w1)).
Proof.
  intros Hsel Hraise.
  rewrite process_series_selected by assumption.
  erewrite run_try_raise
    by (erewrite run_bind_raise by exact Hraise; reflexivity).
  unfold series_handler, bind, output, failed_series_append, ret,
    set_failed_series, set_console; cbn.
  now rewrite <- app_assoc.
Qed.

Lemma fails_fast_process_series goal target indicator gm thumbnail series :
  fails_fast
    (process_series title_matches F goal target indicator gm thumbnail
                    series).
Proof.
  intro w.
  destruct (truthy (indicator_code F)
            && negb (str_eq_val (s_code series) (series_code F)
                     || is_none (series_code F))) eqn:Hsel.
  - unfold process_series. rewrite Hsel. apply quietly_refl.
  - assert (Q0 : quietly w (announced indicator series w)).
    { exists [PrintedProcessing (i_code indicator) (s_code series)].
      split; [reflexivity|]. intros i s [E|[]]. discriminate. }
    pose proof (quietly_publish_or_update title_matches F indicator
                  (default_description series)
                  (build_item_properties goal target indicator series gm)
                  thumbnail (announced indicator series w)) as Q.
    destruct (publish_or_update title_matches F indicator
                (default_description series)
                (build_item_properties goal target indicator series gm)
                thumbnail (announced indicator series w))
      as [[[]|e] w1] eqn:E; cbn [snd] in Q.
    + rewrite process_series_selected by exact Hsel.
      erewrite run_try_ok
        by (erewrite run_bind_ok by exact E; reflexivity).
      cbn. eapply quietly_trans; eassumption.
    + rewrite (@series_exception_run goal target indicator gm thumbnail
                 series w w1 e Hsel E).
      cbn [fst snd].
      eapply quietly_then_failure_last;
        [eapply quietly_trans; eassumption|].
      exists [], e, (i_code indicator), (s_code series), (failed_series w1).
      repeat split. intros i s [].
Qed.

Lemma fails_fast_process_indicator goal target gm thumbnail indicator :
  fails_fast
    (process_indicator title_matches F goal target gm thumbnail indicator).
Proof.
  unfold process_indicator.
  destruct (truthy (indicator_code F) && _).
  - now apply fails_fast_by_normal.
  - apply fails_fast_by_bind.
    + preserves_structure quietly_leaf.
    + intros _. apply fails_fast_for_each.
      intro series. apply fails_fast_process_series.
Qed.

Lemma fails_fast_process_target goal gm thumbnail target :
  fails_fast (process_target title_matches F goal gm thumbnail target).
Proof.
  unfold process_target.
  apply fails_fast_by_bind; [preserves_structure quietly_leaf|].
  intros [|]; [now apply fails_fast_by_normal|].
  apply fails_fast_by_bind; [preserves_structure quietly_leaf|].
  intros _. apply fails_fast_for_each.
  intro indicator. apply fails_fast_process_indicator.
Qed.

Lemma fails_fast_process_goal md cur goal :
  fails_fast_by fst (process_goal title_matches F md cur goal).
Proof.
  unfold process_goal.
  apply fails_fast_by_bind; [preserves_structure quietly_leaf|].
  intros [|]; [now apply fails_fast_by_normal|].
  destruct md as [records|]; [|apply fails_fast_by_raise].
  apply fails_fast_by_bind; [preserves_structure quietly_leaf|].
  intros [found|]; [|apply fails_fast_by_raise].
  intro w. unfold bind.
  pose proof (fails_fast_for_each
                (process_target title_matches F goal found
                                (goal_thumbnail found))
                (g_targets goal)
                (fun t => fails_fast_process_target goal found
                            (goal_thumbnail found) t) w) as H.
  unfold fails_fast_by in H.
  destruct (for_each _ (g_targets goal) w) as [[c|e] w1];
    cbn [fst snd] in *; exact H.
Qed.

Lemma fails_fast_process_goals md json_data :
  forall cur, fails_fast (process_goals title_matches F md cur json_data).
Proof.
  induction json_data as [|goal rest IH]; intros cur w;
    cbn [process_goals].
  - apply quietly_refl.
  - unfold bind.
    pose proof (fails_fast_process_goal md cur goal w) as H.
    destruct (process_goal title_matches F md cur goal w)
      as [[[[|] cur']|e] w1]; cbn [fst snd] in *.
    + specialize (IH cur' w1). unfold fails_fast, fails_fast_by in IH.
      destruct (process_goals title_matches F md cur' rest w1)
        as [[[|]|e] w2]; cbn [fst snd] in *;
        [eapply quietly_trans | eapply quietly_then_failure_last
        | eapply quietly_trans]; eassumption.
    + exact H.
    + exact H.
Qed.

(** A loop that has returned on a prefix of its list does not look at
    the rest. *)
Lemma for_each_returned {A} (body : A -> M Completion) (l rest : list A) :
  forall w w',
    for_each body l w = (Ok Returned, w') ->
    for_each body (l ++ rest) w = (Ok Returned, w').
Proof.
  induction l as [|x l IH]; intros w w' H; cbn [for_each app] in *.
  - discriminate.
  - unfold bind in *.
    destruct (body x w) as [[[|]|e] w1]; [now apply IH | exact H | exact H].
Qed.

Lemma process_goals_returned md (l rest : list Goal) :
  forall cur w w',
    process_goals title_matches F md cur l w = (Ok Returned, w') ->
    process_goals title_matches F md cur (l ++ rest) w = (Ok Returned, w').
Proof.
  induction l as [|g l IH]; intros cur w w' H;
    cbn [process_goals app] in *.
  - discriminate.
  - unfold bind in *.
    destruct (process_goal title_matches F md cur g w)
      as [[[[|] cur']|e] w1]; cbn [fst snd] in *;
      [now apply IH | exact H | exact H].
Qed.

End FailFast.

(** C1: an exception that leaves the publication step of a series is
    logged with its traceback and a failure line, the series code is appended
    to the failure ledger, and the function returns: the loop over the series
    and every enclosing loop stop at once, and on the console nothing follows
    the failure line, in particular no progress line of a later series.
    Whatever happens, [process_sdg_information] itself ends without an
    exception. *)
Theorem exception_in_series_step_ends_the_walk
    (title_matches : string -> string -> bool) :
  (forall F goal target indicator gm thumbnail series w w1 e,
     series_selected F series ->
     publish_or_update title_matches F indicator (default_description series)
       (build_item_properties goal target indicator series gm) thumbnail
       (announced indicator series w) = (Raise e, w1) ->
     process_series title_matches F goal target indicator gm thumbnail
                    series w
     = (Ok Returned,
        set_failed_series (failed_series w1 ++ [s_code series])
          (set_console
             (console w1
                ++ [Traceback e;
                    PrintedFailed (i_code indicator) (s_code series)])
             w1))) /\
  (forall A (body : A -> M Completion) (l rest : list A) w w',
     for_each body l w = (Ok Returned, w') ->
     for_each body (l ++ rest) w = (Ok Returned, w')) /\
  (forall F md cur (l rest : list Goal) w w',
     process_goals title_matches F md cur l w = (Ok Returned, w') ->
     process_goals title_matches F md cur (l ++ rest) w
     = (Ok Returned, w')) /\
  (forall F json_data w,
     exists w',
       process_sdg_information title_matches F json_data w = (Ok tt, w') /\
       (quietly w w' \/ failure_last w w')).
Proof.
  split; [|split; [|split]].
  - intros. now apply series_exception_run.
  - intros A body l rest w w'. apply for_each_returned.
  - intros F md cur l rest w w'. apply process_goals_returned.
  - intros F json_data w.
    unfold process_sdg_information, try_except, bind, get_metadata.
    pose proof (fails_fast_process_goals title_matches F (display_metadata w)
                  json_data None w) as H.
    unfold fails_fast, fails_fast_by in H.
    destruct (process_goals title_matches F (display_metadata w) None
                json_data w) as [[[|]|e] w1]; cbn [fst snd] in H.
    + eexists. split; [reflexivity|]. left. exact H.
    + eexists. split; [reflexivity|]. right. exact H.
    + eexists. split; [reflexivity|]. left.
      eapply quietly_trans; [exact H|].
      apply quietly_output. intros; discriminate.
Qed.

(** C1 on the example: the item of the first series is found, the update
    request fails, and the loop over the two series returns at the first. *)
Lemma exception_in_series_step_witness :
  let F := Example.no_filter true in
  let thumbnail := goal_thumbnail Example.meta_1 in
  let w := Example.published [1] in
  let run :=
    publish_or_update String.eqb F Example.indicator_1_1_1
      (default_description Example.poverty_day)
      (Example.card Example.poverty_day) thumbnail
      (announced Example.indicator_1_1_1 Example.poverty_day w) in
  let body :=
    process_series String.eqb F Example.goal_1 Example.target_1_1
      Example.indicator_1_1_1 Example.meta_1 thumbnail in
  series_selected F Example.poverty_day /\
  run = (Raise RemoteError, snd run) /\
  body Example.poverty_day w
  = (Ok Returned,
     set_failed_series (failed_series (snd run) ++ ["SI_POV_DAY1"])
       (set_console
          (console (snd run)
             ++ [Traceback RemoteError; PrintedFailed "1.1.1" "SI_POV_DAY1"])
          (snd run))) /\
  for_each body ([Example.poverty_day] ++ [Example.poverty_emp]) w
  = (Ok Returned, snd (body Example.poverty_day w)).
Proof.
  cbv zeta.
  pose proof (exception_in_series_step_ends_the_walk String.eqb)
    as [Hhandler [Hloop _]].
  split; [reflexivity|]. split; [vm_compute; reflexivity|]. split.
  - apply Hhandler; [reflexivity | vm_compute; reflexivity].
  - apply Hloop. vm_compute. reflexivity.
Defined.

(** C6 (amended) on the example: the metadata-only mode against a catalog
    that holds the service of the series, and against an empty catalog. *)
Lemma metadata_only_witness :
  let F := Example.no_filter true in
  let thumbnail := goal_thumbnail Example.meta_1 in
  let step :=
    process_series String.eqb F Example.goal_1 Example.target_1_1
      Example.indicator_1_1_1 Example.meta_1 thumbnail Example.poverty_day in
  let found := step (Example.published []) in
  let missing := step Example.fresh in
  property_update_only F = true /\
  series_selected F Example.poverty_day /\
  (fst found = Ok Normal /\
   items (snd found)
   = modify_item 0
       (card_applied Example.goal_1 Example.target_1_1
          Example.indicator_1_1_1 Example.meta_1 thumbnail
          Example.poverty_day)
       (items (Example.published [])) /\
   failed_series (snd found) = failed_series (Example.published []) /\
   next_id (snd found) = next_id (Example.published []) /\
   group_tags (snd found)
   = group_tags (Example.published []) ++ ["SI_POV_DAY1"] /\
   (exists it', In it' (items (snd found)) /\ it_id it' = 0) /\
   (forall it',
      In it' (items (snd found)) -> it_id it' = 0 ->
      carries_card (Example.card Example.poverty_day) thumbnail it' /\
      it_sharing it' = Some open_data_sharing) /\
   (forall it',
      In it' (items (snd found)) -> it_id it' <> 0 ->
      In it' (items (Example.published [])))) /\
  (catalog_kept Example.fresh (snd missing) /\
   fst missing = Ok Normal /\
   In "SI_POV_DAY1" (failed_series (snd missing)) /\
   items (snd missing) = items Example.fresh /\
   next_id (snd missing) = next_id Example.fresh /\
   group_tags (snd missing) = group_tags Example.fresh).
Proof.
  cbv zeta.
  split; [reflexivity|]. split; [reflexivity|]. split.
  - pose proof (@metadata_only_updates_in_place_or_records String.eqb
                  (Example.no_filter true) Example.goal_1 Example.target_1_1
                  Example.indicator_1_1_1 Example.meta_1
                  (goal_thumbnail Example.meta_1) Example.poverty_day
                  (Example.published []) eq_refl eq_refl)
      as [_ [_ Hsome]].
    apply (Hsome 0
             (snd (find_online_item String.eqb
                     (p_title (Example.card Example.poverty_day))
                     (announced Example.indicator_1_1_1 Example.poverty_day
                                (Example.published []))))).
    + vm_compute. reflexivity.
    + reflexivity.
  - pose proof (@metadata_only_updates_in_place_or_records String.eqb
                  (Example.no_filter true) Example.goal_1 Example.target_1_1
                  Example.indicator_1_1_1 Example.meta_1
                  (goal_thumbnail Example.meta_1) Example.poverty_day
                  Example.fresh eq_refl eq_refl) as [Hkept [Hnone _]].
    split; [exact Hkept|].
    apply (Hnone
             (snd (find_online_item String.eqb
                     (p_title (Example.card Example.poverty_day))
                     (announced Example.indicator_1_1_1 Example.poverty_day
                                Example.fresh)))).
    vm_compute. reflexivity.
Defined.

(** C10 on the example: the ledger of an empty catalog after one series. *)
Lemma not_found_twice_witness :
  let F := Example.no_filter true in
  let w' :=
    snd (process_series String.eqb F Example.goal_1 Example.target_1_1
           Example.indicator_1_1_1 Example.meta_1
           (goal_thumbnail Example.meta_1) Example.poverty_day
           Example.fresh) in
  property_update_only F = true /\
  series_selected F Example.poverty_day /\
  failed_series w'
  = failed_series Example.fresh ++ ["SI_POV_DAY1"; "SI_POV_DAY1"] /\
  count_occ string_dec (failed_series w') "SI_POV_DAY1"
  = count_occ string_dec (failed_series Example.fresh) "SI_POV_DAY1" + 2 /\
  ~ NoDup (failed_series w').
Proof.
  cbv zeta. split; [reflexivity|]. split; [reflexivity|].
  apply (@not_found_series_is_recorded_twice String.eqb
           (Example.no_filter true) Example.goal_1 Example.target_1_1
           Example.indicator_1_1_1 Example.meta_1
           (goal_thumbnail Example.meta_1) Example.poverty_day Example.fresh
           (snd (find_online_item String.eqb
                   (p_title (Example.card Example.poverty_day))
                   (announced Example.indicator_1_1_1 Example.poverty_day
                              Example.fresh))));
    [reflexivity | reflexivity | vm_compute; reflexivity].
Defined.

(** ** C7: the thumbnail of a goal *)

Lemma find_goal_metadata_found records code n r cur w :
  PyStr.to_int code = Some n ->
  goal_record records n = Some r ->
  find_goal_metadata records code cur w = (Ok (Some r), w).
Proof.
  intros Hn. unfold goal_record.
  induction records as [|x records IH]; simpl; [discriminate|].
  rewrite Hn. destruct (gm_goal x =? n)%Z.
  - intro E. now inversion E.
  - exact IH.
Qed.

Lemma find_goal_metadata_absent records code n cur w :
  PyStr.to_int code = Some n ->
  goal_record records n = None ->
  find_goal_metadata records code cur w = (Ok cur, w).
Proof.
  intros Hn. unfold goal_record.
  induction records as [|x records IH]; simpl; [reflexivity|].
  rewrite Hn. destruct (gm_goal x =? n)%Z; [discriminate | exact IH].
Qed.

(** C7, as stated, fails for a goal that the display metadata does not list:
    the walk then goes on with the record of the goal processed before it, so
    the items of goal 2 get the icon of goal 1 and not the fallback; and when
    no goal was processed before, the walk ends in an exception. *)
Lemma thumbnail_of_goal_absent_from_metadata :
  let w :=
    mkWorld [Example.service_item 0 Example.goal_2 Example.target_2_1
               Example.indicator_2_1_1 Example.hunger]
            1 [] [] (Some [Example.meta_1]) [] [] 0 [] in
  let after json_data :=
    snd (process_sdg_information String.eqb (Example.no_filter true)
           json_data w) in
  goal_record [Example.meta_1] 2 = None /\
  map it_thumbnail (items (after [Example.goal_1; Example.goal_2]))
  = ["https://example.org/goal-1.png"] /\
  map it_thumbnail (items (after [Example.goal_1; Example.goal_2]))
  <> [default_thumbnail] /\
  after [Example.goal_2]
  = set_console [Traceback (UnboundLocalError "goal_metadata")] w.
Proof.
  cbv zeta. split; [reflexivity|]. split; [vm_compute; reflexivity|].
  split; [vm_compute; discriminate | vm_compute; reflexivity].
Qed.

(** ** C2: the filters *)

(** With a [str] as goal filter every goal is skipped, or its code makes
    [int()] fail: the loop over the goals leaves the state as it found it. *)
Lemma str_goal_code_selects_no_goal tm F md json_data s :
  goal_code F = PyStr s ->
  forall cur w,
    process_goals tm F md cur json_data w = (Ok Normal, w) \/
    process_goals tm F md cur json_data w = (Raise ValueError, w).
Proof.
  intro HF. induction json_data as [|goal rest IH]; intros cur w;
    cbn [process_goals]; [left; reflexivity|].
  unfold bind at 1, process_goal, bind at 1, int_code_differs.
  rewrite HF. cbn [is_none].
  destruct (PyStr.to_int (g_code goal)) as [n|]; cbn; [apply IH|].
  right. reflexivity.
Qed.

(** Without an indicator filter the series filter is not consulted. *)
Lemma series_filter_needs_indicator_filter F series :
  truthy (indicator_code F) = false -> series_selected F series.
Proof. intro H. unfold series_selected. now rewrite H. Qed.

(** A target filter makes [int()] fail on a target code that is no integer
    literal, before the target is looked at. *)
Lemma target_filter_on_dotted_code tm F goal gm thumbnail target w :
  is_none (target_code F) = false ->
  PyStr.to_int (t_code target) = None ->
  process_target tm F goal gm thumbnail target w = (Raise ValueError, w).
Proof.
  intros HF Hcode. unfold process_target, bind, int_code_differs.
  now rewrite HF, Hcode.
Qed.

(** C2 at the calls that the script documents.  With [goal_code='1'] no goal
    is selected, since an [int] differs from every [str]; with the numeric
    goal code and no indicator filter the series filter is ignored; and a
    target filter ends the walk in [ValueError]. *)
Theorem filters_at_the_documented_calls :
  let run F :=
    snd (process_sdg_information String.eqb F Example.json_data
           (Example.published [])) in
  processed_series
    (run (mkFilters (PyStr "1") PyNone PyNone (PyStr "SI_POV_DAY1") true))
  = [] /\
  processed_series
    (run (mkFilters (PyInt 1) PyNone PyNone (PyStr "SI_POV_DAY1") true))
  = ["SI_POV_DAY1"; "SI_POV_EMP1"] /\
  run (mkFilters PyNone PyNone (PyStr "1.1") PyNone true)
  = set_console [Traceback ValueError] (Example.published []) /\
  processed_series
    (run (mkFilters (PyInt 1) (PyStr "1.1.1") PyNone (PyStr "SI_POV_DAY1")
            true))
  = ["SI_POV_DAY1"].
Proof.
  cbv zeta. repeat split; vm_compute; reflexivity.
Qed.

(** ** C3: publishing twice *)

Lemma quiet_analyze_request id :
  preserves only_console_and_calls (analyze_request id).
Proof.
  intro w. unfold analyze_request, remote.
  repeat match goal with
         | |- context [match ?x with _ => _ end] => destruct x
         end; repeat split.
Qed.

(** The analysis answers with parameters or with [None]; it never raises and
    it changes nothing but the console and the request counter. *)
Lemma analyze_csv_total id w :
  exists r w',
    analyze_csv id w = (Ok r, w') /\ only_console_and_calls w w'.
Proof.
  unfold analyze_csv, try_except, bind.
  pose proof (quiet_analyze_request id w) as Q.
  destruct (analyze_request id w) as [[fields|e] w1]; cbn [snd] in Q.
  - eexists _, _. split; [reflexivity | exact Q].
  - eexists _, _. split; [reflexivity|].
    eapply only_console_and_calls_trans; [exact Q|]. repeat split.
Qed.

(** The name that line 362 reads is bound nowhere. *)
Lemma publishParameters_unbound :
  load_name publish_csv_locals "publishParameters"
  = raise (NameError "publishParameters").
Proof. reflexivity. Qed.

(** Whenever the raw CSV item is not found, [publish_csv] returns [None]:
    the request that derives the service is never issued, and the catalog
    gains at most the CSV item. *)
Lemma publish_csv_without_raw_item tm indicator series props thumbnail w w1 :
  find_online_item tm
    (s_code series ++ "_" ++ PyStr.replace "." "" (s_release series))%string
    w = (Ok None, w1) ->
  let r := publish_csv tm indicator series props thumbnail w in
  fst r = Ok None /\
  (items (snd r) = items w \/
   exists it, items (snd r) = items w ++ [it] /\ it_type it = "CSV").
Proof.
  intros Hfind r. subst r.
  pose proof (quiet_find_online_item tm
                (s_code series ++ "_"
                   ++ PyStr.replace "." "" (s_release series))%string w) as Q.
  rewrite Hfind in Q. destruct Q as [Hi [Hn [_ [_ [_ [_ Hf]]]]]].
  cbn [snd] in Hi, Hn, Hf.
  cut (exists w',
         publish_csv tm indicator series props thumbnail w = (Ok None, w') /\
         (items w' = items w \/
          exists it, items w' = items w ++ [it] /\ it_type it = "CSV")).
  { intros [w' [E H]]. rewrite E. split; [reflexivity | exact H]. }
  unfold publish_csv, try_except. cbv zeta.
  unfold bind at 1, isfile. cbv beta iota.
  destruct (existsb _ (files w));
    [|eexists; split; [reflexivity | left; reflexivity]].
  unfold bind at 1. cbv beta iota delta [p_title]. rewrite Hfind.
  unfold bind at 1, print at 1, output at 1. cbv beta iota.
  unfold bind at 1, content_add, remote. cbv beta iota zeta.
  cbn [calls faults set_console].
  destruct (existsb _ (faults w1)).
  { eexists; split; [reflexivity|]. left. exact Hi. }
  unfold bind at 1, print at 1, output at 1. cbv beta iota.
  unfold bind at 1. cbv beta iota.
  match goal with
  | |- context [analyze_csv ?id ?w0] =>
      destruct (analyze_csv_total id w0) as [res [w2 [E Q]]]; rewrite E
  end.
  destruct Q as [Hi2 _]. cbn in Hi2.
  destruct res as [pp|]; cbv beta iota.
  - rewrite publishParameters_unbound.
    eexists; split; [reflexivity|]. right. eexists. cbn. rewrite Hi2, Hi.
    split; reflexivity.
  - eexists; split; [reflexivity|]. right. eexists. cbn. rewrite Hi2, Hi.
    split; reflexivity.
Qed.

(** C3 on a fresh catalog with the data file in place.  The name
    [publishParameters] is bound nowhere, so the first run stops after the
    analysis with [NameError], which the function's own handler swallows: the
    CSV item exists, no service was derived, and the result is [None].  The
    second run finds and updates the CSV item by its normalized title, finds
    no service under the card title, and returns [None] again. *)
Theorem full_publish_twice :
  let thumbnail := goal_thumbnail Example.meta_1 in
  let publish :=
    publish_csv String.eqb Example.indicator_1_1_1 Example.poverty_day
      (Example.card Example.poverty_day) thumbnail in
  let first := publish Example.fresh in
  let second := publish (snd first) in
  load_name publish_csv_locals "publishParameters"
  = raise (NameError "publishParameters") /\
  fst first = Ok None /\
  map (fun it => (it_id it, it_title it, it_type it)) (items (snd first))
  = [(0, "SI_POV_DAY1_20201", "CSV")] /\
  In (PrintedUnexpected (NameError "publishParameters"))
     (console (snd first)) /\
  fst second = Ok None /\
  map (fun it => (it_id it, it_title it, it_type it)) (items (snd second))
  = [(0, "SI_POV_DAY1_20201", "CSV")].
Proof.
  cbv zeta. split; [reflexivity|].
  split; [vm_compute; reflexivity|]. split; [vm_compute; reflexivity|].
  split; [vm_compute; tauto|].
  split; vm_compute; reflexivity.
Qed.

(** * Further properties *)

(** ** get_series_tags *)

Lemma series_tags_in_series_some l series_code tags :
  series_tags_in_series l series_code = Some tags ->
  exists s, In s l /\ ms_series s = series_code /\ ms_tags s = tags.
Proof.
  induction l as [|s l IH]; simpl; [discriminate|].
  destruct (ms_series s =? series_code) eqn:E.
  - intro H. inversion H. apply String.eqb_eq in E. eauto.
  - intro H. destruct (IH H) as [s' [Hin Hs]]. eauto.
Qed.

Lemma series_tags_in_series_none l series_code :
  series_tags_in_series l series_code = None ->
  forall s, In s l -> ms_series s <> series_code.
Proof.
  induction l as [|s l IH]; simpl; [now intros _ s' []|].
  destruct (ms_series s =? series_code) eqn:E; [discriminate|].
  intros H s' [<-|Hin]; [now apply String.eqb_neq | now apply IH].
Qed.

Lemma series_tags_in_indicators_some l indicator_code series_code tags :
  series_tags_in_indicators l indicator_code series_code = Some tags ->
  exists i s,
    In i l /\ mi_indicator i = indicator_code /\
    In s (mi_series i) /\ ms_series s = series_code /\ ms_tags s = tags.
Proof.
  induction l as [|i l IH]; simpl; [discriminate|].
  destruct (mi_indicator i =? indicator_code) eqn:E.
  - destruct (series_tags_in_series (mi_series i) series_code) eqn:Es.
    + intro H. inversion H; subst.
      destruct (series_tags_in_series_some _ _ Es) as [s [Hin [Hc Ht]]].
      apply String.eqb_eq in E. exists i, s. auto.
    + intro H. destruct (IH H) as [i' [s [Hin Hrest]]].
      exists i', s. auto.
  - intro H. destruct (IH H) as [i' [s [Hin Hrest]]]. exists i', s. auto.
Qed.

Lemma series_tags_in_indicators_none l indicator_code series_code :
  series_tags_in_indicators l indicator_code series_code = None ->
  forall i s,
    In i l -> mi_indicator i = indicator_code -> In s (mi_series i) ->
    ms_series s <> series_code.
Proof.
  induction l as [|i l IH]; simpl; [now intros _ i' s []|].
  destruct (mi_indicator i =? indicator_code) eqn:E.
  - destruct (series_tags_in_series (mi_series i) series_code) eqn:Es;
      [discriminate|].
    intros H i' s [<-|Hin] Hi Hs.
    + eapply series_tags_in_series_none; eassumption.
    + eapply IH; eassumption.
  - intros H i' s [<-|Hin] Hi Hs.
    + apply String.eqb_neq in E. contradiction.
    + eapply IH; eassumption.
Qed.

Lemma series_tags_in_targets_some l indicator_code target_code series_code
    tags :
  series_tags_in_targets l indicator_code target_code series_code
    = Some tags ->
  exists t i s,
    In t l /\ mt_target t = target_code /\
    In i (mt_indicators t) /\ mi_indicator i = indicator_code /\
    In s (mi_series i) /\ ms_series s = series_code /\ ms_tags s = tags.
Proof.
  induction l as [|t l IH]; simpl; [discriminate|].
  destruct (mt_target t =? target_code) eqn:E.
  - destruct (series_tags_in_indicators (mt_indicators t) indicator_code
                series_code) eqn:Ei.
    + intro H. inversion H; subst.
      destruct (series_tags_in_indicators_some _ _ _ Ei)
        as [i [s [Hin Hrest]]].
      apply String.eqb_eq in E. exists t, i, s. auto.
    + intro H. destruct (IH H) as [t' [i [s [Hin Hrest]]]].
      exists t', i, s. auto.
  - intro H. destruct (IH H) as [t' [i [s [Hin Hrest]]]].
    exists t', i, s. auto.
Qed.

Lemma series_tags_in_targets_none l indicator_code target_code series_code :
  series_tags_in_targets l indicator_code target_code series_code = None ->
  forall t i s,
    In t l -> mt_target t = target_code ->
    In i (mt_indicators t) -> mi_indicator i = indicator_code ->
    In s (mi_series i) -> ms_series s <> series_code.
Proof.
  induction l as [|t l IH]; simpl; [now intros _ t' i s []|].
  destruct (mt_target t =? target_code) eqn:E.
  - destruct (series_tags_in_indicators (mt_indicators t) indicator_code
                series_code) eqn:Ei; [discriminate|].
    intros H t' i s [<-|Hin] Ht Hi Hic Hs.
    + eapply series_tags_in_indicators_none; eassumption.
    + eapply IH; eassumption.
  - intros H t' i s [<-|Hin] Ht Hi Hic Hs.
    + apply String.eqb_neq in E. contradiction.
    + eapply IH; eassumption.
Qed.

(** X1: [get_series_tags] returns the tags of a series record that is
    reached through the target code, the indicator code and the series code,
    whenever the goal's display metadata holds such a record; it returns the
    empty list exactly when it holds none (or when the record found has no
    tags). *)
Theorem get_series_tags_finds_a_matching_record (goal_metadata : GoalMeta)
    (indicator_code target_code series_code : string) :
  let tags :=
    get_series_tags goal_metadata indicator_code target_code series_code in
  tag_path goal_metadata indicator_code target_code series_code tags \/
  (tags = [] /\
   forall other,
     ~ tag_path goal_metadata indicator_code target_code series_code other).
Proof.
  cbv zeta. unfold get_series_tags.
  destruct (series_tags_in_targets (gm_targets goal_metadata) indicator_code
              target_code series_code) as [tags|] eqn:E.
  - left. apply series_tags_in_targets_some in E.
    destruct E as [t [i [s H]]]. exists t, i, s. exact H.
  - right. split; [reflexivity|].
    intros other [t [i [s [Ht [Htc [Hi [Hic [Hs [Hsc _]]]]]]]]].
    eapply series_tags_in_targets_none; eassumption.
Qed.

(** ** find_online_item *)

Lemma find_online_item_run tm title w :
  request_succeeds w ->
  find_online_item tm title w
  = (Ok (exact_title_hit tm title (items w)),
     set_calls (S (calls w))
       (set_console (console w ++ [PrintedSearching title]) w)).
Proof.
  unfold request_succeeds. intro H.
  unfold find_online_item, try_except, bind, output, content_search, remote.
  cbn [calls faults set_console]. rewrite H. reflexivity.
Qed.

Lemma find_online_item_fault tm title w :
  existsb (Nat.eqb (calls w)) (faults w) = true ->
  find_online_item tm title w
  = (Ok None,
     set_console
       (console w ++ [PrintedSearching title; PrintedUnexpected RemoteError])
       (set_calls (S (calls w)) w)).
Proof.
  intro H.
  unfold find_online_item, try_except, bind, output, content_search, remote.
  cbn [calls faults set_console]. rewrite H.
  unfold ret, set_console, set_calls; cbn. now rewrite <- app_assoc.
Qed.

Lemma exact_title_hit_sound tm title catalog id :
  exact_title_hit tm title catalog = Some id ->
  exists it, In it catalog /\ it_id it = id /\ it_title it = title.
Proof.
  unfold exact_title_hit.
  induction catalog as [|it catalog IH]; cbn [filter map first_exact_title];
    [discriminate|].
  destruct (tm title (it_title it)); cbn [map first_exact_title].
  - destruct (it_title it =? title) eqn:E.
    + intro H. inversion H. apply String.eqb_eq in E.
      exists it. repeat split; auto. now left.
    + intro H. destruct (IH H) as [it' [Hin Hit]]. exists it'. split; auto.
      now right.
  - intro H. destruct (IH H) as [it' [Hin Hit]]. exists it'. split; auto.
    now right.
Qed.

Lemma exact_title_hit_complete tm title catalog :
  tm title title = true ->
  exact_title_hit tm title catalog
  = option_map it_id (find (fun it => it_title it =? title) catalog).
Proof.
  intro Hrefl. unfold exact_title_hit.
  induction catalog as [|it catalog IH]; cbn [filter map first_exact_title find];
    [reflexivity|].
  destruct (it_title it =? title) eqn:E.
  - apply String.eqb_eq in E. rewrite E, Hrefl.
    cbn [map first_exact_title]. rewrite E, String.eqb_refl. reflexivity.
  - destruct (tm title (it_title it)); cbn [map first_exact_title].
    + rewrite E. exact IH.
    + exact IH.
Qed.

(** X2: the search for an item never raises, issues exactly one request and
    changes nothing but the console and the request counter; an answer other
    than [None] is the identity of a catalog item whose title is exactly the
    title asked for. *)
Theorem find_online_item_answers_with_an_exact_match
    (title_matches : string -> string -> bool) (title : string) (w : World) :
  exists r w',
    find_online_item title_matches title w = (Ok r, w') /\
    only_console_and_calls w w' /\
    calls w' = S (calls w) /\
    match r with
    | Some id =>
        exists it, In it (items w) /\ it_id it = id /\ it_title it = title
    | None => True
    end.
Proof.
  destruct (existsb (Nat.eqb (calls w)) (faults w)) eqn:E.
  - rewrite (find_online_item_fault title_matches title w E).
    eexists _, _. split; [reflexivity|]. repeat split.
  - rewrite (find_online_item_run title_matches title E).
    eexists _, _. split; [reflexivity|]. split; [repeat split|].
    split; [reflexivity|].
    destruct (exact_title_hit title_matches title (items w)) as [id|] eqn:H;
      [|exact I].
    now apply exact_title_hit_sound with (tm := title_matches).
Qed.

(** X3: when the request succeeds and the catalog's matching returns at
    least the items whose title is the query itself, the search answers with
    the first catalog item that carries the title, and with [None] when no
    item carries it. *)
Theorem find_online_item_finds_the_first_item_with_the_title
    (title_matches : string -> string -> bool) (title : string) (w : World) :
  request_succeeds w ->
  title_matches title title = true ->
  fst (find_online_item title_matches title w)
  = Ok (option_map it_id
          (find (fun it => it_title it =? title) (items w))).
Proof.
  intros Hreq Hrefl.
  rewrite (find_online_item_run title_matches title Hreq). cbn [fst].
  now rewrite exact_title_hit_complete.
Qed.

(** X3 on the example catalog. *)
Lemma find_online_item_finds_witness :
  let title := p_title (Example.card Example.poverty_day) in
  request_succeeds (Example.published []) /\
  String.eqb title title = true /\
  fst (find_online_item String.eqb title (Example.published []))
  = Ok (option_map it_id
          (find (fun it => it_title it =? title)
                (items (Example.published [])))).
Proof.
  cbv zeta. split; [reflexivity|]. split; [reflexivity|].
  apply find_online_item_finds_the_first_item_with_the_title; reflexivity.
Defined.

(** X4: without scheduled faults, searching twice in a row for the same
    title gives the same answer: the search is repeatable. *)
Theorem find_online_item_is_repeatable
    (title_matches : string -> string -> bool) (title : string) (w : World) :
  faults w = [] ->
  let first := find_online_item title_matches title w in
  fst (find_online_item title_matches title (snd first)) = fst first.
Proof.
  intros Hf first. subst first.
  assert (H1 : request_succeeds w)
    by (unfold request_succeeds; now rewrite Hf).
  rewrite (find_online_item_run title_matches title H1). cbn [fst snd].
  rewrite find_online_item_run; [reflexivity|].
  unfold request_succeeds. cbn. now rewrite Hf.
Qed.

(** X4 on the example catalog. *)
Lemma find_online_item_repeatable_witness :
  let title := p_title (Example.card Example.poverty_day) in
  let first := find_online_item String.eqb title (Example.published []) in
  faults (Example.published []) = [] /\
  fst (find_online_item String.eqb title (snd first)) = fst first.
Proof.
  cbv zeta. split; [reflexivity|].
  apply find_online_item_is_repeatable. reflexivity.
Defined.

(** ** analyze_csv *)

Lemma patch_field_keeps_the_column (column : Field) :
  f_name (patch_field column) = f_name column /\
  f_alias (patch_field column) = set_field_alias (f_name column) /\
  (if f_name column =? "indicator"
   then f_type (patch_field column) = "esriFieldTypeString" /\
        f_sqlType (patch_field column) = "sqlTypeNVarchar"
   else f_type (patch_field column) = f_type column /\
        f_sqlType (patch_field column) = f_sqlType column).
Proof.
  unfold patch_field.
  destruct (f_name column =? "indicator"); repeat split.
Qed.

(** X5: the analysis never raises and changes nothing but the console and
    the request counter.  When it answers with publish parameters, the item
    has an uploaded file known to the service, the parameters list the file's
    columns in order under their own names, every column has the alias that
    [set_field_alias] gives to its name, the column named [indicator] is
    typed as a string and every other column keeps its type, and the display
    field is [geoAreaName]. *)
Theorem analyze_csv_patches_every_column (item_id : nat) (w : World) :
  exists r w',
    analyze_csv item_id w = (Ok r, w') /\
    only_console_and_calls w w' /\
    match r with
    | None => True
    | Some pp =>
        pp_displayField pp = Some "geoAreaName" /\
        exists it file columns,
          find_item item_id (items w) = Some it /\
          it_data it = Some file /\
          In (file, columns) (files w) /\
          map f_name (pp_fields pp) = map f_name columns /\
          Forall2
            (fun column field =>
               f_alias field = set_field_alias (f_name column) /\
               if f_name column =? "indicator"
               then f_type field = "esriFieldTypeString" /\
                    f_sqlType field = "sqlTypeNVarchar"
               else f_type field = f_type column /\
                    f_sqlType field = f_sqlType column)
            columns (pp_fields pp)
    end.
Proof.
  unfold analyze_csv, try_except, bind, analyze_request, remote.
  destruct (existsb (Nat.eqb (calls w)) (faults w)).
  { eexists _, _. split; [reflexivity|]. split; [repeat split | exact I]. }
  cbn [items files set_calls].
  destruct (find_item item_id (items w)) as [it|] eqn:Eit;
    [|eexists _, _; split; [reflexivity|]; split; [repeat split | exact I]].
  destruct (it_data it) as [file|] eqn:Edata;
    [|eexists _, _; split; [reflexivity|]; split; [repeat split | exact I]].
  destruct (find (fun p => fst p =? file) (files w)) as [[file' columns]|]
    eqn:Efile;
    [|eexists _, _; split; [reflexivity|]; split; [repeat split | exact I]].
  eexists _, _. split; [reflexivity|]. split; [repeat split|].
  cbn [pp_displayField pp_fields snd]. split; [reflexivity|].
  exists it, file, columns.
  apply find_some in Efile. destruct Efile as [Hin Heq].
  cbn [fst] in Heq. apply String.eqb_eq in Heq. subst file'.
  repeat split; trivial.
  - rewrite map_map. apply map_ext. intro c.
    apply patch_field_keeps_the_column.
  - clear. induction columns as [|c columns IH]; cbn [map]; constructor;
      [|exact IH].
    destruct (patch_field_keeps_the_column c) as [_ [Ha Ht]].
    split; assumption.
Qed.

(** ** publish_csv *)

(** The data file of a series, for a series code that is no absolute path. *)
Lemma data_file_path (code : string) :
  (forall rest, code <> String "/" rest) ->
  PyStr.path_join "FIS4SDGs/csv/" (code ++ "_cube.pivot.csv")
  = ("FIS4SDGs/csv/" ++ code ++ "_cube.pivot.csv")%string.
Proof.
  intro H. destruct code as [|c rest]; [reflexivity|].
  destruct (Ascii.eqb c "/") eqn:E.
  - apply Ascii.eqb_eq in E. subst c. now elim (H rest).
  - destruct c as [[|] [|] [|] [|] [|] [|] [|] [|]];
      try reflexivity; discriminate.
Qed.

(** X6: for a series code that does not begin with a slash, the data file is
    [FIS4SDGs/csv/<code>_cube.pivot.csv]; when that file does not exist,
    [publish_csv] returns [None] at once: it issues no request, prints
    nothing and leaves the ledger alone. *)
Theorem publish_csv_without_data_file
    (title_matches : string -> string -> bool) (indicator : Indicator)
    (series : Series) (props : Props) (thumbnail : string) (w : World) :
  (forall rest, s_code series <> String "/" rest) ->
  (forall columns,
     ~ In (("FIS4SDGs/csv/" ++ s_code series ++ "_cube.pivot.csv")%string,
           columns) (files w)) ->
  publish_csv title_matches indicator series props thumbnail w = (Ok None, w).
Proof.
  intros Hcode Habsent.
  unfold publish_csv, try_except. cbv zeta.
  unfold bind at 1, isfile. cbv beta iota.
  rewrite (data_file_path Hcode).
  destruct (existsb _ (files w)) eqn:E; [|reflexivity].
  apply existsb_exists in E. destruct E as [[file columns] [Hin Heq]].
  cbn [fst] in Heq. apply String.eqb_eq in Heq. subst file.
  now elim (Habsent columns).
Qed.

(** X6 on the example: the second series has no data file. *)
Lemma publish_csv_without_data_file_witness :
  (forall rest, s_code Example.poverty_emp <> String "/" rest) /\
  (forall columns,
     ~ In (("FIS4SDGs/csv/" ++ s_code Example.poverty_emp
              ++ "_cube.pivot.csv")%string, columns)
          (files Example.fresh)) /\
  publish_csv String.eqb Example.indicator_1_1_1 Example.poverty_emp
    (Example.card Example.poverty_emp) "" Example.fresh
  = (Ok None, Example.fresh).
Proof.
  assert (H1 : forall rest, s_code Example.poverty_emp <> String "/" rest)
    by (intros rest; discriminate).
  assert (H2 : forall columns,
             ~ In (("FIS4SDGs/csv/" ++ s_code Example.poverty_emp
                      ++ "_cube.pivot.csv")%string, columns)
                  (files Example.fresh)).
  { intros columns [H|[]]. discriminate. }
  split; [exact H1|]. split; [exact H2|].
  apply publish_csv_without_data_file; assumption.
Defined.

Lemma find_item_modify_item id f l :
  (forall it, it_id (f it) = it_id it) ->
  find_item id (modify_item id f l) = option_map f (find_item id l).
Proof.
  intro Hf. unfold find_item, modify_item.
  induction l as [|it l IH]; cbn [map find option_map]; [reflexivity|].
  destruct (it_id it =? id)%nat eqn:E.
  - now rewrite Hf, E.
  - now rewrite E.
Qed.

Lemma find_item_modify_other id id' f l :
  (forall it, it_id (f it) = it_id it) ->
  id <> id' ->
  find_item id (modify_item id' f l) = find_item id l.
Proof.
  intros Hf Hne. unfold find_item, modify_item.
  induction l as [|it l IH]; cbn [map find]; [reflexivity|].
  destruct (it_id it =? id')%nat eqn:E'.
  - rewrite Hf. apply Nat.eqb_eq in E'.
    destruct (it_id it =? id)%nat eqn:E; [|exact IH].
    apply Nat.eqb_eq in E. congruence.
  - destruct (it_id it =? id)%nat; [reflexivity | exact IH].
Qed.

Lemma item_ids_modify_item id f l :
  (forall it, it_id (f it) = it_id it) ->
  map it_id (modify_item id f l) = map it_id l.
Proof.
  intro Hf. unfold modify_item. rewrite map_map. apply map_ext.
  intro it. destruct (it_id it =? id)%nat; [apply Hf | reflexivity].
Qed.

(** *** The identities of the items *)

Lemma same_item_ids_refl w : same_item_ids w w.
Proof. reflexivity. Qed.

Lemma same_item_ids_trans a b c :
  same_item_ids a b -> same_item_ids b c -> same_item_ids a c.
Proof. unfold same_item_ids; congruence. Qed.

Lemma never_deletes_refl w : never_deletes w w.
Proof. exists []. now rewrite app_nil_r. Qed.

Lemma never_deletes_trans a b c :
  never_deletes a b -> never_deletes b c -> never_deletes a c.
Proof.
  intros [l1 H1] [l2 H2]. exists (l1 ++ l2). now rewrite H2, H1, app_assoc.
Qed.

Lemma same_item_ids_never_deletes {A} (m : M A) :
  preserves same_item_ids m -> preserves never_deletes m.
Proof.
  intros H w. exists []. rewrite app_nil_r. apply H.
Qed.

Ltac same_items_tac :=
  unfold preserves; intros; unfold same_item_ids, item_ids;
  cbv beta delta [remote bind ret raise]; simpl;
  repeat match goal with
         | |- context [match ?x with _ => _ end] => destruct x; simpl
         end;
  reflexivity.

Lemma same_ids_item_update id props thumbnail data :
  preserves same_item_ids (item_update id props thumbnail data).
Proof.
  intro w. unfold same_item_ids, item_ids, item_update, remote.
  destruct (existsb _ _); cbn; [reflexivity|].
  now apply item_ids_modify_item.
Qed.

Lemma same_ids_item_move id folder :
  preserves same_item_ids (item_move id folder).
Proof.
  intro w. unfold same_item_ids, item_ids, item_move, remote.
  destruct (existsb _ _); cbn; [reflexivity|].
  now apply item_ids_modify_item.
Qed.

Lemma same_ids_item_share id sh :
  preserves same_item_ids (item_share id sh).
Proof.
  intro w. unfold same_item_ids, item_ids, item_share, remote.
  destruct (existsb _ _); cbn; [reflexivity|].
  now apply item_ids_modify_item.
Qed.

Lemma same_ids_find_goal_metadata md code cur :
  preserves same_item_ids (find_goal_metadata md code cur).
Proof.
  induction md as [|r md IH]; intro w; simpl; [reflexivity|].
  destruct (PyStr.to_int code); [|reflexivity].
  destruct (gm_goal r =? z)%Z; [reflexivity | apply IH].
Qed.

Ltac same_ids_leaf :=
  first
    [ exact same_item_ids_refl
    | exact same_item_ids_trans
    | apply same_ids_item_update
    | apply same_ids_item_move
    | apply same_ids_item_share
    | apply same_ids_find_goal_metadata
    | solve [ unfold output, failed_series_append, owner_folder,
                group_update_tags, isfile, get_metadata, load_name,
                content_search, analyze_request, int_code_differs;
              same_items_tac ] ].

Lemma never_deletes_content_add props thumbnail file :
  preserves never_deletes (content_add props thumbnail file).
Proof.
  intro w. unfold never_deletes, item_ids, content_add, remote.
  destruct (existsb _ _); cbn [snd items set_items set_next_id set_calls].
  - exists []. now rewrite app_nil_r.
  - eexists. rewrite map_app. reflexivity.
Qed.

Lemma never_deletes_item_publish id pp :
  preserves never_deletes (item_publish id pp).
Proof.
  intro w. unfold never_deletes, item_ids, item_publish, remote.
  destruct (existsb _ _); cbn [snd items set_calls];
    [exists []; now rewrite app_nil_r|].
  destruct (find_item id (items w));
    cbn [snd items set_items set_next_id set_calls].
  - eexists. rewrite map_app. reflexivity.
  - exists []. now rewrite app_nil_r.
Qed.

Ltac never_deletes_leaf :=
  first
    [ exact never_deletes_refl
    | exact never_deletes_trans
    | apply never_deletes_content_add
    | apply never_deletes_item_publish
    | apply same_item_ids_never_deletes; same_ids_leaf ].

(** *** The branch of [publish_csv] for a raw item that exists *)

Lemma find_online_item_total tm title w :
  exists r w1,
    find_online_item tm title w = (Ok r, w1) /\ only_console_and_calls w w1.
Proof.
  destruct (existsb (Nat.eqb (calls w)) (faults w)) eqn:E.
  - rewrite (find_online_item_fault tm title w E).
    eexists _, _. split; [reflexivity | repeat split].
  - rewrite (find_online_item_run tm title E).
    eexists _, _. split; [reflexivity | repeat split].
Qed.

Lemma publish_csv_found_run tm indicator series props thumbnail w w1
    csv_item :
  existsb
    (fun p => fst p =? PyStr.path_join "FIS4SDGs/csv/"
                         (s_code series ++ "_cube.pivot.csv"))
    (files w) = true ->
  find_online_item tm
    (s_code series ++ "_" ++ PyStr.replace "." "" (s_release series))%string
    w = (Ok (Some csv_item), w1) ->
  publish_csv tm indicator series props thumbnail w
  = try_except
      (item_update csv_item
         (mkProps
            (s_code series ++ "_"
               ++ PyStr.replace "." "" (s_release series))%string
            (p_snippet props) (p_description props) (p_tags props)
            (Some "CSV") (Some ""))
         thumbnail
         (Some (PyStr.path_join "FIS4SDGs/csv/"
                  (s_code series ++ "_cube.pivot.csv"))) ;;
       csv_lyr <- find_online_item tm (p_title props) ;;
       match csv_lyr with
       | None => ret None
       | Some _ => publish_csv_finish csv_item csv_lyr props thumbnail
       end)
      (fun e => output (PrintedUnexpected e) ;; ret None) w1.
Proof.
  intros Hfile Hfind.
  unfold publish_csv, try_except. cbv zeta.
  unfold bind at 1, isfile. cbv beta iota. rewrite Hfile.
  unfold bind at 1. cbv beta iota delta [p_title]. rewrite Hfind.
  reflexivity.
Qed.

Lemma same_ids_publish_csv_finish csv_item csv_lyr props thumbnail :
  preserves same_item_ids
    (publish_csv_finish csv_item csv_lyr props thumbnail).
Proof.
  unfold publish_csv_finish, move_to_open_data, print.
  preserves_structure same_ids_leaf.
Qed.

(** X7: [publish_csv] never raises and never writes the group's tags.  It
    never deletes an item: either the catalog holds the same items as
    before, in the same order, or exactly one item was added at its end, and
    that item is a CSV item. *)
Theorem publish_csv_footprint
    (title_matches : string -> string -> bool) (indicator : Indicator)
    (series : Series) (props : Props) (thumbnail : string) (w : World) :
  exists r w',
    publish_csv title_matches indicator series props thumbnail w
    = (Ok r, w') /\
    group_tags w' = group_tags w /\
    (item_ids w' = item_ids w \/
     exists it, items w' = items w ++ [it] /\ it_type it = "CSV").
Proof.
  pose proof (keeps_publish_csv title_matches indicator series props
                thumbnail w) as G.
  unfold same_group_tags in G.
  destruct (existsb
              (fun p => fst p =? PyStr.path_join "FIS4SDGs/csv/"
                                   (s_code series ++ "_cube.pivot.csv"))
              (files w)) eqn:Hfile.
  - destruct (find_online_item_total title_matches
                (s_code series ++ "_"
                   ++ PyStr.replace "." "" (s_release series))%string w)
      as [[csv_item|] [w1 [Hfind Q]]].
    + rewrite (publish_csv_found_run title_matches indicator series props
                 thumbnail w Hfile Hfind) in *.
      match goal with
      | |- context [try_except ?m ?h w1] =>
          assert (P : preserves same_item_ids (try_except m h))
            by (pose proof same_ids_publish_csv_finish;
                preserves_structure
                  ltac:(first [ same_ids_leaf
                              | apply same_ids_publish_csv_finish
                              | intro w0;
                                unfold same_item_ids, item_ids;
                                destruct (quiet_find_online_item
                                            title_matches (p_title props) w0)
                                  as [Hi _]; now rewrite Hi ]));
          specialize (P w1);
          assert (T : exists r w', try_except m h w1 = (Ok r, w'))
            by (unfold try_except; destruct (m w1) as [[r|e] w2];
                eexists _, _; reflexivity)
      end.
      destruct T as [r [w' E]]. rewrite E in *. cbn [snd] in *.
      exists r, w'. split; [reflexivity|]. split; [exact G|]. left.
      unfold same_item_ids, item_ids in *.
      destruct Q as [Hi _]. now rewrite P, Hi.
    + destruct (publish_csv_without_raw_item title_matches indicator series
                  props thumbnail w Hfind) as [Hr Hitems].
      destruct (publish_csv title_matches indicator series props thumbnail
                  w) as [o w'].
      cbn [fst snd] in *. subst o.
      exists None, w'. split; [reflexivity|]. split; [exact G|].
      destruct Hitems as [Hi|Hadd]; [left | right; exact Hadd].
      unfold item_ids. now rewrite Hi.
  - assert (E : publish_csv title_matches indicator series props thumbnail w
                = (Ok None, w)).
    { unfold publish_csv, try_except. cbv zeta.
      unfold bind at 1, isfile. cbv beta iota. now rewrite Hfile. }
    rewrite E. exists None, w. repeat split. now left.
Qed.

(** *** What a returned service item looks like *)

Lemma move_to_open_data_files id message w w' :
  move_to_open_data id message w = (Ok tt, w') ->
  exists it it',
    find_item id (items w) = Some it /\
    find_item id (items w') = Some it' /\
    it_ownerFolder it' <> None /\
    (forall props thumbnail,
       carries_card props thumbnail it -> carries_card props thumbnail it').
Proof.
  unfold move_to_open_data, bind, owner_folder.
  destruct (find_item id (items w)) as [it|] eqn:Eit; [|discriminate].
  destruct (it_ownerFolder it) as [folder|] eqn:Efolder.
  - intro H. inversion H; subst w'. exists it, it.
    split; [reflexivity|]. split; [exact Eit|]. split; [congruence|].
    intros props thumbnail C. exact C.
  - unfold print, output, item_move, remote.
    cbn [calls faults set_console].
    destruct (existsb _ _); [discriminate|].
    intro H. inversion H; subst w'. clear H.
    cbn [items set_items set_calls set_console].
    rewrite find_item_modify_item by reflexivity. rewrite Eit.
    eexists it, _. split; [reflexivity|]. split; [reflexivity|].
    split; [discriminate|]. intros props thumbnail C. exact C.
Qed.

Lemma publish_csv_finish_returns csv_item csv_lyr props thumbnail w w' lyr :
  publish_csv_finish csv_item csv_lyr props thumbnail w
  = (Ok (Some lyr), w') ->
  exists it,
    find_item lyr (items w') = Some it /\
    carries_card props thumbnail it /\
    it_ownerFolder it <> None.
Proof.
  unfold publish_csv_finish. unfold bind at 1.
  destruct (move_to_open_data csv_item _ w) as [[[]|e] w1];
    [|discriminate].
  destruct csv_lyr as [l|]; [|discriminate].
  unfold bind at 1, print, output. cbv beta iota.
  unfold bind at 1, item_update, remote. cbn [calls faults set_console].
  destruct (existsb _ _); [discriminate|]. cbv beta iota.
  unfold bind at 1.
  match goal with
  | |- context [move_to_open_data l ?m ?w3] =>
      destruct (move_to_open_data l m w3) as [[[]|e] w4] eqn:E4;
        [|discriminate]
  end.
  intro H. inversion H; subst l w4. clear H.
  destruct (move_to_open_data_files _ _ _ E4)
    as [it [it' [Hit [Hit' [Hfolder Hcard]]]]].
  exists it'. split; [exact Hit'|]. split; [|exact Hfolder].
  apply Hcard.
  cbn [items set_items set_calls set_console] in Hit.
  rewrite find_item_modify_item in Hit by reflexivity.
  destruct (find_item lyr (items w1)) as [it0|]; [|discriminate].
  inversion Hit. repeat split.
Qed.

(** X8: whenever [publish_csv] returns an item, that item is in the catalog,
    it carries the card of the series (title, snippet, description, tags) and
    the thumbnail, and it is filed in a folder. *)
Theorem publish_csv_returns_an_item_with_the_card
    (title_matches : string -> string -> bool) (indicator : Indicator)
    (series : Series) (props : Props) (thumbnail : string) (w w' : World)
    (lyr : nat) :
  publish_csv title_matches indicator series props thumbnail w
  = (Ok (Some lyr), w') ->
  exists it,
    find_item lyr (items w') = Some it /\
    carries_card props thumbnail it /\
    it_ownerFolder it <> None.
Proof.
  intro H.
  destruct (existsb
              (fun p => fst p =? PyStr.path_join "FIS4SDGs/csv/"
                                   (s_code series ++ "_cube.pivot.csv"))
              (files w)) eqn:Hfile.
  - destruct (find_online_item_total title_matches
                (s_code series ++ "_"
                   ++ PyStr.replace "." "" (s_release series))%string w)
      as [[csv_item|] [w1 [Hfind _]]].
    + rewrite (publish_csv_found_run title_matches indicator series props
                 thumbnail w Hfile Hfind) in H.
      unfold try_except in H. unfold bind at 1 in H.
      destruct (item_update csv_item _ thumbnail _ w1) as [[[]|e] w2];
        [|discriminate].
      unfold bind at 1 in H.
      destruct (find_online_item title_matches (p_title props) w2)
        as [[[l|]|e] w3]; try discriminate.
      destruct (publish_csv_finish csv_item (Some l) props thumbnail w3)
        as [[r|e] w4] eqn:E; [|discriminate].
      inversion H; subst r w4.
      exact (publish_csv_finish_returns _ _ _ _ _ E).
    + destruct (publish_csv_without_raw_item title_matches indicator series
                  props thumbnail w Hfind) as [Hr _].
      rewrite H in Hr. discriminate.
  - unfold publish_csv, try_except in H. cbv zeta in H.
    unfold bind at 1, isfile in H. cbv beta iota in H.
    rewrite Hfile in H. discriminate.
Qed.

(** X8 on a catalog that holds the raw item and the service of the first
    example series. *)
Lemma publish_csv_returns_witness :
  let file := "FIS4SDGs/csv/SI_POV_DAY1_cube.pivot.csv" in
  let w :=
    mkWorld
      [ mkItem 0 "SI_POV_DAY1_20201" "" "" [] "CSV" "" "" (Some file)
               None None;
        Example.service_item 1 Example.goal_1 Example.target_1_1
          Example.indicator_1_1_1 Example.poverty_day ]
      2 [] [(file, Example.csv_columns)] (Some [Example.meta_1]) [] [] 0
      [] in
  let run :=
    publish_csv String.eqb Example.indicator_1_1_1 Example.poverty_day
      (Example.card Example.poverty_day) "thumbnail" w in
  run = (Ok (Some 1), snd run) /\
  exists it,
    find_item 1 (items (snd run)) = Some it /\
    carries_card (Example.card Example.poverty_day) "thumbnail" it /\
    it_ownerFolder it <> None.
Proof.
  intros file w run.
  assert (E : run = (Ok (Some 1), snd run)) by (vm_compute; reflexivity).
  split; [exact E|].
  exact (@publish_csv_returns_an_item_with_the_card String.eqb
           Example.indicator_1_1_1 Example.poverty_day
           (Example.card Example.poverty_day) "thumbnail" w (snd run) 1 E).
Defined.

(** ** Relations that the whole walk respects *)

Section WalkPreserves.

Variable title_matches : string -> string -> bool.
Variable R : World -> World -> Prop.

Hypothesis R_refl : forall w, R w w.
Hypothesis R_trans : forall a b c, R a b -> R b c -> R a c.

(** The primitive operations respect [R]. *)
Hypothesis R_plain : forall o, plain_line o -> preserves R (output o).
Hypothesis R_append : forall c, preserves R (failed_series_append c).
Hypothesis R_update :
  forall id props thumbnail data,
    preserves R (item_update id props thumbnail data).
Hypothesis R_move : forall id folder, preserves R (item_move id folder).
Hypothesis R_share : forall id sh, preserves R (item_share id sh).
Hypothesis R_add :
  forall props thumbnail file, preserves R (content_add props thumbnail file).
Hypothesis R_publish : forall id pp, preserves R (item_publish id pp).
Hypothesis R_folder : forall id, preserves R (owner_folder id).
Hypothesis R_group : forall tags, preserves R (group_update_tags tags).
Hypothesis R_isfile : forall file, preserves R (isfile file).
Hypothesis R_load : forall locals name, preserves R (load_name locals name).
Hypothesis R_search :
  forall title, preserves R (content_search title_matches title).
Hypothesis R_analyze : forall id, preserves R (analyze_request id).

Ltac walk_leaf :=
  first
    [ exact R_refl | exact R_trans
    | apply R_plain; split; intros; discriminate
    | apply R_append | apply R_update | apply R_move | apply R_share
    | apply R_add | apply R_publish | apply R_folder | apply R_group
    | apply R_isfile | apply R_load | apply R_search | apply R_analyze ].

Lemma walk_find_online_item title :
  preserves R (find_online_item title_matches title).
Proof. unfold find_online_item. preserves_structure walk_leaf. Qed.

Lemma walk_publish_csv indicator series props thumbnail :
  preserves R (publish_csv title_matches indicator series props thumbnail).
Proof.
  unfold publish_csv, publish_csv_finish, move_to_open_data, analyze_csv,
    find_online_item, print.
  preserves_structure walk_leaf.
Qed.

Lemma walk_publish_or_update F indicator series props thumbnail :
  preserves R
    (publish_or_update title_matches F indicator series props thumbnail).
Proof.
  pose proof walk_publish_csv as Hcsv.
  pose proof walk_find_online_item as Hfind.
  unfold publish_or_update, resolve_online_item, share_or_record.
  preserves_structure ltac:(first [ walk_leaf | apply Hcsv | apply Hfind ]).
Qed.

(** The operations of the walk itself. *)
Hypothesis R_progress :
  forall i s, preserves R (output (PrintedProcessing i s)).
Hypothesis R_failed : forall i s, preserves R (output (PrintedFailed i s)).
Hypothesis R_metadata : preserves R get_metadata.
Hypothesis R_int : forall code v, preserves R (int_code_differs code v).
Hypothesis R_goal_metadata :
  forall md code cur, preserves R (find_goal_metadata md code cur).

Ltac walk_leaf' :=
  first
    [ walk_leaf | apply R_progress | apply R_failed | apply R_metadata
    | apply R_int | apply R_goal_metadata
    | apply walk_publish_or_update ].

Lemma walk_process_series F goal target indicator gm thumbnail series :
  preserves R
    (process_series title_matches F goal target indicator gm thumbnail
                    series).
Proof. unfold process_series. preserves_structure walk_leaf'. Qed.

Lemma walk_process_indicator F goal target gm thumbnail indicator :
  preserves R
    (process_indicator title_matches F goal target gm thumbnail indicator).
Proof.
  pose proof walk_process_series as H.
  unfold process_indicator.
  preserves_structure ltac:(first [ walk_leaf' | apply H ]).
Qed.

Lemma walk_process_target F goal gm thumbnail target :
  preserves R (process_target title_matches F goal gm thumbnail target).
Proof.
  pose proof walk_process_indicator as H.
  unfold process_target.
  preserves_structure ltac:(first [ walk_leaf' | apply H ]).
Qed.

Lemma walk_process_goal F md cur goal :
  preserves R (process_goal title_matches F md cur goal).
Proof.
  pose proof walk_process_target as H.
  unfold process_goal.
  preserves_structure ltac:(first [ walk_leaf' | apply H ]).
Qed.

Lemma walk_process_goals F md json_data :
  forall cur, preserves R (process_goals title_matches F md cur json_data).
Proof.
  induction json_data as [|goal rest IH]; intro cur; cbn [process_goals].
  - now apply preserves_ret.
  - apply preserves_bind; try assumption; [apply walk_process_goal|].
    intros [[|] cur']; cbn [fst snd]; [apply IH | now apply preserves_ret].
Qed.

Lemma walk_process_sdg_information F json_data :
  preserves R (process_sdg_information title_matches F json_data).
Proof.
  pose proof walk_process_goals as H.
  unfold process_sdg_information.
  preserves_structure ltac:(first [ walk_leaf' | apply H ]).
Qed.

End WalkPreserves.

(** ** The log of a run *)

Lemma log_grows_refl w : log_grows w w.
Proof.
  split; [exists []; now rewrite app_nil_r|].
  split; [exists []; now rewrite app_nil_r | reflexivity].
Qed.

Lemma log_grows_trans a b c : log_grows a b -> log_grows b c -> log_grows a c.
Proof.
  intros [[l1 L1] [[c1 C1] N1]] [[l2 L2] [[c2 C2] N2]].
  split; [exists (l1 ++ l2); now rewrite L2, L1, app_assoc|].
  split; [exists (c1 ++ c2); now rewrite C2, C1, app_assoc | lia].
Qed.

Lemma log_grows_intro w w' added lines :
  failed_series w' = failed_series w ++ added ->
  console w' = console w ++ lines ->
  calls w <= calls w' ->
  log_grows w w'.
Proof. intros L C N. split; [now exists added|]. split; [now exists lines|exact N]. Qed.

Ltac log_grows_tac :=
  unfold preserves; intros;
  unfold output, failed_series_append, item_update, item_move, item_share,
    content_add, item_publish, owner_folder, group_update_tags, isfile,
    get_metadata, load_name, content_search, analyze_request,
    int_code_differs;
  cbv beta delta [remote bind ret raise]; simpl;
  repeat match goal with
         | |- context [match ?x with _ => _ end] => destruct x; simpl
         end;
  (eapply log_grows_intro;
   [ cbn; first [ reflexivity | symmetry; apply app_nil_r ]
   | cbn; first [ reflexivity | symmetry; apply app_nil_r ]
   | cbn; lia ]).

Lemma log_grows_find_goal_metadata md code cur :
  preserves log_grows (find_goal_metadata md code cur).
Proof.
  induction md as [|r md IH]; intro w; simpl; [apply log_grows_refl|].
  destruct (PyStr.to_int code); [|apply log_grows_refl].
  destruct (gm_goal r =? z)%Z; [apply log_grows_refl | apply IH].
Qed.

(** X9: a run of [process_sdg_information] only adds to the failure ledger
    and to the console: the ledger and the console at the start are prefixes
    of those at the end, and the number of requests issued never goes
    down. *)
Theorem a_run_only_adds_to_the_ledger_and_the_console
    (title_matches : string -> string -> bool) (F : Filters)
    (json_data : list Goal) (w : World) :
  let w' := snd (process_sdg_information title_matches F json_data w) in
  (exists added, failed_series w' = failed_series w ++ added) /\
  (exists lines, console w' = console w ++ lines) /\
  calls w <= calls w'.
Proof.
  cbv zeta.
  apply (@walk_process_sdg_information title_matches log_grows);
    try exact log_grows_refl; try exact log_grows_trans;
    try apply log_grows_find_goal_metadata;
    log_grows_tac.
Qed.

(** ** The catalog over a run *)

Lemma never_deletes_find_goal_metadata md code cur :
  preserves never_deletes (find_goal_metadata md code cur).
Proof.
  apply same_item_ids_never_deletes, same_ids_find_goal_metadata.
Qed.

(** X10: no run of [process_sdg_information], in either mode and whatever
    request fails, deletes an item or changes the order of the catalog: the
    item identities at the start are a prefix of those at the end. *)
Theorem a_run_never_deletes_an_item
    (title_matches : string -> string -> bool) (F : Filters)
    (json_data : list Goal) (w : World) :
  exists added,
    item_ids (snd (process_sdg_information title_matches F json_data w))
    = item_ids w ++ added.
Proof.
  apply (@walk_process_sdg_information title_matches never_deletes);
    try exact never_deletes_refl; try exact never_deletes_trans;
    intros; never_deletes_leaf.
Qed.

(** ** A run without display metadata *)

Lemma process_goals_without_metadata tm F json_data :
  forall cur w,
    process_goals tm F None cur json_data w = (Ok Normal, w) \/
    exists e, process_goals tm F None cur json_data w = (Raise e, w).
Proof.
  induction json_data as [|goal rest IH]; intros cur w;
    cbn [process_goals]; [left; reflexivity|].
  unfold bind at 1, process_goal, bind at 1, int_code_differs.
  destruct (is_none (goal_code F)).
  - right. exists TypeError. reflexivity.
  - destruct (PyStr.to_int (g_code goal)) as [n|].
    + destruct (negb (int_eq_val n (goal_code F))); cbn.
      * apply IH.
      * right. exists TypeError. reflexivity.
    + right. exists ValueError. reflexivity.
Qed.

Lemma process_sdg_information_run tm F json_data w :
  process_sdg_information tm F json_data w
  = match process_goals tm F (display_metadata w) None json_data w with
    | (Ok _, w1) => (Ok tt, w1)
    | (Raise e, w1) => (Ok tt, set_console (console w1 ++ [Traceback e]) w1)
    end.
Proof.
  unfold process_sdg_information, try_except, bind, get_metadata, output, ret.
  destruct (process_goals tm F (display_metadata w) None json_data w)
    as [[c|e] w1]; reflexivity.
Qed.

(** X11: when the display metadata could not be fetched, a run processes
    nothing: it issues no request and touches neither the catalog, the group
    nor the ledger.  At most it prints the traceback of the exception that
    ended the walk; without a goal filter and with a goal to process, that
    exception is the [TypeError] of iterating over [None]. *)
Theorem a_run_without_display_metadata_processes_nothing
    (title_matches : string -> string -> bool) (F : Filters)
    (json_data : list Goal) (w : World) :
  display_metadata w = None ->
  (process_sdg_information title_matches F json_data w = (Ok tt, w) \/
   exists e,
     process_sdg_information title_matches F json_data w
     = (Ok tt, set_console (console w ++ [Traceback e]) w)) /\
  (goal_code F = PyNone -> json_data <> [] ->
   process_sdg_information title_matches F json_data w
   = (Ok tt, set_console (console w ++ [Traceback TypeError]) w)).
Proof.
  intro Hmd. rewrite process_sdg_information_run, Hmd. split.
  - destruct (process_goals_without_metadata title_matches F json_data None
                w) as [E|[e E]]; rewrite E.
    + left. reflexivity.
    + right. exists e. reflexivity.
  - intros HF Hne. destruct json_data as [|goal rest]; [now elim Hne|].
    cbn [process_goals].
    unfold bind at 1, process_goal, bind at 1, int_code_differs.
    rewrite HF. reflexivity.
Qed.

(** X11 on the example taxonomy. *)
Lemma a_run_without_display_metadata_witness :
  let w := mkWorld [] 0 [] [] None [] [] 0 [] in
  display_metadata w = None /\
  process_sdg_information String.eqb (Example.no_filter false)
    Example.json_data w
  = (Ok tt, set_console (console w ++ [Traceback TypeError]) w).
Proof.
  cbv zeta. split; [reflexivity|].
  apply a_run_without_display_metadata_processes_nothing;
    [reflexivity | reflexivity | discriminate].
Defined.

(** ** Filters as restrictions of the taxonomy *)

Lemma for_each_filter {A} (body : A -> M Completion) (keep : A -> bool)
    (l : list A) :
  (forall x, keep x = false -> body x = ret Normal) ->
  forall w, for_each body l w = for_each body (filter keep l) w.
Proof.
  intro Hskip. induction l as [|x l IH]; intro w; cbn [for_each filter];
    [reflexivity|].
  destruct (keep x) eqn:E; cbn [for_each].
  - unfold bind. destruct (body x w) as [[[|]|e] w1]; auto.
  - rewrite (Hskip x E). unfold bind, ret. apply IH.
Qed.

(** X12: with a numeric goal filter [n], and goal codes that are all integer
    literals, a run over the taxonomy is the run over the goals whose code
    denotes [n]: the other goals leave no trace at all. *)
Theorem goal_filter_restricts_the_taxonomy
    (title_matches : string -> string -> bool) (F : Filters) (n : Z)
    (json_data : list Goal) (w : World) :
  goal_code F = PyInt n ->
  Forall (fun goal => PyStr.to_int (g_code goal) <> None) json_data ->
  process_sdg_information title_matches F json_data w
  = process_sdg_information title_matches F
      (filter (goal_has_number n) json_data) w.
Proof.
  intros HF Hcodes.
  assert (G : forall md cur w0,
             process_goals title_matches F md cur json_data w0
             = process_goals title_matches F md cur
                 (filter (goal_has_number n) json_data) w0).
  { induction Hcodes as [|goal rest Hgoal Hrest IH]; intros md cur w0;
      cbn [filter process_goals]; [reflexivity|].
    unfold goal_has_number at 1.
    destruct (PyStr.to_int (g_code goal)) as [m|] eqn:Em;
      [|now elim Hgoal].
    destruct (m =? n)%Z eqn:Emn; cbn [process_goals].
    - unfold bind.
      destruct (process_goal title_matches F md cur goal w0)
        as [[[[|] cur']|e] w1]; cbn [fst snd]; auto.
    - unfold bind at 1, process_goal, bind at 1, int_code_differs.
      rewrite HF, Em. cbn [is_none int_eq_val]. rewrite Emn.
      cbn. apply IH. }
  now rewrite !process_sdg_information_run, G.
Qed.

(** X12 on the example taxonomy: goal 1 of two goals. *)
Lemma goal_filter_restricts_witness :
  let F := mkFilters (PyInt 1) PyNone PyNone PyNone true in
  goal_code F = PyInt 1 /\
  Forall (fun goal => PyStr.to_int (g_code goal) <> None)
         Example.json_data /\
  process_sdg_information String.eqb F Example.json_data
    (Example.published [])
  = process_sdg_information String.eqb F
      (filter (goal_has_number 1) Example.json_data) (Example.published []).
Proof.
  cbv zeta.
  assert (H : Forall (fun goal => PyStr.to_int (g_code goal) <> None)
                     Example.json_data)
    by (repeat constructor; discriminate).
  split; [reflexivity|]. split; [exact H|].
  apply goal_filter_restricts_the_taxonomy; [reflexivity | exact H].
Defined.

(** X13: with an indicator filter [c] (a non-empty string), the loop over
    the indicators of a target is the loop over the indicators whose code is
    exactly [c], and with a series filter [sc] besides, the loop over the
    series of an indicator is the loop over the series whose code is exactly
    [sc]; filtered-out indicators and series leave no trace. *)
Theorem indicator_and_series_filters_restrict_the_loops
    (title_matches : string -> string -> bool) (F : Filters) (c : string)
    (goal : Goal) (target : Target) (gm : GoalMeta) (thumbnail : string) :
  indicator_code F = PyStr c ->
  c <> "" ->
  (forall indicators w,
     for_each (process_indicator title_matches F goal target gm thumbnail)
              indicators w
     = for_each (process_indicator title_matches F goal target gm thumbnail)
                (filter (fun i => i_code i =? c) indicators) w) /\
  (forall sc indicator series w,
     series_code F = PyStr sc ->
     for_each (process_series title_matches F goal target indicator gm
                              thumbnail)
              series w
     = for_each (process_series title_matches F goal target indicator gm
                                thumbnail)
                (filter (fun s => s_code s =? sc) series) w).
Proof.
  intros HF Hc.
  assert (Ht : truthy (indicator_code F) = true).
  { rewrite HF. cbn. apply String.eqb_neq in Hc. now rewrite Hc. }
  split.
  - intros indicators w. apply for_each_filter.
    intros i Hi. unfold process_indicator.
    rewrite Ht, HF. cbn [str_eq_val]. now rewrite Hi.
  - intros sc indicator series w Hsc. apply for_each_filter.
    intros s Hs. unfold process_series.
    rewrite Ht, Hsc. cbn [str_eq_val is_none]. now rewrite Hs.
Qed.

(** X13 on the example: the indicator filter [1.1.1]. *)
Lemma indicator_and_series_filters_witness :
  let F := mkFilters PyNone (PyStr "1.1.1") PyNone (PyStr "SI_POV_DAY1")
                     true in
  let body :=
    process_series String.eqb F Example.goal_1 Example.target_1_1
      Example.indicator_1_1_1 Example.meta_1 "" in
  indicator_code F = PyStr "1.1.1" /\
  "1.1.1" <> "" /\
  for_each body (i_series Example.indicator_1_1_1) (Example.published [])
  = for_each body
      (filter (fun s => s_code s =? "SI_POV_DAY1")
              (i_series Example.indicator_1_1_1))
      (Example.published []).
Proof.
  cbv zeta. split; [reflexivity|]. split; [discriminate|].
  apply (@indicator_and_series_filters_restrict_the_loops String.eqb
           (mkFilters PyNone (PyStr "1.1.1") PyNone (PyStr "SI_POV_DAY1")
                      true)
           "1.1.1" Example.goal_1 Example.target_1_1 Example.meta_1 "");
    [reflexivity | discriminate | reflexivity].
Defined.

(** ** A run without faults *)

Lemma processed_series_output o w :
  processed_series (set_console (console w ++ [o]) w)
  = processed_series w
      ++ match o with
         | PrintedProcessing _ series => [series]
         | _ => []
         end.
Proof.
  unfold processed_series. cbn [console set_console].
  rewrite flat_map_app. cbn [flat_map]. now rewrite app_nil_r.
Qed.

Lemma steady_refl w : steady w w.
Proof. split; reflexivity. Qed.

Lemma steady_trans a b c : steady a b -> steady b c -> steady a c.
Proof. intros [F1 P1] [F2 P2]. split; congruence. Qed.

Lemma steady_plain o : plain_line o -> preserves steady (output o).
Proof.
  intros [Hp _] w. split; [reflexivity|].
  cbn [snd output]. rewrite processed_series_output.
  destruct o; try apply app_nil_r. now elim (Hp indicator series).
Qed.

Ltac steady_tac :=
  unfold preserves; intros;
  unfold failed_series_append, item_update, item_move, item_share,
    content_add, item_publish, owner_folder, group_update_tags, isfile,
    get_metadata, load_name, content_search, analyze_request,
    int_code_differs;
  cbv beta delta [remote bind ret raise]; simpl;
  repeat match goal with
         | |- context [match ?x with _ => _ end] => destruct x; simpl
         end;
  split; reflexivity.

Lemma steady_publish_or_update tm F indicator series props thumbnail :
  preserves steady (publish_or_update tm F indicator series props thumbnail).
Proof.
  apply (@walk_publish_or_update tm steady);
    try exact steady_refl; try exact steady_trans; try exact steady_plain;
    steady_tac.
Qed.

Lemma steady_publish_csv tm indicator series props thumbnail :
  preserves steady (publish_csv tm indicator series props thumbnail).
Proof.
  apply (@walk_publish_csv tm steady);
    try exact steady_refl; try exact steady_trans; try exact steady_plain;
    steady_tac.
Qed.

Lemma publish_csv_never_raises tm indicator series props thumbnail w :
  exists r, fst (publish_csv tm indicator series props thumbnail w) = Ok r.
Proof.
  unfold publish_csv, try_except.
  match goal with
  | |- context [let (o, w') := ?m w in _] => destruct (m w) as [[r|e] w1]
  end; eexists; reflexivity.
Qed.

Lemma safe_ret {A} (a : A) : safe (ret a).
Proof. intros w _. split; [now exists a | apply steady_refl]. Qed.

Lemma safe_bind {A B} (m : M A) (k : A -> M B) :
  safe m -> (forall a, safe (k a)) -> safe (bind m k).
Proof.
  intros Hm Hk w Hf. unfold bind.
  destruct (Hm w Hf) as [[a Ha] Hs].
  destruct (m w) as [[a'|e] w1]; cbn [fst snd] in *; [|discriminate].
  assert (Hf1 : faults w1 = []) by (destruct Hs as [E _]; congruence).
  destruct (Hk a' w1 Hf1) as [Hr Hs1].
  split; [exact Hr | eapply steady_trans; eassumption].
Qed.

Lemma safe_of_total {A} (m : M A) :
  (forall w, exists a, fst (m w) = Ok a) -> preserves steady m -> safe m.
Proof. intros Ht Hs w _. split; [apply Ht | apply Hs]. Qed.

Lemma safe_request {A} (op : M A) :
  (forall w, (exists a, fst (op w) = Ok a) /\ steady w (snd (op w))) ->
  safe (remote op).
Proof.
  intros Hop w Hf. unfold remote. rewrite Hf. cbn [existsb].
  destruct (Hop (set_calls (S (calls w)) w)) as [Hr Hs].
  split; [exact Hr|]. eapply steady_trans; [|exact Hs]. split; reflexivity.
Qed.

Lemma safe_output o : plain_line o -> safe (output o).
Proof.
  intros Ho w _. split; [now exists tt | now apply steady_plain].
Qed.

Lemma safe_failed_series_append code : safe (failed_series_append code).
Proof. intros w _. split; [now exists tt | split; reflexivity]. Qed.

Lemma safe_find_online_item tm title : safe (find_online_item tm title).
Proof.
  apply safe_of_total.
  - intro w. destruct (find_online_item_total tm title w) as [r [w1 [E _]]].
    exists r. now rewrite E.
  - apply (@walk_find_online_item tm steady);
      try exact steady_refl; try exact steady_trans; try exact steady_plain;
      steady_tac.
Qed.

Lemma safe_item_update id props thumbnail data :
  safe (item_update id props thumbnail data).
Proof.
  unfold item_update. apply safe_request. intro w.
  split; [now exists tt | split; reflexivity].
Qed.

Lemma safe_item_share id sh : safe (item_share id sh).
Proof.
  unfold item_share. apply safe_request. intro w.
  split; [now exists tt | split; reflexivity].
Qed.

Lemma safe_group_update_tags tags : safe (group_update_tags tags).
Proof.
  intros w Hf. unfold group_update_tags.
  apply (@safe_request unit
           (fun w' => (Ok tt, set_group_tags (group_tags w ++ tags) w')));
    [|exact Hf].
  intro w'. split; [now exists tt | split; reflexivity].
Qed.

Lemma safe_publish_csv tm indicator series props thumbnail :
  safe (publish_csv tm indicator series props thumbnail).
Proof.
  apply safe_of_total;
    [intro w; apply publish_csv_never_raises | apply steady_publish_csv].
Qed.

Lemma safe_publish_or_update tm F indicator series props thumbnail :
  safe (publish_or_update tm F indicator series props thumbnail).
Proof.
  unfold publish_or_update, resolve_online_item, share_or_record.
  apply safe_bind.
  - destruct (property_update_only F); [|apply safe_publish_csv].
    apply safe_bind; [apply safe_find_online_item|].
    intros [item|].
    + apply safe_bind; [apply safe_item_update | intros _; apply safe_ret].
    + apply safe_bind;
        [apply safe_failed_series_append | intros _; apply safe_ret].
  - intros [item|]; [|apply safe_failed_series_append].
    apply safe_bind;
      [apply safe_output; split; intros; discriminate | intros _].
    apply safe_bind; [apply safe_item_share | intros _].
    apply safe_group_update_tags.
Qed.

Lemma visits_process_series tm F goal target indicator gm thumbnail series :
  series_selected F series ->
  visits [s_code series]
    (process_series tm F goal target indicator gm thumbnail series).
Proof.
  intros Hsel w Hf.
  rewrite (@process_series_selected tm F goal target indicator gm thumbnail
             series w Hsel).
  unfold try_except, bind.
  destruct (safe_publish_or_update tm F indicator
              (default_description series)
              (build_item_properties goal target indicator series gm)
              thumbnail (announced indicator series w) Hf)
    as [[a Ha] [Hfaults Hseen]].
  destruct (publish_or_update tm F indicator (default_description series)
              (build_item_properties goal target indicator series gm)
              thumbnail (announced indicator series w)) as [[[]|e] w1];
    cbn [fst snd] in *; [|discriminate].
  unfold ret. cbv beta iota. cbn [fst snd].
  split; [reflexivity|].
  split; [unfold announced in Hfaults; cbn in Hfaults; now rewrite Hfaults|].
  rewrite Hseen. unfold announced. now rewrite processed_series_output.
Qed.

Lemma flat_map_singleton {A B} (f : A -> B) (l : list A) :
  flat_map (fun x => [f x]) l = map f l.
Proof. induction l as [|x l IH]; cbn; [reflexivity | now rewrite IH]. Qed.

Lemma process_goal_found tm F records cur goal n r w :
  PyStr.to_int (g_code goal) = Some n ->
  is_none (goal_code F) || int_eq_val n (goal_code F) = true ->
  goal_record records n = Some r ->
  process_goal tm F (Some records) cur goal w
  = (c <- for_each (process_target tm F goal r (goal_thumbnail r))
                   (g_targets goal) ;;
     ret (c, Some r)) w.
Proof.
  intros Hn Hsel Hrec. unfold process_goal.
  assert (Hskip : int_code_differs (g_code goal) (goal_code F) w
                  = (Ok false, w)).
  { unfold int_code_differs. rewrite Hn.
    destruct (is_none (goal_code F)); [reflexivity|].
    cbn in Hsel. now rewrite Hsel. }
  erewrite run_bind_ok by exact Hskip. cbv iota.
  erewrite run_bind_ok
    by (eapply find_goal_metadata_found; eassumption).
  reflexivity.
Qed.

(** *** An unfiltered walk under an invariant *)

Section Traversal.

Variable title_matches : string -> string -> bool.
Variable F : Filters.
Variable Inv : World -> Prop.
Variable obs : World -> list string.

Hypothesis no_goal_filter : goal_code F = PyNone.
Hypothesis no_target_filter : target_code F = PyNone.
Hypothesis no_indicator_filter : truthy (indicator_code F) = false.

(** Every series step passes, and appends the series code. *)
Hypothesis series_passes :
  forall goal target indicator gm thumbnail series,
    passes Inv obs [s_code series]
      (process_series title_matches F goal target indicator gm thumbnail
                      series).

(** A group update succeeds and is invisible to [Inv] and [obs]. *)
Hypothesis group_update_passes :
  forall tags w, Inv w ->
    exists w',
      group_update_tags tags w = (Ok tt, w') /\ Inv w' /\ obs w' = obs w.

Lemma passes_for_each {A} (codes : A -> list string)
    (body : A -> M Completion) (l : list A) :
  (forall x, passes Inv obs (codes x) (body x)) ->
  passes Inv obs (flat_map codes l) (for_each body l).
Proof.
  intro Hb. induction l as [|x l IH]; intros w Hw; cbn [for_each flat_map].
  - split; [reflexivity|]. split; [exact Hw | now rewrite app_nil_r].
  - destruct (Hb x w Hw) as [Hr [Hw1 Hs1]].
    assert (E : (c <- body x ;;
                 match c with
                 | Normal => for_each body l
                 | Returned => ret Returned
                 end) w
                = for_each body l (snd (body x w))).
    { unfold bind. destruct (body x w) as [[c|e] w1];
        cbn [fst snd] in *; [|discriminate].
      inversion Hr; subst c. reflexivity. }
    rewrite E. destruct (IH _ Hw1) as [Hr2 [Hw2 Hs2]].
    split; [exact Hr2|]. split; [exact Hw2|].
    now rewrite Hs2, Hs1, app_assoc.
Qed.

Lemma passes_after_group_update tags codes (k : M Completion) :
  passes Inv obs codes k ->
  passes Inv obs codes (group_update_tags tags ;; k).
Proof.
  intros Hk w Hw.
  destruct (group_update_passes tags Hw) as [w1 [E [Hw1 Hs1]]].
  unfold bind. rewrite E.
  destruct (Hk w1 Hw1) as [Hr [Hw2 Hs2]].
  split; [exact Hr|]. split; [exact Hw2|]. now rewrite Hs2, Hs1.
Qed.

Lemma passes_process_indicator goal target gm thumbnail indicator :
  passes Inv obs (indicator_series_codes indicator)
    (process_indicator title_matches F goal target gm thumbnail indicator).
Proof.
  unfold process_indicator. rewrite no_indicator_filter. cbn [andb].
  apply passes_after_group_update.
  unfold indicator_series_codes. rewrite <- flat_map_singleton.
  apply passes_for_each. intro series. apply series_passes.
Qed.

Lemma passes_process_target goal gm thumbnail target :
  passes Inv obs (target_series_codes target)
    (process_target title_matches F goal gm thumbnail target).
Proof.
  unfold process_target, int_code_differs. rewrite no_target_filter.
  cbn [is_none].
  change (passes Inv obs (target_series_codes target)
            (group_update_tags (target_tags target) ;;
             for_each (process_indicator title_matches F goal target gm
                                         thumbnail)
                      (t_indicators target))).
  apply passes_after_group_update.
  apply passes_for_each. intro indicator. apply passes_process_indicator.
Qed.

Lemma passes_process_goals records json_data :
  Forall (fun goal =>
            exists n r,
              PyStr.to_int (g_code goal) = Some n /\
              goal_record records n = Some r) json_data ->
  forall cur,
    passes Inv obs (all_series_codes json_data)
      (process_goals title_matches F (Some records) cur json_data).
Proof.
  intro Hall.
  induction Hall as [|goal rest [n [r [Hn Hr]]] Hrest IH]; intros cur w Hw;
    cbn [process_goals all_series_codes flat_map].
  - split; [reflexivity|]. split; [exact Hw | now rewrite app_nil_r].
  - assert (Hsel : is_none (goal_code F) || int_eq_val n (goal_code F)
                   = true) by now rewrite no_goal_filter.
    destruct (@passes_for_each Target target_series_codes
                (process_target title_matches F goal r (goal_thumbnail r))
                (g_targets goal)
                (fun t => passes_process_target goal r (goal_thumbnail r) t)
                w Hw)
      as [Hres [Hw1 Hs1]].
    assert (E :
      (r0 <- process_goal title_matches F (Some records) cur goal ;;
       match fst r0 with
       | Normal => process_goals title_matches F (Some records) (snd r0) rest
       | Returned => ret Returned
       end) w
      = process_goals title_matches F (Some records) (Some r) rest
          (snd (for_each
                  (process_target title_matches F goal r (goal_thumbnail r))
                  (g_targets goal) w))).
    { unfold bind at 1.
      rewrite (@process_goal_found title_matches F records cur goal n r w
                 Hn Hsel Hr).
      unfold bind at 1.
      destruct (for_each
                  (process_target title_matches F goal r (goal_thumbnail r))
                  (g_targets goal) w) as [[c|e] w1];
        cbn [fst snd] in *; [|discriminate].
      inversion Hres; subst c. reflexivity. }
    rewrite E.
    destruct (IH (Some r) _ Hw1) as [Hres2 [Hw2 Hs2]].
    split; [exact Hres2|]. split; [exact Hw2|].
    fold (all_series_codes rest). unfold goal_series_codes at 1.
    now rewrite Hs2, Hs1, app_assoc.
Qed.

Lemma traversal_run records json_data w :
  Inv w ->
  display_metadata w = Some records ->
  Forall (fun goal =>
            exists n r,
              PyStr.to_int (g_code goal) = Some n /\
              goal_record records n = Some r) json_data ->
  obs (snd (process_sdg_information title_matches F json_data w))
  = obs w ++ all_series_codes json_data.
Proof.
  intros Hw Hmd Hall.
  rewrite process_sdg_information_run, Hmd.
  destruct (@passes_process_goals records json_data Hall None w Hw)
    as [Hres [_ Hs]].
  destruct (process_goals title_matches F (Some records) None json_data w)
    as [[c|e] w1]; cbn [fst snd] in *; [exact Hs | discriminate].
Qed.

Lemma traversal_run_invariant records json_data w :
  Inv w ->
  display_metadata w = Some records ->
  Forall (fun goal =>
            exists n r,
              PyStr.to_int (g_code goal) = Some n /\
              goal_record records n = Some r) json_data ->
  Inv (snd (process_sdg_information title_matches F json_data w)).
Proof.
  intros Hw Hmd Hall.
  rewrite process_sdg_information_run, Hmd.
  destruct (@passes_process_goals records json_data Hall None w Hw)
    as [Hres [Hw1 _]].
  destruct (process_goals title_matches F (Some records) None json_data w)
    as [[c|e] w1]; cbn [fst snd] in *; [exact Hw1 | discriminate].
Qed.

End Traversal.

(** X14: an unfiltered run whose requests all succeed, over a taxonomy in
    which every goal code is an integer literal with a record in the display
    metadata, processes every series of the taxonomy exactly once, in
    document order, in either mode: the progress lines of the run are the
    series codes of the taxonomy. *)
Theorem an_unfiltered_run_visits_every_series
    (title_matches : string -> string -> bool) (F : Filters)
    (records : list GoalMeta) (json_data : list Goal) (w : World) :
  goal_code F = PyNone ->
  target_code F = PyNone ->
  truthy (indicator_code F) = false ->
  faults w = [] ->
  display_metadata w = Some records ->
  Forall (fun goal =>
            exists n r,
              PyStr.to_int (g_code goal) = Some n /\
              goal_record records n = Some r) json_data ->
  processed_series
    (snd (process_sdg_information title_matches F json_data w))
  = processed_series w ++ all_series_codes json_data.
Proof.
  intros HG HT HF Hf Hmd Hall.
  assert (Hs : forall goal target indicator gm thumbnail series,
             passes (fun w0 => faults w0 = []) processed_series
               [s_code series]
               (process_series title_matches F goal target indicator gm
                               thumbnail series)).
  { intros goal target indicator gm thumbnail series.
    apply visits_process_series. unfold series_selected. now rewrite HF. }
  assert (Hg : forall tags w0, faults w0 = [] ->
             exists w1,
               group_update_tags tags w0 = (Ok tt, w1) /\
               faults w1 = [] /\ processed_series w1 = processed_series w0).
  { intros tags w0 Hf0.
    unfold group_update_tags, remote. rewrite Hf0. cbn [existsb].
    eexists. split; [reflexivity|]. split; [exact Hf0 | reflexivity]. }
  exact (@traversal_run title_matches F (fun w0 => faults w0 = [])
           processed_series HG HT HF Hs Hg records json_data w Hf Hmd Hall).
Qed.

(** X14 on the example: one goal with its record, two series. *)
Lemma an_unfiltered_run_witness :
  let F := Example.no_filter false in
  goal_code F = PyNone /\ target_code F = PyNone /\
  truthy (indicator_code F) = false /\
  faults Example.fresh = [] /\
  display_metadata Example.fresh = Some [Example.meta_1] /\
  processed_series
    (snd (process_sdg_information String.eqb F [Example.goal_1]
            Example.fresh))
  = processed_series Example.fresh ++ all_series_codes [Example.goal_1].
Proof.
  cbv zeta. repeat (split; [reflexivity|]).
  apply (@an_unfiltered_run_visits_every_series String.eqb
           (Example.no_filter false) [Example.meta_1] [Example.goal_1]
           Example.fresh); try reflexivity.
  constructor; [|constructor].
  exists 1%Z, Example.meta_1. split; reflexivity.
Defined.

(** ** A full-publish run without data files *)

Lemma publish_csv_without_any_file tm indicator series props thumbnail w :
  files w = [] ->
  publish_csv tm indicator series props thumbnail w = (Ok None, w).
Proof.
  intro Hfiles. unfold publish_csv, try_except. cbv zeta.
  unfold bind at 1, isfile. cbv beta iota. rewrite Hfiles. reflexivity.
Qed.

Lemma bare_process_series tm F catalog goal target indicator gm thumbnail
    series :
  property_update_only F = false ->
  series_selected F series ->
  passes (bare catalog) failed_series [s_code series]
    (process_series tm F goal target indicator gm thumbnail series).
Proof.
  intros Hmode Hsel w [Hfaults [Hfiles Hitems]].
  rewrite (@process_series_selected tm F goal target indicator gm thumbnail
             series w Hsel).
  assert (E : publish_or_update tm F indicator (default_description series)
                (build_item_properties goal target indicator series gm)
                thumbnail (announced indicator series w)
              = (Ok tt,
                 set_failed_series (failed_series w ++ [s_code series])
                   (announced indicator series w))).
  { unfold publish_or_update, resolve_online_item. rewrite Hmode.
    erewrite run_bind_ok
      by (apply publish_csv_without_any_file; exact Hfiles).
    cbn [share_or_record]. rewrite default_description_code. reflexivity. }
  erewrite run_try_ok by (erewrite run_bind_ok by exact E; reflexivity).
  cbn [fst snd]. split; [reflexivity|].
  split; [repeat split; assumption | reflexivity].
Qed.

(** X15: an unfiltered full-publish run whose requests all succeed, on a
    machine without any data file, records every series of the taxonomy as
    failed, once and in document order, and leaves the catalog as it was. *)
Theorem a_full_run_without_data_files_records_every_series
    (title_matches : string -> string -> bool) (F : Filters)
    (records : list GoalMeta) (json_data : list Goal) (w : World) :
  property_update_only F = false ->
  goal_code F = PyNone ->
  target_code F = PyNone ->
  truthy (indicator_code F) = false ->
  faults w = [] ->
  files w = [] ->
  display_metadata w = Some records ->
  Forall (fun goal =>
            exists n r,
              PyStr.to_int (g_code goal) = Some n /\
              goal_record records n = Some r) json_data ->
  let w' := snd (process_sdg_information title_matches F json_data w) in
  failed_series w' = failed_series w ++ all_series_codes json_data /\
  items w' = items w.
Proof.
  intros Hmode HG HT HF Hfaults Hfiles Hmd Hall w'. subst w'.
  assert (Hs : forall goal target indicator gm thumbnail series,
             passes (bare (items w)) failed_series [s_code series]
               (process_series title_matches F goal target indicator gm
                               thumbnail series)).
  { intros. apply bare_process_series; [exact Hmode|].
    unfold series_selected. now rewrite HF. }
  assert (Hg : forall tags w0, bare (items w) w0 ->
             exists w1,
               group_update_tags tags w0 = (Ok tt, w1) /\
               bare (items w) w1 /\ failed_series w1 = failed_series w0).
  { intros tags w0 [Hf0 [Hfi0 Hi0]].
    unfold group_update_tags, remote. rewrite Hf0. cbn [existsb].
    eexists. split; [reflexivity|]. repeat split; assumption. }
  assert (Hw : bare (items w) w) by (repeat split; assumption).
  split.
  - apply (@traversal_run title_matches F (bare (items w)) failed_series
             HG HT HF Hs Hg records json_data w Hw Hmd Hall).
  - apply (@traversal_run_invariant title_matches F (bare (items w))
             failed_series HG HT HF Hs Hg records json_data w Hw Hmd Hall).
Qed.

(** X15 on the example: goal 1 on a machine without data files. *)
Lemma a_full_run_without_data_files_witness :
  let F := Example.no_filter false in
  let w := mkWorld [] 0 [] [] (Some [Example.meta_1]) [] [] 0 [] in
  let w' :=
    snd (process_sdg_information String.eqb F [Example.goal_1] w) in
  property_update_only F = false /\
  faults w = [] /\ files w = [] /\
  failed_series w' = failed_series w ++ all_series_codes [Example.goal_1] /\
  items w' = items w.
Proof.
  cbv zeta. repeat (split; [reflexivity|]).
  apply (@a_full_run_without_data_files_records_every_series String.eqb
           (Example.no_filter false) [Example.meta_1] [Example.goal_1]
           (mkWorld [] 0 [] [] (Some [Example.meta_1]) [] [] 0 []));
    try reflexivity.
  constructor; [|constructor].
  exists 1%Z, Example.meta_1. split; reflexivity.
Defined.

(** ** cleanup_site and reassign_to_admin *)

Lemma In_remove_item it id l :
  In it (remove_item id l) <-> In it l /\ it_id it <> id.
Proof.
  unfold remove_item. rewrite filter_In. split.
  - intros [Hin Hne]. split; [exact Hin|].
    apply Bool.negb_true_iff, Nat.eqb_neq in Hne. exact Hne.
  - intros [Hin Hne]. split; [exact Hin|].
    now apply Bool.negb_true_iff, Nat.eqb_neq.
Qed.

Lemma In_firstn_In {A} (x : A) n l : In x (firstn n l) -> In x l.
Proof.
  revert l. induction n as [|n IH]; intros [|y l]; cbn; try tauto.
  intros [H|H]; [now left | right; now apply IH].
Qed.

Lemma item_ids_injective l a b :
  NoDup (map it_id l) -> In a l -> In b l -> it_id a = it_id b -> a = b.
Proof.
  induction l as [|x l IH]; cbn [map]; intros ND Ha Hb E; [now elim Ha|].
  inversion ND as [|? ? Hnotin ND']; subst.
  destruct Ha as [<-|Ha], Hb as [<-|Hb]; trivial.
  - elim Hnotin. rewrite E. now apply in_map.
  - elim Hnotin. rewrite <- E. now apply in_map.
  - now apply IH.
Qed.

(** The identities that a folder listing hands out belong to items of the
    folder. *)
Lemma listed_ids_are_in_the_folder folder n l id :
  In id (map fst (firstn n (map (fun it => (it_id it, it_title it))
                                (filter (in_folder folder) l)))) ->
  exists it, In it l /\ in_folder folder it = true /\ it_id it = id.
Proof.
  intro H. apply in_map_iff in H. destruct H as [[i t] [E H]].
  cbn [fst] in E. subst i.
  apply In_firstn_In, in_map_iff in H. destruct H as [it [E H]].
  inversion E; subst. apply filter_In in H. destruct H as [Hin Hf].
  exists it. auto.
Qed.

(** A loop of removals, whatever request fails. *)
Lemma for_all_removes (body : nat * string -> M unit) l :
  (forall x w,
     items (snd (body x w)) = items w \/
     items (snd (body x w)) = remove_item (fst x) (items w)) ->
  forall w,
    nothing_added (items w) (items (snd (for_all body l w))) /\
    (forall it,
       In it (items w) -> ~ In (it_id it) (map fst l) ->
       In it (items (snd (for_all body l w)))).
Proof.
  intro Hb. induction l as [|x l IH]; intro w; cbn [for_all map].
  - split; [intros it H; exact H | intros it H _; exact H].
  - assert (Hsub : nothing_added (items w) (items (snd (body x w)))).
    { intros it Hin. destruct (Hb x w) as [E|E]; rewrite E in Hin;
        [exact Hin | now apply In_remove_item in Hin]. }
    assert (Hkeep : forall it,
               In it (items w) -> it_id it <> fst x ->
               In it (items (snd (body x w)))).
    { intros it Hin Hne. destruct (Hb x w) as [E|E]; rewrite E;
        [exact Hin | now apply In_remove_item]. }
    unfold bind. destruct (body x w) as [[[]|e] w1]; cbn [snd] in *.
    + destruct (IH w1) as [Hsub1 Hkeep1]. split.
      * intros it Hin. apply Hsub, Hsub1, Hin.
      * intros it Hin Hnot. apply Hkeep1.
        -- apply Hkeep; [exact Hin|]. intro E. apply Hnot. now left.
        -- intro Hin'. apply Hnot. now right.
    + split; [exact Hsub|].
      intros it Hin Hnot. apply Hkeep; [exact Hin|].
      intro E. apply Hnot. now left.
Qed.

Lemma removal_step (message : nat * string -> string)
    (remove : nat -> M unit) (x : nat * string) (w : World) :
  (forall id w0,
     items (snd (remove id w0)) = items w0 \/
     items (snd (remove id w0)) = remove_item id (items w0)) ->
  items (snd ((print (message x) ;; remove (fst x)) w)) = items w \/
  items (snd ((print (message x) ;; remove (fst x)) w))
  = remove_item (fst x) (items w).
Proof.
  intro Hr. unfold bind, print, output. cbv beta iota.
  destruct (Hr (fst x)
              (set_console (console w ++ [Printed (message x)]) w))
    as [E|E]; [left | right]; exact E.
Qed.

Lemma item_delete_removes id w :
  items (snd (item_delete id w)) = items w \/
  items (snd (item_delete id w)) = remove_item id (items w).
Proof.
  unfold item_delete, remote.
  destruct (existsb _ _); [left | right]; reflexivity.
Qed.

Lemma item_reassign_to_removes user folder id w :
  items (snd (item_reassign_to id user folder w)) = items w \/
  items (snd (item_reassign_to id user folder w)) = remove_item id (items w).
Proof.
  unfold item_reassign_to, remote.
  destruct (existsb _ _); [left | right]; reflexivity.
Qed.

(** The loop over a listing of the folder touches the folder only. *)
Lemma folder_loop_is_confined (body : nat * string -> M unit) folder n w0 w :
  (forall x w1,
     items (snd (body x w1)) = items w1 \/
     items (snd (body x w1)) = remove_item (fst x) (items w1)) ->
  NoDup (map it_id (items w)) ->
  items w0 = items w ->
  let listing :=
    firstn n (map (fun it => (it_id it, it_title it))
                  (filter (in_folder folder) (items w))) in
  nothing_added (items w) (items (snd (for_all body listing w0))) /\
  kept_outside folder (items w) (items (snd (for_all body listing w0))).
Proof.
  intros Hb ND E0 listing.
  destruct (for_all_removes body listing Hb w0) as [Hsub Hkeep].
  rewrite E0 in Hsub, Hkeep. split; [exact Hsub|].
  intros it Hin Hout. apply Hkeep; [exact Hin|].
  intro Hlisted.
  destruct (listed_ids_are_in_the_folder _ _ _ _ Hlisted)
    as [it' [Hin' [Hf' Hid]]].
  assert (it' = it) by (eapply item_ids_injective; eassumption).
  subst it'. congruence.
Qed.

(** X16: whatever request fails, [cleanup_site] adds nothing to the catalog
    and, in a catalog whose items have distinct identities, deletes no item
    that lies outside the folder [Open Data]. *)
Theorem cleanup_site_deletes_only_from_the_open_data_folder (w : World) :
  NoDup (item_ids w) ->
  let w' := snd (cleanup_site w) in
  nothing_added (items w) (items w') /\
  kept_outside "Open Data" (items w) (items w').
Proof.
  intros ND w'. subst w'. unfold item_ids in ND.
  cut (exists w',
         snd (cleanup_site w) = w' /\
         nothing_added (items w) (items w') /\
         kept_outside "Open Data" (items w) (items w')).
  { intros [w' [<- H]]. exact H. }
  unfold cleanup_site. unfold bind at 1, users_get_self, remote at 1.
  destruct (existsb (Nat.eqb (calls w)) (faults w)).
  { eexists. split; [reflexivity|]. cbn [snd items set_calls].
    split; [intros it H | intros it H _]; exact H. }
  cbv beta iota. unfold ret at 1. cbv beta iota.
  unfold bind at 1, user_items, remote at 1.
  cbn [calls faults set_calls].
  destruct (existsb _ (faults w)).
  { eexists. split; [reflexivity|]. cbn [snd items set_calls].
    split; [intros it H | intros it H _]; exact H. }
  cbv beta iota. cbn [items set_calls].
  eexists. split; [reflexivity|].
  apply folder_loop_is_confined; [|exact ND | reflexivity].
  intros x w1.
  apply (removal_step (fun item => "deleting item " ++ snd item)%string
                      item_delete x w1 item_delete_removes).
Qed.

(** X16 on the example catalog, whose only item lies in the folder. *)
Lemma cleanup_site_witness :
  let w := Example.published [] in
  let w' := snd (cleanup_site w) in
  NoDup (item_ids w) /\
  nothing_added (items w) (items w') /\
  kept_outside "Open Data" (items w) (items w').
Proof.
  cbv zeta.
  assert (ND : NoDup (item_ids (Example.published [])))
    by (repeat constructor; intros []).
  split; [exact ND|].
  apply cleanup_site_deletes_only_from_the_open_data_folder. exact ND.
Defined.

Lemma filter_filter {A} (p q : A -> bool) (l : list A) :
  filter q (filter p l) = filter (fun x => p x && q x) l.
Proof.
  induction l as [|x l IH]; cbn [filter]; [reflexivity|].
  destruct (p x); cbn [filter andb]; [|exact IH].
  destruct (q x); now rewrite IH.
Qed.

(** A loop of deletions whose requests all succeed. *)
Lemma for_all_deletes message l :
  forall w, faults w = [] ->
    exists w',
      for_all (fun item : nat * string =>
                 print (message item) ;; item_delete (fst item)) l w
      = (Ok tt, w') /\
      faults w' = [] /\
      items w'
      = filter (fun it => negb (existsb (Nat.eqb (it_id it)) (map fst l)))
               (items w).
Proof.
  induction l as [|x l IH]; intros w Hf; cbn [for_all map existsb].
  - exists w. split; [reflexivity|]. split; [exact Hf|].
    induction (items w) as [|it its IHits]; cbn; [reflexivity|].
    f_equal. exact IHits.
  - unfold bind at 1. unfold bind at 1, print, output. cbv beta iota.
    unfold item_delete, remote. cbn [calls faults set_console].
    rewrite Hf. cbn [existsb]. cbv beta iota.
    match goal with
    | |- context [for_all _ l ?w1] =>
        destruct (IH w1) as [w' [E [Hf' Hi]]]; [exact Hf|]
    end.
    exists w'. split; [exact E|]. split; [exact Hf'|].
    rewrite Hi. cbn [items set_items set_calls set_console].
    unfold remove_item. rewrite filter_filter. apply filter_ext.
    intro it. now rewrite Bool.negb_orb.
Qed.

(** X17: when no request fails, the items of the catalog have distinct
    identities and the folder [Open Data] holds at most 800 items,
    [cleanup_site] ends normally and leaves exactly the items that lie
    outside the folder, in their order. *)
Theorem cleanup_site_empties_the_open_data_folder (w : World) :
  faults w = [] ->
  NoDup (item_ids w) ->
  List.length (filter (in_folder "Open Data") (items w)) <= 800 ->
  exists w',
    cleanup_site w = (Ok tt, w') /\
    items w' = filter (fun it => negb (in_folder "Open Data" it)) (items w).
Proof.
  intros Hf ND Hlen. unfold item_ids in ND.
  unfold cleanup_site. unfold bind at 1, users_get_self, remote at 1.
  rewrite Hf. cbn [existsb]. unfold ret at 1. cbv beta iota.
  unfold bind at 1, user_items, remote at 1.
  cbn [calls faults set_calls]. rewrite Hf. cbn [existsb]. cbv beta iota.
  cbn [items set_calls].
  rewrite firstn_all2 by (now rewrite length_map).
  match goal with
  | |- context [for_all ?b ?l ?w1] =>
      destruct (for_all_deletes
                  (fun item : nat * string =>
                     ("deleting item " ++ snd item)%string) l w1 Hf)
        as [w' [E [_ Hi]]]
  end.
  exists w'. split; [exact E|]. rewrite Hi. cbn [items set_calls].
  apply filter_ext_in. intros it Hin. f_equal.
  rewrite map_map. cbn [fst].
  destruct (in_folder "Open Data" it) eqn:Hfolder.
  - apply existsb_exists. exists (it_id it). split; [|apply Nat.eqb_refl].
    apply in_map. apply filter_In. auto.
  - apply Bool.not_true_is_false. intro Hex.
    apply existsb_exists in Hex. destruct Hex as [id [Hid Heq]].
    apply Nat.eqb_eq in Heq. apply in_map_iff in Hid.
    destruct Hid as [it' [Hid' Hin']]. apply filter_In in Hin'.
    destruct Hin' as [Hin' Hf'].
    assert (it' = it)
      by (eapply item_ids_injective; try eassumption; congruence).
    subst it'. congruence.
Qed.

(** X17 on the example catalog. *)
Lemma cleanup_site_empties_witness :
  let w := Example.published [] in
  faults w = [] /\ NoDup (item_ids w) /\
  List.length (filter (in_folder "Open Data") (items w)) <= 800 /\
  exists w',
    cleanup_site w = (Ok tt, w') /\
    items w' = filter (fun it => negb (in_folder "Open Data" it)) (items w).
Proof.
  cbv zeta.
  assert (ND : NoDup (item_ids (Example.published [])))
    by (repeat constructor; intros []).
  assert (L : List.length (filter (in_folder "Open Data")
                                  (items (Example.published []))) <= 800)
    by (cbn; lia).
  split; [reflexivity|]. split; [exact ND|]. split; [exact L|].
  apply cleanup_site_empties_the_open_data_folder;
    [reflexivity | exact ND | exact L].
Defined.

(** X18: whatever request fails, [reassign_to_admin] adds nothing to the
    content of the signed-in user and, when the items have distinct
    identities, takes no item that lies outside the folder [Open Data];
    when the organization has no user [unstats_admin], it takes no item at
    all and prints nothing. *)
Theorem reassign_to_admin_takes_only_from_the_open_data_folder
    (directory : list string) (w : World) :
  NoDup (item_ids w) ->
  let w' := snd (reassign_to_admin directory w) in
  nothing_added (items w) (items w') /\
  kept_outside "Open Data" (items w) (items w') /\
  (~ In "unstats_admin" directory ->
   items w' = items w /\ console w' = console w).
Proof.
  intros ND w'. subst w'. unfold item_ids in ND.
  cut (exists w',
         snd (reassign_to_admin directory w) = w' /\
         nothing_added (items w) (items w') /\
         kept_outside "Open Data" (items w) (items w') /\
         (~ In "unstats_admin" directory ->
          items w' = items w /\ console w' = console w)).
  { intros [w' [<- H]]. exact H. }
  assert (Same : forall w1 : World,
             items w1 = items w -> console w1 = console w ->
             nothing_added (items w) (items w1) /\
             kept_outside "Open Data" (items w) (items w1) /\
             (~ In "unstats_admin" directory ->
              items w1 = items w /\ console w1 = console w)).
  { intros w1 E Ec. rewrite E.
    split; [intros it H; exact H|].
    split; [intros it H _; exact H|]. intros _. split; [reflexivity|exact Ec]. }
  unfold reassign_to_admin. unfold bind at 1, users_get_self, remote at 1.
  destruct (existsb (Nat.eqb (calls w)) (faults w)).
  { eexists. split; [reflexivity|]. apply Same; reflexivity. }
  cbv beta iota. unfold ret at 1. cbv beta iota.
  unfold bind at 1, users_get, remote at 1. cbn [calls faults set_calls].
  destruct (existsb _ (faults w)).
  { eexists. split; [reflexivity|]. apply Same; reflexivity. }
  cbv beta iota.
  destruct (existsb (String.eqb "unstats_admin") directory) eqn:Hadmin.
  - assert (Hin : In "unstats_admin" directory).
    { apply existsb_exists in Hadmin. destruct Hadmin as [name [Hin Heq]].
      apply String.eqb_eq in Heq. now subst name. }
    unfold bind at 1, user_items, remote at 1.
    cbn [calls faults set_calls].
    destruct (existsb _ (faults w)).
    { eexists. split; [reflexivity|]. apply Same; reflexivity. }
    cbv beta iota. cbn [items set_calls].
    eexists. split; [reflexivity|].
    match goal with
    | |- context [for_all ?b ?l ?w1] =>
        destruct (@folder_loop_is_confined b "Open Data" 800 w1 w) as [H1 H2]
    end.
    + intros x w1.
      apply (removal_step
               (fun item => "reassigning item " ++ snd item
                              ++ " to admin user")%string
               (fun id => item_reassign_to id "unstats_admin" "Open Data")
               x w1 (item_reassign_to_removes "unstats_admin" "Open Data")).
    + exact ND.
    + reflexivity.
    + split; [exact H1|]. split; [exact H2|].
      intro Hno. now elim Hno.
  - eexists. split; [reflexivity|]. apply Same; reflexivity.
Qed.

(** X18 on the example catalog, in an organization without the admin. *)
Lemma reassign_to_admin_witness :
  let w := Example.published [] in
  let w' := snd (reassign_to_admin [] w) in
  NoDup (item_ids w) /\
  nothing_added (items w) (items w') /\
  kept_outside "Open Data" (items w) (items w') /\
  (~ In "unstats_admin" [] ->
   items w' = items w /\ console w' = console w).
Proof.
  cbv zeta.
  assert (ND : NoDup (item_ids (Example.published [])))
    by (repeat constructor; intros []).
  split; [exact ND|].
  apply (@reassign_to_admin_takes_only_from_the_open_data_folder []
           (Example.published []) ND).
Defined.

(** ** create_group *)

Lemma first_exact_title_none title results :
  (forall id t, In (id, t) results -> t <> title) ->
  first_exact_title title results = None.
Proof.
  induction results as [|[i t] rest IH]; cbn [first_exact_title]; intro H;
    [reflexivity|].
  destruct (t =? title) eqn:E.
  - apply String.eqb_eq in E. elim (H i t); [now left | exact E].
  - apply IH. intros id t' Hin. apply (H id t'). now right.
Qed.

(** The creation branch: either the request fails, or a group with a fresh
    identity is appended. *)
Lemma create_branch_run (group_info : GroupInfo) (groups : list Group)
    (w : World) :
  let create :=
    (created <- groups_create group_info groups ;;
     output (Displayed (fst created)) ;;
     ret (Some (fst created), snd created)) in
  (exists w', create w = (Raise RemoteError, w') /\ next_id w' = next_id w) \/
  (exists w',
     create w
     = (Ok (Some (next_id w),
            groups ++ [new_group (next_id w) group_info]), w') /\
     next_id w' = S (next_id w)).
Proof.
  cbv zeta. unfold bind, groups_create, remote, output, ret.
  cbv beta zeta.
  destruct (existsb (Nat.eqb (calls w)) (faults w)).
  - left. eexists. split; reflexivity.
  - right. eexists. split; reflexivity.
Qed.

(** X19: [create_group] never raises.  It answers [None] and leaves the
    groups as they were, or answers a fresh group made of the goal's
    properties and appended to the groups, or answers a group that the
    search for [SDG Open Data] returned under the goal's title, updated in
    place. *)
Theorem create_group_creates_or_updates_one_group
    (title_matches : string -> string -> bool) (group_info : GroupInfo)
    (groups : list Group) (w : World) :
  exists r groups' w',
    create_group title_matches group_info groups w = (Ok (r, groups'), w') /\
    match r with
    | None => groups' = groups /\ next_id w' = next_id w
    | Some id =>
        (id = next_id w /\ next_id w' = S (next_id w) /\
         groups' = groups ++ [new_group id group_info]) \/
        ((exists g,
            In g groups /\ gr_id g = id /\
            gr_title g = gi_title group_info /\
            title_matches "SDG Open Data" (gr_title g) = true) /\
         next_id w' = next_id w /\
         groups' = map (fun g => if (gr_id g =? id)%nat
                                 then updated_group group_info g else g)
                       groups)
    end.
Proof.
  assert (Hcreate : forall w1, next_id w1 = next_id w ->
    exists r groups' w',
      match
        (created <- groups_create group_info groups ;;
         output (Displayed (fst created)) ;;
         ret (Some (fst created), snd created)) w1
      with
      | (Ok a, w') => (Ok a, w')
      | (Raise e, w') =>
          (output (Traceback e) ;; ret (None, groups)) w'
      end = (Ok (r, groups'), w') /\
      match r with
      | None => groups' = groups /\ next_id w' = next_id w
      | Some id =>
          (id = next_id w /\ next_id w' = S (next_id w) /\
           groups' = groups ++ [new_group id group_info]) \/
          ((exists g,
              In g groups /\ gr_id g = id /\
              gr_title g = gi_title group_info /\
              title_matches "SDG Open Data" (gr_title g) = true) /\
           next_id w' = next_id w /\
           groups' = map (fun g => if (gr_id g =? id)%nat
                                   then updated_group group_info g else g)
                         groups)
      end).
  { intros w1 Hn.
    destruct (create_branch_run group_info groups w1)
      as [[w2 [E Hn2]] | [w2 [E Hn2]]]; cbv zeta in E; rewrite E.
    - exists None, groups. eexists. split; [reflexivity|].
      split; [reflexivity|]. cbn. congruence.
    - exists (Some (next_id w1)), (groups ++ [new_group (next_id w1) group_info]),
        w2.
      split; [reflexivity|]. left. rewrite <- Hn. auto. }
  unfold create_group, try_except.
  unfold bind at 1, groups_search, remote at 1.
  destruct (existsb (Nat.eqb (calls w)) (faults w)).
  { exists None, groups. eexists. split; [reflexivity|].
    split; reflexivity. }
  cbv beta iota zeta. unfold ret at 1. cbv beta iota.
  destruct (map (fun g => (gr_id g, gr_title g))
                (filter (fun g => title_matches "SDG Open Data" (gr_title g))
                        groups)) as [|hit hits] eqn:Hresults.
  { apply Hcreate. reflexivity. }
  destruct (first_exact_title (gi_title group_info) (hit :: hits))
    as [id|] eqn:Hfirst.
  2:{ apply Hcreate. reflexivity. }
  apply first_exact_title_In in Hfirst. rewrite <- Hresults in Hfirst.
  apply in_map_iff in Hfirst. destruct Hfirst as [g [Eg Hg]].
  inversion Eg; subst. apply filter_In in Hg. destruct Hg as [Hin Hmatch].
  unfold bind at 1, group_update, remote.
  cbn [calls faults set_calls].
  destruct (existsb _ (faults w)).
  - exists None, groups. eexists. split; [reflexivity|].
    split; reflexivity.
  - exists (Some (gr_id g)). do 2 eexists. split; [reflexivity|].
    right. split; [|split; reflexivity].
    exists g. auto.
Qed.

(** X20: the search asks for the fixed title [SDG Open Data], not for the
    goal's title.  When every request succeeds and no group that this
    search returns carries the goal's title, a new group is created, also
    when a group with the goal's title exists. *)
Theorem create_group_creates_when_the_search_misses
    (title_matches : string -> string -> bool) (group_info : GroupInfo)
    (groups : list Group) (w : World) :
  faults w = [] ->
  (forall g, In g groups ->
             title_matches "SDG Open Data" (gr_title g) = true ->
             gr_title g <> gi_title group_info) ->
  exists w',
    create_group title_matches group_info groups w
    = (Ok (Some (next_id w),
           groups ++ [new_group (next_id w) group_info]), w') /\
    next_id w' = S (next_id w).
Proof.
  intros Hf Hmiss.
  assert (Hnone :
    first_exact_title (gi_title group_info)
      (map (fun g => (gr_id g, gr_title g))
           (filter (fun g => title_matches "SDG Open Data" (gr_title g))
                   groups)) = None).
  { apply first_exact_title_none. intros id t Hin.
    apply in_map_iff in Hin. destruct Hin as [g [Eg Hg]].
    inversion Eg; subst. apply filter_In in Hg. destruct Hg as [Hin Hm].
    now apply Hmiss. }
  unfold create_group, try_except.
  unfold bind at 1, groups_search, remote at 1.
  rewrite Hf. cbn [existsb]. cbv beta iota zeta. unfold ret at 1.
  cbv beta iota.
  assert (Hcreate :
    match
      (created <- groups_create group_info groups ;;
       output (Displayed (fst created)) ;;
       ret (Some (fst created), snd created))
        (set_calls (S (calls w)) w)
    with
    | (Ok a, w') => (Ok a, w')
    | (Raise e, w') => (output (Traceback e) ;; ret (None, groups)) w'
    end
    = (Ok (Some (next_id w), groups ++ [new_group (next_id w) group_info]),
       snd ((created <- groups_create group_info groups ;;
             output (Displayed (fst created)) ;;
             ret (Some (fst created), snd created))
              (set_calls (S (calls w)) w))) /\
    next_id (snd ((created <- groups_create group_info groups ;;
                   output (Displayed (fst created)) ;;
                   ret (Some (fst created), snd created))
                    (set_calls (S (calls w)) w)))
    = S (next_id w)).
  { unfold bind, groups_create, remote, output, ret.
    cbn [calls faults set_calls]. rewrite Hf. cbn [existsb].
    split; reflexivity. }
  destruct (map (fun g => (gr_id g, gr_title g))
                (filter (fun g => title_matches "SDG Open Data" (gr_title g))
                        groups)) as [|hit hits].
  - eexists. exact Hcreate.
  - rewrite Hnone. eexists. exact Hcreate.
Qed.

(** X20 where a group titled [SDG 1] exists and the search is for the exact
    title: a second group titled [SDG 1] is created. *)
Lemma create_group_creates_witness :
  let info := group_goal_properties Example.goal_1 "thumbnail.png" in
  let groups := [new_group 0 info] in
  let w := mkWorld [] 1 [] [] None [] [] 0 [] in
  faults w = [] /\
  map gr_title groups = ["SDG 1"] /\
  exists w',
    create_group String.eqb info groups w
    = (Ok (Some 1, groups ++ [new_group 1 info]), w') /\
    next_id w' = 2.
Proof.
  cbv zeta. split; [reflexivity|]. split; [reflexivity|].
  apply (@create_group_creates_when_the_search_misses String.eqb
           (group_goal_properties Example.goal_1 "thumbnail.png")
           [new_group 0 (group_goal_properties Example.goal_1
                           "thumbnail.png")]
           (mkWorld [] 1 [] [] None [] [] 0 []));
    [reflexivity|].
  intros g [<-|[]] H. discriminate H.
Defined.

(** * The thumbnails and the group's tags over a walk *)

(** ** The only thumbnail that a goal's walk writes *)

Lemma thumbnails_from_refl th w : thumbnails_from th w w.
Proof. intros it Hin. right. exists it. auto. Qed.

Lemma thumbnails_from_trans th a b c :
  thumbnails_from th a b -> thumbnails_from th b c -> thumbnails_from th a c.
Proof.
  intros Hab Hbc it'' Hin.
  destruct (Hbc it'' Hin) as [E | [it' [Hin' [Hid' Hth']]]]; [now left|].
  destruct (Hab it' Hin') as [E | [it [Hin0 [Hid Hth]]]].
  - left. congruence.
  - right. exists it. repeat split; congruence.
Qed.

Lemma thumbnails_from_same_items th w w' :
  items w' = items w -> thumbnails_from th w w'.
Proof. intros E it Hin. rewrite E in Hin. right. exists it. auto. Qed.

Lemma thumbnails_from_modify th id f w w' :
  (forall it, it_id (f it) = it_id it) ->
  (forall it,
     it_thumbnail (f it) = th \/ it_thumbnail (f it) = it_thumbnail it) ->
  items w' = modify_item id f (items w) ->
  thumbnails_from th w w'.
Proof.
  intros Hid Hth E it' Hin. rewrite E in Hin.
  apply In_modify_item in Hin. destruct Hin as [it [Hin ->]].
  destruct (it_id it =? id)%nat.
  - destruct (Hth it) as [H|H]; [now left|].
    right. exists it. rewrite Hid. auto.
  - right. exists it. auto.
Qed.

Lemma thumbnails_from_added th it w w' :
  it_thumbnail it = th ->
  items w' = items w ++ [it] ->
  thumbnails_from th w w'.
Proof.
  intros Hth E it' Hin. rewrite E in Hin. apply in_app_or in Hin.
  destruct Hin as [Hin | [<- | []]].
  - right. exists it'. auto.
  - now left.
Qed.

(** Operations that leave the items alone. *)
Ltac thumb_same_items :=
  unfold preserves; intros;
  apply thumbnails_from_same_items;
  unfold output, failed_series_append, owner_folder, group_update_tags,
    isfile, get_metadata, load_name, content_search, analyze_request,
    int_code_differs;
  cbv beta delta [remote bind ret raise]; simpl;
  repeat match goal with
         | |- context [match ?x with _ => _ end] => destruct x; simpl
         end;
  reflexivity.

Lemma thumb_item_update th id props data :
  preserves (thumbnails_from th) (item_update id props th data).
Proof.
  intro w. unfold item_update, remote.
  destruct (existsb _ _); cbn [snd].
  - now apply thumbnails_from_same_items.
  - eapply thumbnails_from_modify; [| |reflexivity].
    + reflexivity.
    + intro it. now left.
Qed.

Lemma thumb_item_move th id folder :
  preserves (thumbnails_from th) (item_move id folder).
Proof.
  intro w. unfold item_move, remote.
  destruct (existsb _ _); cbn [snd].
  - now apply thumbnails_from_same_items.
  - eapply thumbnails_from_modify; [| |reflexivity].
    + reflexivity.
    + intro it. now right.
Qed.

Lemma thumb_item_share th id sh :
  preserves (thumbnails_from th) (item_share id sh).
Proof.
  intro w. unfold item_share, remote.
  destruct (existsb _ _); cbn [snd].
  - now apply thumbnails_from_same_items.
  - eapply thumbnails_from_modify; [| |reflexivity].
    + reflexivity.
    + intro it. now right.
Qed.

Lemma thumb_content_add th props file :
  preserves (thumbnails_from th) (content_add props th file).
Proof.
  intro w. unfold content_add, remote.
  destruct (existsb _ _); cbn [snd].
  - now apply thumbnails_from_same_items.
  - eapply thumbnails_from_added; [|reflexivity]. reflexivity.
Qed.

(** The statements after the read of the unbound name are never reached. *)
Lemma thumb_after_unbound_name th {A} (k : unit -> M A) :
  preserves (thumbnails_from th)
    (bind (load_name publish_csv_locals "publishParameters") k).
Proof. intro w. apply thumbnails_from_refl. Qed.

Section GoalThumbnail.

Variable title_matches : string -> string -> bool.
Variable th : string.

Ltac thumb_leaf :=
  first
    [ exact (@thumbnails_from_refl th)
    | exact (@thumbnails_from_trans th)
    | apply thumb_after_unbound_name
    | apply thumb_item_update
    | apply thumb_item_move
    | apply thumb_item_share
    | apply thumb_content_add
    | solve [thumb_same_items] ].

Lemma thumb_find_online_item title :
  preserves (thumbnails_from th) (find_online_item title_matches title).
Proof. unfold find_online_item. preserves_structure thumb_leaf. Qed.

Lemma thumb_publish_csv indicator series props :
  preserves (thumbnails_from th)
    (publish_csv title_matches indicator series props th).
Proof.
  unfold publish_csv, publish_csv_finish, move_to_open_data, analyze_csv,
    find_online_item, print.
  preserves_structure thumb_leaf.
Qed.

Lemma thumb_publish_or_update F indicator series props :
  preserves (thumbnails_from th)
    (publish_or_update title_matches F indicator series props th).
Proof.
  pose proof thumb_publish_csv as Hcsv.
  pose proof thumb_find_online_item as Hfind.
  unfold publish_or_update, resolve_online_item, share_or_record.
  preserves_structure ltac:(first [ thumb_leaf | apply Hcsv | apply Hfind ]).
Qed.

Lemma thumb_process_series F goal target indicator gm series :
  preserves (thumbnails_from th)
    (process_series title_matches F goal target indicator gm th series).
Proof.
  pose proof thumb_publish_or_update as H.
  unfold process_series.
  preserves_structure ltac:(first [ thumb_leaf | apply H ]).
Qed.

Lemma thumb_process_indicator F goal target gm indicator :
  preserves (thumbnails_from th)
    (process_indicator title_matches F goal target gm th indicator).
Proof.
  pose proof thumb_process_series as H.
  unfold process_indicator.
  preserves_structure ltac:(first [ thumb_leaf | apply H ]).
Qed.

Lemma thumb_process_target F goal gm target :
  preserves (thumbnails_from th)
    (process_target title_matches F goal gm th target).
Proof.
  pose proof thumb_process_indicator as H.
  unfold process_target.
  preserves_structure ltac:(first [ thumb_leaf | apply H ]).
Qed.

End GoalThumbnail.

(** ** The metadata-only walk over a settled catalog *)

Lemma exact_title_hit_listed tm title w :
  exact_title_hit tm title (items w) = listed tm title (listing w).
Proof.
  unfold exact_title_hit, listed, listing.
  induction (items w) as [|it l IH]; cbn [map filter snd]; [reflexivity|].
  destruct (tm title (it_title it)); cbn [map first_exact_title];
    [|exact IH].
  destruct (it_title it =? title); [reflexivity | exact IH].
Qed.

Lemma listing_ids w : map fst (listing w) = item_ids w.
Proof. unfold listing, item_ids. rewrite map_map. reflexivity. Qed.

Lemma wears_after th item w w' :
  thumbnails_from th w w' -> wears th item w -> wears th item w'.
Proof.
  intros Hfrom Hw it' Hin Hid.
  destruct (Hfrom it' Hin) as [E | [it [Hin0 [Hid0 Hth]]]]; [exact E|].
  rewrite <- Hth. apply Hw; [exact Hin0 | congruence].
Qed.

Ltac same_faults_tac :=
  unfold preserves; intros;
  unfold output, failed_series_append, item_update, item_move, item_share,
    content_add, item_publish, owner_folder, group_update_tags, isfile,
    get_metadata, load_name, content_search, analyze_request,
    int_code_differs;
  cbv beta delta [remote bind ret raise]; simpl;
  repeat match goal with
         | |- context [match ?x with _ => _ end] => destruct x; simpl
         end;
  reflexivity.

Lemma faults_kept_process_series tm F goal target indicator gm th series w :
  faults (snd (process_series tm F goal target indicator gm th series w))
  = faults w.
Proof.
  apply (@walk_process_series tm (fun a b => faults b = faults a));
    try (intros; congruence); same_faults_tac.
Qed.

Lemma settled_group_update L tags w :
  settled L w ->
  exists w',
    group_update_tags tags w = (Ok tt, w') /\
    settled L w' /\ group_tags w' = group_tags w ++ tags /\
    items w' = items w.
Proof.
  intros [Hf [Hl Hnd]]. unfold group_update_tags, remote.
  rewrite Hf. cbn [existsb]. eexists. split; [reflexivity|].
  repeat split; assumption.
Qed.

Section MetadataWalk.

Variable title_matches : string -> string -> bool.
Variable F : Filters.
Variable L : list (nat * string).

Hypothesis metadata_only : property_update_only F = true.
Hypothesis no_target_filter : target_code F = PyNone.
Hypothesis no_indicator_filter : truthy (indicator_code F) = false.

Lemma settles_process_series goal target indicator gm th series :
  settles L th
    (series_group_tags title_matches L goal target indicator gm series)
    (series_hit title_matches L goal target indicator gm series)
    (process_series title_matches F goal target indicator gm th series).
Proof.
  intros w Hw.
  pose proof (thumb_process_series title_matches th F goal target indicator
                gm series w) as Hthumb.
  pose proof (faults_kept_process_series title_matches F goal target
                indicator gm th series w) as Hfaults.
  destruct Hw as [Hf [Hl Hnd]].
  assert (Hsel : series_selected F series)
    by (unfold series_selected; now rewrite no_indicator_filter).
  assert (Hreq : request_succeeds (announced indicator series w))
    by (unfold request_succeeds; cbn; now rewrite Hf).
  pose proof (find_online_item_run title_matches
                (p_title (build_item_properties goal target indicator
                                                series gm)) Hreq) as Hfind.
  cbn [items announced set_console] in Hfind.
  rewrite exact_title_hit_listed, Hl in Hfind.
  unfold series_group_tags, series_hit.
  destruct (listed title_matches
              (p_title (build_item_properties goal target indicator series
                                              gm)) L)
    as [item|] eqn:Hhit.
  - destruct (@found_run title_matches F goal target indicator gm th series
                metadata_only w _ item Hsel Hf Hfind)
      as [w' [E [Hi [Hn [Hled Hg]]]]].
    rewrite E in Hthumb, Hfaults |- *. cbn [fst snd] in Hthumb, Hfaults |- *.
    split; [reflexivity|]. split; [|split; [exact Hg|split; [exact Hthumb|]]].
    + split; [congruence|]. split; [|exact Hnd].
      rewrite <- Hl. unfold listing. rewrite Hi. unfold modify_item.
      rewrite map_map. apply map_ext_in. intros it Hin.
      destruct (it_id it =? item)%nat eqn:Eid; [|reflexivity].
      apply Nat.eqb_eq in Eid.
      cbn [card_applied it_id it_title]. f_equal.
      assert (Hex : exact_title_hit title_matches
                      (p_title (build_item_properties goal target indicator
                                                      series gm)) (items w)
                    = Some item)
        by (now rewrite exact_title_hit_listed, Hl).
      apply exact_title_hit_sound in Hex.
      destruct Hex as [it0 [Hin0 [Hid0 Htitle]]].
      assert (it = it0).
      { apply (@item_ids_injective (items w)); trivial; [|congruence].
        fold (item_ids w). rewrite <- listing_ids, Hl. exact Hnd. }
      subst it0. now rewrite Htitle.
    + intros item' Hitem'. inversion Hitem'; subst item'.
      intros it Hin Hid. rewrite Hi in Hin.
      apply In_modify_item in Hin. destruct Hin as [it0 [_ ->]].
      destruct (it_id it0 =? item)%nat eqn:Eid; [reflexivity|].
      apply Nat.eqb_neq in Eid. contradiction.
  - rewrite (@not_found_run title_matches F goal target indicator gm th
               series metadata_only w _ Hsel Hfind) in Hthumb, Hfaults |- *.
    cbn [fst snd] in Hthumb, Hfaults |- *.
    split; [reflexivity|]. split; [|split; [|split; [exact Hthumb|]]].
    + split; [rewrite Hfaults; exact Hf|]. split; [exact Hl | exact Hnd].
    + cbn. now rewrite app_nil_r.
    + intros item Hitem. discriminate Hitem.
Qed.

Lemma settles_for_each {A} th (codes : A -> list string)
    (hit : A -> nat -> Prop) (body : A -> M Completion) (l : list A) :
  (forall x, settles L th (codes x) (hit x) (body x)) ->
  settles L th (flat_map codes l)
    (fun item => exists x, In x l /\ hit x item) (for_each body l).
Proof.
  intro Hb. induction l as [|x l IH]; intros w Hw; cbn [for_each flat_map].
  - split; [reflexivity|]. split; [exact Hw|].
    split; [now rewrite app_nil_r|]. split; [apply thumbnails_from_refl|].
    intros item [x [[] _]].
  - destruct (Hb x w Hw) as [Hr [Hw1 [Hg1 [Ht1 Hh1]]]].
    assert (E : (c <- body x ;;
                 match c with
                 | Normal => for_each body l
                 | Returned => ret Returned
                 end) w
                = for_each body l (snd (body x w))).
    { unfold bind. destruct (body x w) as [[c|e] w1];
        cbn [fst snd] in *; [|discriminate].
      inversion Hr; subst c. reflexivity. }
    rewrite E. destruct (IH _ Hw1) as [Hr2 [Hw2 [Hg2 [Ht2 Hh2]]]].
    split; [exact Hr2|]. split; [exact Hw2|].
    split; [now rewrite Hg2, Hg1, app_assoc|].
    split; [eapply thumbnails_from_trans; eassumption|].
    intros item [y [[<-|Hin] Hy]].
    + eapply wears_after; [exact Ht2 | apply Hh1, Hy].
    + apply Hh2. exists y. auto.
Qed.

Lemma settles_after_group_update th tags codes hit (k : M Completion) :
  settles L th codes hit k ->
  settles L th (tags ++ codes) hit (group_update_tags tags ;; k).
Proof.
  intros Hk w Hw.
  destruct (settled_group_update tags Hw) as [w1 [E [Hw1 [Hg1 Hi1]]]].
  unfold bind. rewrite E.
  destruct (Hk w1 Hw1) as [Hr [Hw2 [Hg2 [Ht2 Hh2]]]].
  split; [exact Hr|]. split; [exact Hw2|].
  split; [now rewrite Hg2, Hg1, app_assoc|]. split; [|exact Hh2].
  eapply thumbnails_from_trans; [|exact Ht2].
  now apply thumbnails_from_same_items.
Qed.

Lemma settles_process_indicator goal target gm th indicator :
  settles L th
    (indicator_group_tags title_matches L goal target gm indicator)
    (indicator_hit title_matches L goal target gm indicator)
    (process_indicator title_matches F goal target gm th indicator).
Proof.
  unfold process_indicator. rewrite no_indicator_filter. cbn [andb].
  unfold indicator_group_tags, indicator_hit.
  apply settles_after_group_update.
  apply settles_for_each. intro series. apply settles_process_series.
Qed.

Lemma settles_process_target goal gm th target :
  settles L th
    (target_group_tags title_matches L goal gm target)
    (target_hit title_matches L goal gm target)
    (process_target title_matches F goal gm th target).
Proof.
  unfold process_target, int_code_differs. rewrite no_target_filter.
  cbn [is_none].
  change (settles L th (target_group_tags title_matches L goal gm target)
            (target_hit title_matches L goal gm target)
            (group_update_tags (target_tags target) ;;
             for_each (process_indicator title_matches F goal target gm th)
                      (t_indicators target))).
  unfold target_group_tags, target_hit.
  apply settles_after_group_update.
  apply settles_for_each. intro indicator. apply settles_process_indicator.
Qed.

Lemma settles_targets goal gm th :
  settles L th
    (flat_map (target_group_tags title_matches L goal gm) (g_targets goal))
    (fun item =>
       exists target,
         In target (g_targets goal) /\
         target_hit title_matches L goal gm target item)
    (for_each (process_target title_matches F goal gm th) (g_targets goal)).
Proof.
  apply settles_for_each. intro target. apply settles_process_target.
Qed.

Hypothesis no_goal_filter : goal_code F = PyNone.

Lemma metadata_walk_process_goals records json_data :
  Forall (fun goal =>
            exists n r,
              PyStr.to_int (g_code goal) = Some n /\
              goal_record records n = Some r) json_data ->
  forall cur,
    passes (settled L) group_tags
      (run_group_tags title_matches L records json_data)
      (process_goals title_matches F (Some records) cur json_data).
Proof.
  intro Hall.
  induction Hall as [|goal rest [n [r [Hn Hr]]] Hrest IH]; intros cur w Hw;
    cbn [process_goals run_group_tags flat_map].
  - split; [reflexivity|]. split; [exact Hw | now rewrite app_nil_r].
  - assert (Hsel : is_none (goal_code F) || int_eq_val n (goal_code F)
                   = true) by now rewrite no_goal_filter.
    destruct (settles_targets goal r (goal_thumbnail r) Hw)
      as [Hres [Hw1 [Hg1 _]]].
    assert (E :
      (r0 <- process_goal title_matches F (Some records) cur goal ;;
       match fst r0 with
       | Normal => process_goals title_matches F (Some records) (snd r0) rest
       | Returned => ret Returned
       end) w
      = process_goals title_matches F (Some records) (Some r) rest
          (snd (for_each
                  (process_target title_matches F goal r (goal_thumbnail r))
                  (g_targets goal) w))).
    { unfold bind at 1.
      rewrite (@process_goal_found title_matches F records cur goal n r w
                 Hn Hsel Hr).
      unfold bind at 1.
      destruct (for_each
                  (process_target title_matches F goal r (goal_thumbnail r))
                  (g_targets goal) w) as [[c|e] w1];
        cbn [fst snd] in *; [|discriminate].
      inversion Hres; subst c. reflexivity. }
    rewrite E.
    destruct (IH (Some r) _ Hw1) as [Hres2 [Hw2 Hg2]].
    split; [exact Hres2|]. split; [exact Hw2|].
    fold (run_group_tags title_matches L records rest).
    unfold goal_group_tags at 1. rewrite Hn, Hr.
    now rewrite Hg2, Hg1, app_assoc.
Qed.

End MetadataWalk.

(** ** C7: the thumbnail of a goal's items *)

(** C7 (amended): for a goal that the walk selects and that has a record in
    the display metadata, the walk descends into the goal's targets with the
    thumbnail of that record: its icon URL when the record has one, the fixed
    fallback URL otherwise.  It is the only thumbnail that the goal's walk
    writes: every item of the catalog afterwards carries it, or is an item of
    the catalog before with the thumbnail it had.  And in the metadata-only
    mode, without target and indicator filters and without failing requests,
    the walk ends normally and every item that the exact-title search finds
    for a series of the goal is in the catalog afterwards and carries that
    thumbnail. *)
Theorem thumbnail_of_goal_in_metadata
    (title_matches : string -> string -> bool) (F : Filters)
    (records : list GoalMeta) (cur : option GoalMeta) (goal : Goal) (n : Z)
    (r : GoalMeta) (w : World) :
  PyStr.to_int (g_code goal) = Some n ->
  is_none (goal_code F) || int_eq_val n (goal_code F) = true ->
  goal_record records n = Some r ->
  let thumbnail :=
    match gm_icon_url_sq r with
    | Some url => url
    | None => default_thumbnail
    end in
  let run := process_goal title_matches F (Some records) cur goal w in
  run
  = (c <- for_each (process_target title_matches F goal r thumbnail)
                   (g_targets goal) ;;
     ret (c, Some r)) w /\
  thumbnails_from thumbnail w (snd run) /\
  (property_update_only F = true ->
   target_code F = PyNone ->
   truthy (indicator_code F) = false ->
   faults w = [] ->
   NoDup (item_ids w) ->
   fst run = Ok (Normal, Some r) /\
   forall target indicator series item,
     In target (g_targets goal) ->
     In indicator (t_indicators target) ->
     In series (i_series indicator) ->
     exact_title_hit title_matches
       (p_title (build_item_properties goal target indicator series r))
       (items w) = Some item ->
     (exists it, In it (items (snd run)) /\ it_id it = item) /\
     wears thumbnail item (snd run)).
Proof.
  intros Hn Hsel Hrec thumbnail run. subst run.
  change thumbnail with (goal_thumbnail r). clear thumbnail.
  rewrite (@process_goal_found title_matches F records cur goal n r w
             Hn Hsel Hrec).
  split; [reflexivity|].
  assert (P : preserves (thumbnails_from (goal_thumbnail r))
                (for_each
                   (process_target title_matches F goal r (goal_thumbnail r))
                   (g_targets goal))).
  { preserves_structure
      ltac:(first [ exact (@thumbnails_from_refl (goal_thumbnail r))
                  | exact (@thumbnails_from_trans (goal_thumbnail r))
                  | apply thumb_process_target ]). }
  specialize (P w). split.
  - unfold bind.
    destruct (for_each
                (process_target title_matches F goal r (goal_thumbnail r))
                (g_targets goal) w) as [[c|e] w1]; exact P.
  - intros Hmode HT HI Hf Hnd.
    assert (Hw : settled (listing w) w).
    { split; [exact Hf|]. split; [reflexivity|].
      rewrite listing_ids. exact Hnd. }
    destruct (@settles_targets title_matches F (listing w) Hmode HT HI goal r
                (goal_thumbnail r) w Hw) as [Hres [Hw1 [_ [_ Hh]]]].
    unfold bind.
    destruct (for_each
                (process_target title_matches F goal r (goal_thumbnail r))
                (g_targets goal) w) as [[c|e] w1];
      cbn [fst snd] in *; [|discriminate].
    inversion Hres; subst c. split; [reflexivity|].
    intros target indicator series item Ht Hi Hs Hhit. split.
    + destruct (exact_title_hit_sound _ _ _ Hhit) as [it0 [Hin0 [Hid0 _]]].
      destruct Hw1 as [_ [Hl1 _]].
      assert (Hids : item_ids w1 = item_ids w)
        by (now rewrite <- !listing_ids, Hl1).
      assert (Hin : In item (item_ids w1)).
      { rewrite Hids. unfold item_ids. apply in_map_iff. exists it0. auto. }
      unfold item_ids in Hin. apply in_map_iff in Hin.
      destruct Hin as [it [Hid Hin]]. exists it. auto.
    + apply Hh. exists target. split; [exact Ht|].
      exists indicator. split; [exact Hi|].
      exists series. split; [exact Hs|].
      unfold series_hit. now rewrite <- exact_title_hit_listed.
Qed.

(** C7 (amended) on the example: goal 1, its record, and the service of its
    first series. *)
Lemma thumbnail_of_goal_in_metadata_witness :
  let F := Example.no_filter true in
  let w := Example.published [] in
  let icon := "https://example.org/goal-1.png" in
  let run :=
    process_goal String.eqb F (Some [Example.meta_1]) None Example.goal_1 w in
  PyStr.to_int (g_code Example.goal_1) = Some 1%Z /\
  goal_record [Example.meta_1] 1 = Some Example.meta_1 /\
  NoDup (item_ids w) /\
  exact_title_hit String.eqb
    (p_title (Example.card Example.poverty_day)) (items w) = Some 0 /\
  thumbnails_from icon w (snd run) /\
  fst run = Ok (Normal, Some Example.meta_1) /\
  (exists it, In it (items (snd run)) /\ it_id it = 0) /\
  wears icon 0 (snd run).
Proof.
  cbv zeta.
  assert (ND : NoDup (item_ids (Example.published [])))
    by (repeat constructor; intros []).
  assert (Hhit : exact_title_hit String.eqb
                   (p_title (Example.card Example.poverty_day))
                   (items (Example.published [])) = Some 0)
    by (vm_compute; reflexivity).
  destruct (@thumbnail_of_goal_in_metadata String.eqb
              (Example.no_filter true) [Example.meta_1] None Example.goal_1
              1%Z Example.meta_1 (Example.published [])
              eq_refl eq_refl eq_refl) as [_ [Hfrom Hfound]].
  destruct (Hfound eq_refl eq_refl eq_refl eq_refl ND) as [Hres Hitems].
  split; [reflexivity|]. split; [reflexivity|]. split; [exact ND|].
  split; [exact Hhit|]. split; [exact Hfrom|]. split; [exact Hres|].
  apply (Hitems Example.target_1_1 Example.indicator_1_1_1
           Example.poverty_day 0).
  - now left.
  - now left.
  - now left.
  - exact Hhit.
Defined.

(** ** C9: the group's tags over a run *)

(** C9 (amended): the tags of the open-data group only grow.  A group update
    either fails and leaves the tag list alone or appends the new tags to it;
    the walk issues one update with the target tag for a target it descends
    into and one with the indicator tag for an indicator it descends into.
    For a series it processes, it appends the series code, once, exactly when
    an item was found or published for the series and the request that
    shares the item and the request that updates the group both succeed; in
    every other case the group's tags stay as they are and the series code is
    appended to the failure ledger.  Over a whole run the tag list at the
    start is a prefix of the tag list at the end; and in an unfiltered
    metadata-only run without failing requests, over goals that have a record
    in the display metadata, the tags appended are, in document order, one
    tag per target, one per indicator, and the code of every series whose
    item the search finds, and no other. *)
Theorem open_data_group_tags_only_grow
    (title_matches : string -> string -> bool) :
  (forall new_tags w,
     (exists w', group_update_tags new_tags w = (Raise RemoteError, w') /\
                 group_tags w' = group_tags w) \/
     (exists w', group_update_tags new_tags w = (Ok tt, w') /\
                 group_tags w' = group_tags w ++ new_tags)) /\
  (forall F goal gm thumbnail target w,
     process_target title_matches F goal gm thumbnail target w
       = (Ok Normal, w) \/
     process_target title_matches F goal gm thumbnail target w
       = (Raise ValueError, w) \/
     process_target title_matches F goal gm thumbnail target w
       = (group_update_tags [("Target " ++ t_code target)%string] ;;
          for_each (process_indicator title_matches F goal target gm thumbnail)
                   (t_indicators target)) w) /\
  (forall F goal target gm thumbnail indicator w,
     process_indicator title_matches F goal target gm thumbnail indicator w
       = (Ok Normal, w) \/
     process_indicator title_matches F goal target gm thumbnail indicator w
       = (group_update_tags [("Indicator " ++ i_code indicator)%string] ;;
          for_each (process_series title_matches F goal target indicator gm
                                   thumbnail)
                   (i_series indicator)) w) /\
  (forall F goal target indicator gm thumbnail series w,
     let w' := snd (process_series title_matches F goal target indicator gm
                                   thumbnail series w) in
     group_tags w' = group_tags w \/
     group_tags w' = group_tags w ++ [s_code series]) /\
  (forall F goal target indicator gm thumbnail series w,
     series_selected F series ->
     let resolved :=
       resolve_online_item title_matches F indicator
         (default_description series)
         (build_item_properties goal target indicator series gm) thumbnail
         (announced indicator series w) in
     let w1 := snd resolved in
     let w' := snd (process_series title_matches F goal target indicator gm
                                   thumbnail series w) in
     group_tags w1 = group_tags w /\
     match fst resolved with
     | Ok (Some item) =>
         if existsb (Nat.eqb (calls w1)) (faults w1)
            || existsb (Nat.eqb (S (calls w1))) (faults w1)
         then group_tags w' = group_tags w /\
              failed_series w' = failed_series w1 ++ [s_code series]
         else group_tags w' = group_tags w ++ [s_code series] /\
              failed_series w' = failed_series w1
     | Ok None | Raise _ =>
         group_tags w' = group_tags w /\
         failed_series w' = failed_series w1 ++ [s_code series]
     end) /\
  (forall F json_data w,
     exists added,
       group_tags (snd (process_sdg_information title_matches F json_data w))
       = group_tags w ++ added) /\
  (forall F records json_data w,
     property_update_only F = true ->
     goal_code F = PyNone ->
     target_code F = PyNone ->
     truthy (indicator_code F) = false ->
     faults w = [] ->
     NoDup (item_ids w) ->
     display_metadata w = Some records ->
     Forall (fun goal =>
               exists n r,
                 PyStr.to_int (g_code goal) = Some n /\
                 goal_record records n = Some r) json_data ->
     group_tags (snd (process_sdg_information title_matches F json_data w))
     = group_tags w
         ++ run_group_tags title_matches (listing w) records json_data).
Proof.
  split; [exact group_update_tags_appends|].
  split; [|split; [|split; [|split; [|split]]]].
  - intros F goal gm thumbnail target w.
    unfold process_target, int_code_differs.
    destruct (is_none (target_code F)).
    + right; right. reflexivity.
    + destruct (PyStr.to_int (t_code target)) as [n|].
      * unfold bind at 1, ret at 1.
        destruct (negb (int_eq_val n (target_code F))).
        -- left. reflexivity.
        -- right; right. reflexivity.
      * right; left. reflexivity.
  - intros F goal target gm thumbnail indicator w.
    unfold process_indicator.
    destruct (truthy (indicator_code F) && _); [left | right]; reflexivity.
  - intros F goal target indicator gm thumbnail series w.
    apply appends_process_series.
  - intros F goal target indicator gm thumbnail series w Hsel. cbv zeta.
    pose proof (keeps_resolve_online_item title_matches F indicator
                  (default_description series)
                  (build_item_properties goal target indicator series gm)
                  thumbnail (announced indicator series w)) as Hkeep.
    unfold same_group_tags in Hkeep.
    cbn [group_tags announced set_console] in Hkeep.
    rewrite (@process_series_selected title_matches F goal target indicator
               gm thumbnail series w Hsel).
    destruct (resolve_online_item title_matches F indicator
                (default_description series)
                (build_item_properties goal target indicator series gm)
                thumbnail (announced indicator series w))
      as [[[item|]|e] w1] eqn:E; cbn [fst snd] in Hkeep |- *;
      (split; [exact Hkeep|]).
    + destruct (share_or_record_found (default_description series) item w1)
        as [w2 [Es [Hg Hl]]].
      cbv zeta in Es, Hg. rewrite default_description_code in Hg.
      destruct (existsb (Nat.eqb (calls w1)) (faults w1)
                || existsb (Nat.eqb (S (calls w1))) (faults w1)).
      * erewrite run_try_raise
          by (erewrite run_bind_raise; [reflexivity|];
              unfold publish_or_update; erewrite run_bind_ok by exact E;
              exact Es).
        unfold series_handler, bind, output, failed_series_append, ret.
        cbn. rewrite Hg, Hl, Hkeep. split; reflexivity.
      * erewrite run_try_ok
          by (erewrite run_bind_ok; [reflexivity|];
              unfold publish_or_update; erewrite run_bind_ok by exact E;
              exact Es).
        cbn [snd]. rewrite Hg, Hl, Hkeep. split; reflexivity.
    + erewrite run_try_ok
        by (erewrite run_bind_ok; [reflexivity|];
            unfold publish_or_update; erewrite run_bind_ok by exact E;
            reflexivity).
      cbn. rewrite default_description_code, Hkeep. split; reflexivity.
    + erewrite run_try_raise
        by (erewrite run_bind_raise; [reflexivity|];
            unfold publish_or_update; erewrite run_bind_raise by exact E;
            reflexivity).
      unfold series_handler, bind, output, failed_series_append, ret.
      cbn. rewrite Hkeep. split; reflexivity.
  - intros F json_data w.
    apply (grows_process_sdg_information title_matches F json_data w).
  - intros F records json_data w Hmode HG HT HI Hf Hnd Hmd Hall.
    assert (Hw : settled (listing w) w).
    { split; [exact Hf|]. split; [reflexivity|].
      rewrite listing_ids. exact Hnd. }
    rewrite process_sdg_information_run, Hmd.
    destruct (@metadata_walk_process_goals title_matches F (listing w)
                Hmode HT HI HG records json_data Hall None w Hw)
      as [Hres [_ Hg]].
    destruct (process_goals title_matches F (Some records) None json_data w)
      as [[c|e] w1]; cbn [fst snd] in *; [exact Hg | discriminate].
Qed.

(** C9 (amended) on the example: the service of the first series is in the
    catalog and no request fails, so its code joins the group's tags, after
    the tag of its target and the tag of its indicator. *)
Lemma open_data_group_tags_witness :
  let F := Example.no_filter true in
  let w := Example.published [] in
  let thumbnail := goal_thumbnail Example.meta_1 in
  let resolved :=
    resolve_online_item String.eqb F Example.indicator_1_1_1
      (default_description Example.poverty_day)
      (Example.card Example.poverty_day) thumbnail
      (announced Example.indicator_1_1_1 Example.poverty_day w) in
  let w' :=
    snd (process_series String.eqb F Example.goal_1 Example.target_1_1
           Example.indicator_1_1_1 Example.meta_1 thumbnail
           Example.poverty_day w) in
  let after_run :=
    snd (process_sdg_information String.eqb F [Example.goal_1] w) in
  run_group_tags String.eqb (listing w) [Example.meta_1] [Example.goal_1]
  = ["Target 1.1"; "Indicator 1.1.1"; "SI_POV_DAY1"] /\
  group_tags after_run
  = group_tags w
      ++ run_group_tags String.eqb (listing w) [Example.meta_1]
                        [Example.goal_1] /\
  series_selected F Example.poverty_day /\
  fst resolved = Ok (Some 0) /\
  group_tags w' = group_tags w ++ ["SI_POV_DAY1"] /\
  failed_series w' = failed_series (snd resolved).
Proof.
  cbv zeta.
  pose proof (open_data_group_tags_only_grow String.eqb)
    as [_ [_ [_ [_ [Hseries [_ Hrun]]]]]].
  split; [vm_compute; reflexivity|]. split.
  { apply (Hrun (Example.no_filter true) [Example.meta_1] [Example.goal_1]
             (Example.published [])); try reflexivity.
    - repeat constructor. intros [].
    - constructor; [|constructor].
      exists 1%Z, Example.meta_1. split; reflexivity. }
  specialize (Hseries (Example.no_filter true) Example.goal_1
                Example.target_1_1 Example.indicator_1_1_1 Example.meta_1
                (goal_thumbnail Example.meta_1) Example.poverty_day
                (Example.published []) eq_refl).
  cbv zeta in Hseries. destruct Hseries as [_ Hseries].
  assert (E : fst (resolve_online_item String.eqb (Example.no_filter true)
                     Example.indicator_1_1_1
                     (default_description Example.poverty_day)
                     (Example.card Example.poverty_day)
                     (goal_thumbnail Example.meta_1)
                     (announced Example.indicator_1_1_1 Example.poverty_day
                                (Example.published [])))
              = Ok (Some 0)) by (vm_compute; reflexivity).
  split; [reflexivity|]. split; [exact E|].
  unfold Example.card in E |- *. rewrite E in Hseries.
  cbv beta iota in Hseries.
  match type of Hseries with
  | if ?b then _ else _ =>
      assert (Hb : b = false) by (vm_compute; reflexivity)
  end.
  rewrite Hb in Hseries. exact Hseries.
Defined.

